(** * Photo manager (Flask application [app.py]): model and properties

    The request handlers of [app.py] are embedded as functions over an
    explicit store: the three SQLite tables as lists of rows in rowid
    order, and the tree under [UPLOADS_ROOT] as its regular files, a
    finite map from paths (relative to that root) to contents, and its
    directories.

    Conventions of the model.
    - A Python [str] is a [string]; a character is its code point, and
      the model covers code points below 256 (Latin-1).  [str.lower],
      [str.strip] and the regular expression class [\s] are given with
      the values Python has on that range.
    - Row identifiers are integers ([Z]).  A form field or query
      argument that carries an identifier is the text the request
      sends: SQLite compares it with a key under the column's affinity
      ([sql_integer]) and Python reads it with [int] ([py_int]).  The
      two do not accept the same texts; on a text both accept they give
      the same integer.
    - [int(time.time())] is an input of the handler: the [n]-th reading
      of the clock during a request.
    - The tree holds regular files and directories under canonical
      relative paths, as [pathlib] normalises them.  A path that leaves
      the tree (absolute, or through [..]) or that the operating system
      does not take (a NUL character) is not followed: what is there,
      and what a move to or from there does, is an input.  Symbolic
      links are not modelled.
    - [Path.replace] raises when the tree forbids the move (no source,
      a directory in the way); whether it raises for another reason is
      an input as well.  [mkdir] and [save] are taken not to raise.
    - An exception that leaves a view is the response [Server_error]. *)

From Stdlib Require Import String Ascii.
From stdpp Require Import gmap strings list pretty sorting.

Local Open Scope string_scope.
Local Open Scope Z_scope.

(** ** Text *)

Module Text.

Abbreviation chars := (list ascii).

Definition of_string : string -> chars := list_ascii_of_string.
Definition to_string : chars -> string := string_of_list_ascii.

Definition code (c : ascii) : N := N_of_ascii c.

Definition in_range (lo hi : N) (c : ascii) : bool :=
  ((lo <=? code c) && (code c <=? hi))%N.

(** [str.isspace] on code points below 256; the class [\s] of [re]
    on [str] patterns is the same set. *)
Definition isspace (c : ascii) : bool :=
  in_range 9 13 c || in_range 28 32 c
  || (code c =? 133)%N || (code c =? 160)%N.

(** [str.lower] on one code point below 256. *)
Definition lower_char (c : ascii) : ascii :=
  if in_range 65 90 c
     || (in_range 192 222 c && negb (code c =? 215)%N)
  then ascii_of_N (code c + 32)
  else c.

Definition lower (l : chars) : chars := map lower_char l.

Fixpoint lstrip_by (p : ascii -> bool) (l : chars) : chars :=
  match l with
  | [] => []
  | c :: r => if p c then lstrip_by p r else l
  end.

(** Dropping the trailing characters that satisfy [p]. *)
Fixpoint rstrip_by (p : ascii -> bool) (l : chars) : chars :=
  match l with
  | [] => []
  | c :: r =>
      match rstrip_by p r with
      | [] => if p c then [] else [c]
      | r' => c :: r'
      end
  end.

Definition strip_by (p : ascii -> bool) (l : chars) : chars :=
  rstrip_by p (lstrip_by p l).

(** [s.strip()] *)
Definition strip (l : chars) : chars := strip_by isspace l.

Definition is_char (a c : ascii) : bool := (code a =? code c)%N.

(** [s.strip("_")], [s.lstrip(".")] *)
Definition strip_char (a : ascii) (l : chars) : chars := strip_by (is_char a) l.
Definition lstrip_char (a : ascii) (l : chars) : chars := lstrip_by (is_char a) l.

(** [re.sub(r"\s+", "_", s)]: every maximal run of whitespace becomes
    one underscore.  [in_run] records that the previous character was
    whitespace, whose underscore is already written. *)
Fixpoint sub_space_runs (in_run : bool) (l : chars) : chars :=
  match l with
  | [] => []
  | c :: r =>
      if isspace c
      then (if in_run then sub_space_runs true r
            else "_"%char :: sub_space_runs true r)
      else c :: sub_space_runs false r
  end.

(** The characters the class [[a-z0-9_\-]] accepts. *)
Definition slug_char (c : ascii) : bool :=
  in_range 97 122 c || in_range 48 57 c
  || is_char "_" c || is_char "-" c.

(** [re.sub(r"[^a-z0-9_\-]", "", s)] *)
Definition sub_non_slug (l : chars) : chars := List.filter slug_char l.

(** The pieces of [l] between the characters that satisfy [p]. *)
Fixpoint split_by (p : ascii -> bool) (l : chars) : list chars :=
  match l with
  | [] => [[]]
  | c :: r =>
      if p c then [] :: split_by p r
      else match split_by p r with
           | [] => [[c]]
           | w :: ws => (c :: w) :: ws
           end
  end.

Definition is_nil (w : chars) : bool :=
  match w with [] => true | _ => false end.

(** The part of [l] after its last occurrence of [a]; [None] when
    [a] does not occur ([str.rfind] returning -1). *)
Fixpoint after_last (a : ascii) (l : chars) : option chars :=
  match l with
  | [] => None
  | c :: r =>
      match after_last a r with
      | Some t => Some t
      | None => if is_char a c then Some r else None
      end
  end.

End Text.

(** ** [slugify] *)

Definition slug_normal (name : Text.chars) : Text.chars :=
  let name := Text.lower (Text.strip name) in
  let name := Text.sub_space_runs false name in
  Text.sub_non_slug name.

Definition slugify (name : string) : string :=
  let n := slug_normal (Text.of_string name) in
  match n with
  | [] => "proyecto"
  | _ => Text.to_string (take 60 n)
  end.


(** ** Paths *)

Module Paths.
Import Text.

Definition is_dot (w : chars) : bool :=
  match w with
  | [c] => is_char "." c
  | _ => false
  end.

(** Paths are read as [pathlib] reads them on POSIX, [/] being the one
    separator.

    [PurePosixPath(p).name]: the last component, where empty
    components and [.] components do not count. *)
Definition name (p : chars) : chars :=
  List.last (List.filter (fun w => negb (is_nil w || is_dot w)) (split_by (is_char "/") p)) [].

(** [PurePosixPath(p).suffix]: from the last dot of the name on,
    when that dot is neither the first nor the last character. *)
Definition suffix (p : chars) : chars :=
  let n := name p in
  match after_last "." n with
  | Some t =>
      if (0 <? (length n - length t - 1)%nat)%nat && negb (is_nil t)
      then "."%char :: t
      else []
  | None => []
  end.

(** [os.path.basename(p)] of [posixpath]. *)
Definition basename (p : chars) : chars :=
  match after_last "/" p with
  | Some t => t
  | None => p
  end.

Definition is_dotdot (w : chars) : bool :=
  match w with
  | [c; d] => is_char "." c && is_char "." d
  | _ => false
  end.

(** The components [pathlib] keeps of a relative path: the empty ones
    and [.] are dropped, [..] stays. *)
Definition parts (p : chars) : list chars :=
  List.filter (fun w => negb (is_nil w || is_dot w)) (split_by (is_char "/") p).

Definition is_absolute (p : chars) : bool :=
  match p with
  | c :: _ => is_char "/" c
  | [] => false
  end.

Definition has_nul (p : chars) : bool := existsb (fun c => (code c =? 0)%N) p.

Fixpoint join (ws : list chars) : chars :=
  match ws with
  | [] => []
  | w :: ws' =>
      w ++ match ws' with
           | [] => []
           | _ => "/"%char :: join ws'
           end
  end.

(** The directories above the last component, nearest last. *)
Fixpoint above (ws : list chars) : list (list chars) :=
  match ws with
  | [] => []
  | w :: ws' => [w] :: map (cons w) (above ws')
  end.

(** The text left of [s] once the prefix [p] is taken off. *)
Fixpoint after_prefix (p s : chars) : option chars :=
  match p, s with
  | [], _ => Some s
  | _ :: _, [] => None
  | c :: p', d :: s' => if is_char c d then after_prefix p' s' else None
  end.

End Paths.

(** Where [UPLOADS_ROOT / p] lies in the tree: the canonical relative
    path, [""] being the root itself; [None] when the path is not
    followed. *)
Definition locate (p : string) : option string :=
  let l := Text.of_string p in
  if Paths.is_absolute l || Paths.has_nul l || existsb Paths.is_dotdot (Paths.parts l)
  then None
  else Some (Text.to_string (Paths.join (Paths.parts l))).

(** The directories [mkdir(parents=True)] makes sure of for [p]. *)
Definition ancestry (p : string) : list string :=
  map (fun ws => Text.to_string (Paths.join ws)) (Paths.above (Paths.parts (Text.of_string p))).

(** [k] is [base] or lies below it; the root is above every path. *)
Definition below (base k : string) : option string :=
  if String.eqb k base then Some ""
  else match base with
       | EmptyString => Some k
       | _ => Text.to_string
                <$> Paths.after_prefix (Text.of_string (String.append base "/")) (Text.of_string k)
       end.

(** The place of [k] once the directory [src] is named [dst]. *)
Definition rebase (src dst k : string) : string :=
  match below src k with
  | Some EmptyString => dst
  | Some rest => String.append dst (String.append "/" rest)
  | None => k
  end.

(** [Path(n).suffix.lower().lstrip(".")] *)
Definition extension (n : string) : string :=
  Text.to_string
    (Text.lstrip_char "." (Text.lower (Paths.suffix (Text.of_string n)))).

Definition basename (p : string) : string :=
  Text.to_string (Paths.basename (Text.of_string p)).

Definition strip (s : string) : string :=
  Text.to_string (Text.strip (Text.of_string s)).

Definition lower (s : string) : string :=
  Text.to_string (Text.lower (Text.of_string s)).

Definition is_empty (s : string) : bool :=
  match s with EmptyString => true | _ => false end.

Definition ALLOWED_EXTENSIONS : list string := ["png"; "jpg"; "jpeg"; "webp"].

Definition allowed_ext (ext : string) : bool :=
  bool_decide (ext ∈ ALLOWED_EXTENSIONS).

(** ** The store: database rows and the uploads tree *)

Record User := {
  u_id : Z;
  u_username : string;
  u_password_hash : string;
  u_is_admin : bool
}.

Record Project := {
  pr_id : Z;
  pr_name : string;
  pr_slug : string;
  pr_created_at : string;
  pr_description : option string;
  pr_status : string
}.

(** [None] in an [option] column is SQL [NULL]. *)
Record Photo := {
  ph_id : Z;
  ph_filepath : option string;
  ph_filename : option string;
  ph_display_name : string;
  ph_description : option string;
  ph_uploaded_at : string;
  ph_uploaded_by : option Z;
  ph_project_id : option Z
}.

(** Tables in rowid order; [seq_*] is the [sqlite_sequence] entry of an
    [AUTOINCREMENT] key. *)
Record DB := {
  users : list User;
  projects : list Project;
  photos : list Photo;
  seq_users : Z;
  seq_projects : Z;
  seq_photos : Z
}.

(** The tree under [UPLOADS_ROOT]: the regular files and the
    directories, by canonical relative path.  The root is a directory
    without being listed. *)
Record FS := {
  files : gmap string string;
  dirs : gset string
}.

Record World := {
  db : DB;
  fs : FS
}.

#[global] Instance User_eq_dec : EqDecision User.
Proof. solve_decision. Defined.
#[global] Instance Project_eq_dec : EqDecision Project.
Proof. solve_decision. Defined.
#[global] Instance Photo_eq_dec : EqDecision Photo.
Proof. solve_decision. Defined.

(** What a request takes from outside the store. *)
Record Env := {
  (** [int(time.time())], by the number of earlier readings *)
  clock : nat -> Z;
  (** [Some e] when [src.replace(dst)] raises for a reason the tree
      does not show, [e] being [str] of the exception *)
  replace_error : string -> string -> option string;
  (** [str] of the exception [src.replace(dst)] raises when the tree
      forbids the move *)
  os_error : string -> string -> string;
  (** whether [p.unlink()] raises for a reason the tree does not show *)
  unlink_error : string -> bool;
  (** [exists()] on a path that is not followed *)
  outside_exists : string -> bool;
  (** the tree after a move to or from a path that is not followed *)
  replace_outside : string -> string -> FS -> FS;
  (** [datetime('now','localtime')] *)
  sql_now : string;
  (** [generate_password_hash] *)
  generate_password_hash : string -> string
}.

(** [werkzeug.utils.secure_filename] *)
Class Werkzeug := secure_filename : string -> string.

(** What SQLite computes on texts.
    [sql_date]: the SQL function [date]; [None] is [NULL].
    [sql_integer]: the integer a text is equal to when it is compared
    with the value of an [INTEGER] column, the text being read as a
    number first; [None] when it is equal to none. *)
Class SQLite := {
  sql_date : string -> option string;
  sql_integer : string -> option Z
}.

(** Python's [int] on a [str]; [None] when it raises [ValueError].
    A text that [int] accepts and that SQLite finds equal to an integer
    stands for that integer. *)
Class Builtins `{SQLite} := {
  py_int : string -> option Z;
  py_int_value : forall s i j, sql_integer s = Some i -> py_int s = Some j -> i = j
}.

(** *** File system operations *)

Definition is_file (f : FS) (k : string) : bool :=
  bool_decide (is_Some (files f !! k)).

Definition is_dir (f : FS) (k : string) : bool :=
  is_empty k || bool_decide (k ∈ dirs f).

(** [(UPLOADS_ROOT / p).exists()]: true of a regular file and of a
    directory. *)
Definition path_exists (env : Env) (f : FS) (p : string) : bool :=
  match locate p with
  | Some k => is_file f k || is_dir f k
  | None => outside_exists env p
  end.

(** [(UPLOADS_ROOT / d).mkdir(parents=True, exist_ok=True)]; it is
    taken not to raise, as is [f.save(p)] below. *)
Definition mkdir (d : string) (f : FS) : FS :=
  match locate d with
  | Some _ => {| files := files f; dirs := list_to_set (ancestry d) ∪ dirs f |}
  | None => f
  end.

(** Something lies in the directory [k]. *)
Definition occupied (f : FS) (k : string) : bool :=
  let inside k' := negb (String.eqb k' k) && bool_decide (is_Some (below k k')) in
  existsb inside (map fst (map_to_list (files f))) || existsb inside (elements (dirs f)).

(** The tree once the directory [src] is named [dst]. *)
Definition rename_dir (src dst : string) (f : FS) : FS :=
  {| files := list_to_map (map (fun e => (rebase src dst e.1, e.2)) (map_to_list (files f)));
     dirs := list_to_set (map (rebase src dst) (elements (dirs f))) |}.

(** The directory a path lies in. *)
Definition parent (k : string) : string :=
  Text.to_string (Paths.join (removelast (Paths.parts (Text.of_string k)))).

(** [src.replace(dst)], which is [rename(2)]: the error text when it
    raises.  A regular file goes over a regular file; a directory goes
    with all it holds, and only to a name that is free or an empty
    directory; the destination lies in a directory that is there. *)
Definition replace (env : Env) (src dst : string) (f : FS) : string + FS :=
  match replace_error env src dst with
  | Some e => inl e
  | None =>
      match locate src, locate dst with
      | Some ks, Some kd =>
          match files f !! ks with
          | Some c =>
              if is_dir f kd || negb (is_dir f (parent kd)) then inl (os_error env src dst)
              else inr {| files := <[kd := c]> (delete ks (files f)); dirs := dirs f |}
          | None =>
              if negb (is_dir f ks) || is_empty ks || is_file f kd
                 || negb (is_dir f (parent kd))
              then inl (os_error env src dst)
              else if String.eqb ks kd then inr f
              else if bool_decide (is_Some (below ks kd)) || occupied f kd
              then inl (os_error env src dst)
              else inr (rename_dir ks kd f)
          end
      | _, _ => inr (replace_outside env src dst f)
      end
  end.

(** [p.unlink()] inside [try: ... except Exception: pass]: a call that
    raises, as it does on a directory, leaves the tree as it is. *)
Definition unlink (env : Env) (p : string) (f : FS) : FS :=
  if unlink_error env p then f
  else match locate p with
       | Some k => {| files := delete k (files f); dirs := dirs f |}
       | None => f
       end.

(** [file.save(UPLOADS_ROOT / d / name)]; a file written outside the
    tree leaves the tree as it is. *)
Definition save (d name : string) (content : string) (f : FS) : FS :=
  match locate d, locate name with
  | Some kd, Some kn =>
      let k := if is_empty kd then kn
               else if is_empty kn then kd
               else String.append kd (String.append "/" kn) in
      {| files := <[k := content]> (files f); dirs := dirs f |}
  | _, _ => f
  end.

(** *** Responses *)

Inductive Endpoint :=
| ep_login
| ep_dashboard
| ep_admin_panel
| ep_upload
| ep_edit_photo (photo_id : Z)
| ep_admin_edit_project (project_id : Z).

(** A rendered template carries the part of its context the
    properties below speak of. *)
Inductive Response :=
| Redirect (target : Endpoint)
| Render_dashboard (photos : list (Photo * option string))
| Render_upload
| Render_edit_photo (photo : Photo)
| Render_edit_project (project : Project)
| Server_error.

(** A flashed message with its category. *)
Definition Flash : Type := string * string.

Record Result := {
  response : Response;
  world : World;
  flashed : list Flash
}.

Definition reply (r : Response) (w : World) (fl : list Flash) : Result :=
  {| response := r; world := w; flashed := fl |}.

Definition set_db (d : DB) (w : World) : World := {| db := d; fs := fs w |}.
Definition set_fs (f : FS) (w : World) : World := {| db := db w; fs := f |}.

Definition set_users (l : list User) (d : DB) : DB :=
  {| users := l; projects := projects d; photos := photos d;
     seq_users := seq_users d; seq_projects := seq_projects d; seq_photos := seq_photos d |}.
Definition set_projects (l : list Project) (d : DB) : DB :=
  {| users := users d; projects := l; photos := photos d;
     seq_users := seq_users d; seq_projects := seq_projects d; seq_photos := seq_photos d |}.
Definition set_photos (l : list Photo) (d : DB) : DB :=
  {| users := users d; projects := projects d; photos := l;
     seq_users := seq_users d; seq_projects := seq_projects d; seq_photos := seq_photos d |}.

(** The key an [AUTOINCREMENT] column gives the next row: one more than
    the largest key the table holds or has ever held. *)
Definition next_id (ids : list Z) (seq : Z) : Z :=
  1 + foldr Z.max (Z.max seq 0) ids.

(** ** Permissions *)

(** What a decorator decides before the view runs: the user it lets
    through, or the response it gives itself. *)
Definition Gate : Type := Result + User.

(** [flask_login.login_required]: an anonymous request is sent to the
    login view with Flask-Login's message. *)
Definition login_gate (current_user : option User) (w : World) : Gate :=
  match current_user with
  | None => inl (reply (Redirect ep_login) w [("Please log in to access this page.", "message")])
  | Some u => inr u
  end.

(** The wrapper of [admin_required] *)
Definition admin_gate (current_user : option User) (w : World) : Gate :=
  match login_gate current_user w with
  | inl r => inl r
  | inr u =>
      if negb (u_is_admin u)
      then inl (reply (Redirect ep_dashboard) w [("Acceso solo para administradores.", "error")])
      else inr u
  end.

(** The wrapper of [upload_required] *)
Definition upload_gate (current_user : option User) (w : World) : Gate :=
  match login_gate current_user w with
  | inl r => inl r
  | inr u =>
      if negb (u_is_admin u)
      then inl (reply (Redirect ep_dashboard) w
                  [("No tienes permisos para subir imágenes.", "error")])
      else inr u
  end.

Definition guarded (g : Gate) (view : User -> World -> Result) (w : World) : Result :=
  match g with
  | inl r => r
  | inr u => view u w
  end.

Definition login_required (current_user : option User) view (w : World) : Result :=
  guarded (login_gate current_user w) view w.

Definition admin_required (current_user : option User) view (w : World) : Result :=
  guarded (admin_gate current_user w) view w.

Definition upload_required (current_user : option User) view (w : World) : Result :=
  guarded (upload_gate current_user w) view w.

(** ** Utilities of the handlers *)

Definition or_empty (o : option string) : string :=
  match o with Some s => s | None => "" end.

(** [get_photo_filepath(row)] *)
Definition get_photo_filepath (row : Photo) : string :=
  let fp := strip (or_empty (ph_filepath row)) in
  let fn := strip (or_empty (ph_filename row)) in
  if negb (is_empty fp) then fp
  else if negb (is_empty fn) then "general/" ++ fn
  else "".

(** [SELECT ... FROM projects WHERE id = ?], [fetchone] *)
Definition project_by_id (d : DB) (i : Z) : option Project :=
  List.find (fun p => pr_id p =? i) (projects d).

(** [SELECT ... FROM projects WHERE slug = ?], [fetchone] *)
Definition project_by_slug (d : DB) (s : string) : option Project :=
  List.find (fun p => String.eqb (pr_slug p) s) (projects d).

(** [SELECT ... FROM projects WHERE id = ?] with the text of a form
    field as parameter. *)
Definition project_by_text `{SQLite} (d : DB) (text : string) : option Project :=
  sql_integer text ≫= project_by_id d.

Definition photo_by_id (d : DB) (i : Z) : option Photo :=
  List.find (fun p => ph_id p =? i) (photos d).

Definition user_by_id (d : DB) (i : Z) : option User :=
  List.find (fun u => u_id u =? i) (users d).

(** [secure_filename(display_name).strip("_").lower()] *)
Definition file_base `{Werkzeug} (display_name : string) : string :=
  Text.to_string
    (Text.lower (Text.strip_char "_" (Text.of_string (secure_filename display_name)))).

(** The f-string [{base}_{t}.{ext}] *)
Definition stamped_name (base : string) (t : Z) (ext : string) : string :=
  base ++ "_" ++ pretty t ++ "." ++ ext.

(** ** Users *)

(** [UPDATE photos SET uploaded_by = NULL WHERE uploaded_by = ?] *)
Definition null_owner (user_id : Z) (p : Photo) : Photo :=
  if bool_decide (ph_uploaded_by p = Some user_id)
  then {| ph_id := ph_id p; ph_filepath := ph_filepath p; ph_filename := ph_filename p;
          ph_display_name := ph_display_name p; ph_description := ph_description p;
          ph_uploaded_at := ph_uploaded_at p; ph_uploaded_by := None;
          ph_project_id := ph_project_id p |}
  else p.

Definition admins_count (d : DB) : nat :=
  length (List.filter u_is_admin (users d)).

Definition delete_user_view (user_id : Z) (current_user : User) (w : World) : Result :=
  if u_id current_user =? user_id
  then reply (Redirect ep_admin_panel) w [("No puedes eliminar tu propio usuario.", "error")]
  else
    match user_by_id (db w) user_id with
    | None => reply (Redirect ep_admin_panel) w [("Usuario no encontrado.", "error")]
    | Some target =>
        if u_is_admin target && (admins_count (db w) <=? 1)%nat
        then reply (Redirect ep_admin_panel) w
               [("No puedes eliminar el último administrador.", "error")]
        else
          let d := set_photos (map (null_owner user_id) (photos (db w))) (db w) in
          let d := set_users (List.filter (fun u => negb (u_id u =? user_id)) (users d)) d in
          reply (Redirect ep_admin_panel) (set_db d w)
            [("Usuario '" ++ u_username target ++ "' eliminado.", "success")]
    end.

Definition admin_delete_user (current_user : option User) (user_id : Z) : World -> Result :=
  admin_required current_user (delete_user_view user_id).

(** ** Projects *)

Definition slug_taken (d : DB) (slug : string) : bool :=
  match project_by_slug d slug with Some _ => true | None => false end.

(** The f-string [{base}_{i}] *)
Definition suffixed (base : string) (i : Z) : string := base ++ "_" ++ pretty i.

(** The loop of [admin_create_project]:
    [while <slug is taken>: slug = f"{base}_{i}"; i += 1].
    [fuel] bounds the number of tests of the condition. *)
Fixpoint free_slug (fuel : nat) (d : DB) (base slug : string) (i : Z) : option string :=
  match fuel with
  | O => None
  | S fuel =>
      if slug_taken d slug
      then free_slug fuel d base (suffixed base i) (i + 1)
      else Some slug
  end.

Record ProjectForm := {
  project_name : string;
  project_description : string;
  project_status : option string
}.

Definition status_of (f : ProjectForm) : string :=
  strip (match project_status f with Some s => s | None => "pendiente" end).

(** [INSERT INTO projects (name, slug, description, status)]; [None]
    is [sqlite3.IntegrityError] from a [UNIQUE] column. *)
Definition insert_project (env : Env) (name slug description status : string)
    (d : DB) : option DB :=
  if existsb (fun p => String.eqb (pr_name p) name || String.eqb (pr_slug p) slug) (projects d)
  then None
  else
    let i := next_id (map pr_id (projects d)) (seq_projects d) in
    Some {| users := users d;
            projects := projects d ++
              [{| pr_id := i; pr_name := name; pr_slug := slug;
                  pr_created_at := sql_now env;
                  pr_description := Some description; pr_status := status |}];
            photos := photos d;
            seq_users := seq_users d; seq_projects := i; seq_photos := seq_photos d |}.

Definition create_project_view (env : Env) (fuel : nat) (f : ProjectForm)
    (w : World) : option Result :=
  let name := strip (project_name f) in
  let description := strip (project_description f) in
  let status := status_of f in
  if is_empty name
  then Some (reply (Redirect ep_admin_panel) w
               [("El nombre del proyecto es obligatorio.", "error")])
  else
    let slug := slugify name in
    match free_slug fuel (db w) slug slug 2 with
    | None => None
    | Some slug =>
        match insert_project env name slug description status (db w) with
        | Some d =>
            Some (reply (Redirect ep_admin_panel)
                    (set_fs (mkdir slug (fs w)) (set_db d w))
                    [("Proyecto creado.", "success")])
        | None =>
            Some (reply (Redirect ep_admin_panel) w [("Ese proyecto ya existe.", "error")])
        end
    end.

(** [None]: the loop did not end within [fuel] tests. *)
Definition admin_create_project (env : Env) (fuel : nat) (current_user : option User)
    (f : ProjectForm) (w : World) : option Result :=
  match admin_gate current_user w with
  | inl r => Some r
  | inr _ => create_project_view env fuel f w
  end.

(** [UPDATE projects SET name = ?, description = ?, status = ? WHERE id = ?];
    [None] is [sqlite3.IntegrityError]. *)
Definition rename_project (i : Z) (name description status : string) (d : DB) : option DB :=
  if existsb (fun p => String.eqb (pr_name p) name && negb (pr_id p =? i)) (projects d)
  then None
  else Some (set_projects
               (map (fun p => if pr_id p =? i
                              then {| pr_id := pr_id p; pr_name := name; pr_slug := pr_slug p;
                                      pr_created_at := pr_created_at p;
                                      pr_description := Some description;
                                      pr_status := status |}
                              else p) (projects d)) d).

(** [form] is [None] for a GET request. *)
Definition edit_project_view (project_id : Z) (form : option ProjectForm)
    (_ : User) (w : World) : Result :=
  match project_by_id (db w) project_id with
  | None => reply (Redirect ep_admin_panel) w [("Proyecto no encontrado.", "error")]
  | Some project =>
      match form with
      | None => reply (Render_edit_project project) w []
      | Some f =>
          let name := strip (project_name f) in
          let description := strip (project_description f) in
          let status := status_of f in
          if is_empty name
          then reply (Redirect (ep_admin_edit_project project_id)) w
                 [("El nombre es obligatorio.", "error")]
          else
            match rename_project project_id name description status (db w) with
            | Some d => reply (Redirect ep_admin_panel) (set_db d w)
                          [("Proyecto actualizado.", "success")]
            | None => reply (Redirect ep_admin_panel) w
                        [("Ya existe un proyecto con ese nombre.", "error")]
            end
      end
  end.

Definition admin_edit_project (current_user : option User) (project_id : Z)
    (form : option ProjectForm) : World -> Result :=
  admin_required current_user (edit_project_view project_id form).

(** *** Deleting a project *)

(** [UPDATE photos SET project_id = ?, filepath = ?, filename = ? WHERE id = ?] *)
Definition move_row (i : Z) (project_id : Z) (filepath filename : string) (p : Photo) : Photo :=
  if ph_id p =? i
  then {| ph_id := ph_id p; ph_filepath := Some filepath; ph_filename := Some filename;
          ph_display_name := ph_display_name p; ph_description := ph_description p;
          ph_uploaded_at := ph_uploaded_at p; ph_uploaded_by := ph_uploaded_by p;
          ph_project_id := Some project_id |}
  else p.

(** The state the loop over the photos carries: the store and the
    number of clock readings made so far. *)
Record Loop := {
  l_world : World;
  l_reads : nat
}.

(** The path a photo row of the project named [slug] points at
    ([old_fp]); empty when the row names no file. *)
Definition old_fp_of (slug : string) (ph : Photo) : string :=
  let old_fp := strip (or_empty (ph_filepath ph)) in
  if is_empty old_fp && negb (is_empty (or_empty (ph_filename ph)))
  then slug ++ "/" ++ or_empty (ph_filename ph)
  else old_fp.

(** [old_name], and the number of clock readings after computing it. *)
Definition old_name_of (env : Env) (old_fp : string) (ph : Photo) (n : nat) : string * nat :=
  if negb (is_empty old_fp) then (basename old_fp, n)
  else if negb (is_empty (or_empty (ph_filename ph))) then (or_empty (ph_filename ph), n)
  else (pretty (clock env n) ++ ".jpg", S n).

(** The [try] block: the path written to the row, the tree and the
    readings afterwards.  An exception leaves the tree as it is and
    keeps the [new_fp] assigned before it. *)
Definition try_move (env : Env) (old_fp old_name : string) (f : FS) (n : nat)
    : string * FS * nat :=
  let new_fp := "general/" ++ old_name in
  if negb (is_empty old_fp) && path_exists env f old_fp
  then
    let '(new_fp, n) :=
      if path_exists env f new_fp
      then ("general/" ++ pretty (clock env n) ++ "_" ++ old_name, S n)
      else (new_fp, n) in
    match replace env old_fp new_fp f with
    | inr f' => (new_fp, f', n)
    | inl _ => (new_fp, f, n)
    end
  else (new_fp, f, n).

(** The body of [for ph in photos]. *)
Definition relocate_photo (env : Env) (general_id : Z) (slug : string)
    (st : Loop) (ph : Photo) : Loop :=
  let w := l_world st in
  let old_fp := old_fp_of slug ph in
  let '(old_name, n) := old_name_of env old_fp ph (l_reads st) in
  let '(new_fp, f, n) := try_move env old_fp old_name (fs w) n in
  let d := set_photos
             (map (move_row (ph_id ph) general_id new_fp (basename new_fp)) (photos (db w)))
             (db w) in
  {| l_world := {| db := d; fs := f |}; l_reads := n |}.

(** [SELECT id, filepath, filename FROM photos WHERE project_id = ?] *)
Definition photos_of_project (d : DB) (project_id : Z) : list Photo :=
  List.filter (fun p => bool_decide (ph_project_id p = Some project_id)) (photos d).

Definition delete_project_view (env : Env) (project_id : Z) (_ : User) (w : World) : Result :=
  match project_by_id (db w) project_id with
  | None => reply (Redirect ep_admin_panel) w [("Proyecto no encontrado.", "error")]
  | Some proj =>
      if String.eqb (pr_slug proj) "general"
      then reply (Redirect ep_admin_panel) w
             [("No se puede eliminar el proyecto General.", "error")]
      else
        match project_by_slug (db w) "general" with
        | None => reply (Redirect ep_admin_panel) w
                    [("No existe el proyecto General.", "error")]
        | Some general =>
            let snapshot := photos_of_project (db w) project_id in
            let w := set_fs (mkdir "general" (fs w)) w in
            let st := fold_left (relocate_photo env (pr_id general) (pr_slug proj))
                        snapshot {| l_world := w; l_reads := 0 |} in
            let w := l_world st in
            let d := set_projects
                       (List.filter (fun p => negb (pr_id p =? project_id)) (projects (db w)))
                       (db w) in
            reply (Redirect ep_admin_panel) (set_db d w)
              [("Proyecto eliminado. Las fotos se movieron a General.", "success")]
        end
  end.

Definition admin_delete_project (env : Env) (current_user : option User)
    (project_id : Z) : World -> Result :=
  admin_required current_user (delete_project_view env project_id).

(** ** Start-up *)

(** [INSERT INTO users (username, password_hash, is_admin)]; [None] is
    [sqlite3.IntegrityError]. *)
Definition insert_user (username hash : string) (admin : bool) (d : DB) : option DB :=
  if existsb (fun u => String.eqb (u_username u) username) (users d)
  then None
  else
    let i := next_id (map u_id (users d)) (seq_users d) in
    Some {| users := users d ++
              [{| u_id := i; u_username := username; u_password_hash := hash;
                  u_is_admin := admin |}];
            projects := projects d; photos := photos d;
            seq_users := i; seq_projects := seq_projects d; seq_photos := seq_photos d |}.

(** The two back-fill [UPDATE]s on [photos], in their order. *)
Definition backfill (general_id : Z) (p : Photo) : Photo :=
  let project := match ph_project_id p with None => Some general_id | o => o end in
  let filepath :=
    match ph_filepath p, ph_filename p with
    | None, Some fn => Some ("general/" ++ fn)
    | Some "", Some fn => Some ("general/" ++ fn)
    | o, _ => o
    end in
  {| ph_id := ph_id p; ph_filepath := filepath; ph_filename := ph_filename p;
     ph_display_name := ph_display_name p; ph_description := ph_description p;
     ph_uploaded_at := ph_uploaded_at p; ph_uploaded_by := ph_uploaded_by p;
     ph_project_id := project |}.

(** [None]: an [INSERT] raised and start-up stopped there. *)
Definition ensure_admin_and_default_project (env : Env) (w : World) : option World :=
  let d := db w in
  d ← (if existsb u_is_admin (users d) then Some d
       else insert_user "admin" (generate_password_hash env "admin123") true d);
  d ← (if slug_taken d "general" then Some d
       else insert_project env "General" "general" "Proyecto por defecto" "pendiente" d);
  general ← project_by_slug d "general";
  let d := set_photos (map (backfill (pr_id general)) (photos d)) d in
  Some {| db := d; fs := mkdir "general" (fs w) |}.

(** ** Listing *)

Module Sql.
Import Text.

(** [LIKE] folds the upper-case ASCII letters only. *)
Definition fold_char (c : ascii) : ascii :=
  if in_range 65 90 c then ascii_of_N (code c + 32) else c.

Definition same_char (a b : ascii) : bool := is_char (fold_char a) (fold_char b).

(** [text LIKE pattern] without [ESCAPE]: [%] stands for any run of
    characters, [_] for any one character. *)
Fixpoint like_chars (pattern text : chars) : bool :=
  match pattern with
  | [] => is_nil text
  | c :: pattern' =>
      if is_char "%" c
      then (fix any (t : chars) : bool :=
              like_chars pattern' t
              || match t with
                 | [] => false
                 | _ :: t' => any t'
                 end) text
      else match text with
           | [] => false
           | d :: text' => (is_char "_" c || same_char c d) && like_chars pattern' text'
           end
  end.

(** SQLite reads a text up to its first NUL character. *)
Fixpoint until_nul (l : chars) : chars :=
  match l with
  | [] => []
  | c :: r => if (code c =? 0)%N then [] else c :: until_nul r
  end.

Definition like (text : option string) (pattern : string) : bool :=
  match text with
  | Some t => like_chars (until_nul (of_string pattern)) (until_nul (of_string t))
  | None => false
  end.

(** [a >= b] on two results of [date]; a [NULL] side selects no row. *)
Definition date_ge (a b : option string) : bool :=
  match a, b with
  | Some x, Some y => String.leb y x
  | _, _ => false
  end.

End Sql.

(** The arguments of the query string, as texts. *)
Record Filters := {
  arg_q : string;
  arg_project_id : string;
  arg_date_from : string;
  arg_date_to : string
}.

(** The [WHERE] clause [dashboard] assembles. *)
Definition where_clause `{SQLite} (a : Filters) (p : Photo) : bool :=
  let q := strip (arg_q a) in
  let project_id := strip (arg_project_id a) in
  let date_from := strip (arg_date_from a) in
  let date_to := strip (arg_date_to a) in
  (is_empty q
   || Sql.like (Some (ph_display_name p)) ("%" ++ q ++ "%")
   || Sql.like (ph_description p) ("%" ++ q ++ "%"))
  && (is_empty project_id
      || match sql_integer project_id with
         | Some i => bool_decide (ph_project_id p = Some i)
         | None => false
         end)
  && (is_empty date_from || Sql.date_ge (sql_date (ph_uploaded_at p)) (sql_date date_from))
  && (is_empty date_to || Sql.date_ge (sql_date date_to) (sql_date (ph_uploaded_at p))).

(** [photos p LEFT JOIN projects pr ON pr.id = p.project_id], with
    [pr.name AS project_name]. *)
Definition left_join (d : DB) : list (Photo * option string) :=
  flat_map
    (fun p =>
       match List.filter (fun pr => bool_decide (ph_project_id p = Some (pr_id pr))) (projects d) with
       | [] => [(p, None)]
       | l => map (fun pr => (p, Some (pr_name pr))) l
       end) (photos d).

(** [ORDER BY p.id DESC] *)
Definition id_desc (a b : Photo * option string) : Prop := ph_id (fst b) <= ph_id (fst a).

#[global] Instance id_desc_dec a b : Decision (id_desc a b).
Proof. unfold id_desc. apply _. Defined.

Definition list_photos `{SQLite} (a : Filters) (d : DB) : list (Photo * option string) :=
  merge_sort id_desc (List.filter (fun r => where_clause a (fst r)) (left_join d)).

Definition dashboard `{SQLite} (current_user : option User) (a : Filters) : World -> Result :=
  login_required current_user
    (fun _ w => reply (Render_dashboard (list_photos a (db w))) w []).

(** ** Photos *)

Record UploadForm := {
  (** the name and the content of the file part [photo] *)
  up_photo : option (string * string);
  up_display_name : string;
  up_description : string;
  (** the text of the field [project_id], empty when it is not sent *)
  up_project_id : string
}.

(** [INSERT INTO photos (filepath, filename, display_name, description,
    uploaded_by, project_id)] *)
Definition insert_photo (env : Env) (filepath filename display_name description : string)
    (uploaded_by project_id : Z) (d : DB) : DB :=
  let i := next_id (map ph_id (photos d)) (seq_photos d) in
  {| users := users d; projects := projects d;
     photos := photos d ++
       [{| ph_id := i; ph_filepath := Some filepath; ph_filename := Some filename;
           ph_display_name := display_name; ph_description := Some description;
           ph_uploaded_at := sql_now env; ph_uploaded_by := Some uploaded_by;
           ph_project_id := Some project_id |}];
     seq_users := seq_users d; seq_projects := seq_projects d; seq_photos := i |}.

(** [base], with the readings of the clock after it. *)
Definition base_or_stamp `{Werkzeug} (env : Env) (display_name : string) (n : nat)
    : string * nat :=
  let base := file_base display_name in
  if is_empty base then ("foto_" ++ pretty (clock env n), S n) else (base, n).

(** [form] is [None] for a GET request.  [int(project_id)] is
    evaluated for the [INSERT], after the file is saved. *)
Definition upload_view `{Werkzeug} `{SQLite} `{!Builtins} (env : Env) (form : option UploadForm)
    (current_user : User) (w : World) : Result :=
  match form with
  | None => reply Render_upload w []
  | Some f =>
      let display_name := strip (up_display_name f) in
      let description := strip (up_description f) in
      let project_id := strip (up_project_id f) in
      if is_empty project_id
      then reply (Redirect ep_upload) w [("Selecciona un proyecto.", "error")]
      else
        match project_by_text (db w) project_id with
        | None => reply (Redirect ep_upload) w [("Proyecto inválido.", "error")]
        | Some proj =>
            match up_photo f with
            | None => reply (Redirect ep_upload) w [("Selecciona una imagen.", "error")]
            | Some (original_name, content) =>
                if is_empty original_name
                then reply (Redirect ep_upload) w [("Selecciona una imagen.", "error")]
                else if is_empty display_name
                then reply (Redirect ep_upload) w [("El nombre/código es obligatorio.", "error")]
                else
                  let ext := extension original_name in
                  if negb (allowed_ext ext)
                  then reply (Redirect ep_upload) w
                         [("Formato no permitido. Usa JPG/PNG/WEBP.", "error")]
                  else
                    let '(base, n) := base_or_stamp env display_name 0 in
                    let final_name := stamped_name base (clock env n) ext in
                    let project_slug := pr_slug proj in
                    let f' := mkdir project_slug (fs w) in
                    let f' := save project_slug final_name content f' in
                    let filepath := project_slug ++ "/" ++ final_name in
                    match py_int project_id with
                    | None => reply Server_error {| db := db w; fs := f' |} []
                    | Some project_id =>
                        let d := insert_photo env filepath final_name display_name description
                                   (u_id current_user) project_id (db w) in
                        reply (Redirect ep_dashboard) {| db := d; fs := f' |}
                          [("Imagen subida correctamente.", "success")]
                    end
            end
        end
  end.

Definition upload `{Werkzeug} `{SQLite} `{!Builtins} (env : Env) (current_user : option User)
    (form : option UploadForm) : World -> Result :=
  upload_required current_user (upload_view env form).

Record EditForm := {
  ed_display_name : string;
  ed_description : string;
  (** the text of the field [project_id], empty when it is not sent *)
  ed_project_id : string
}.

(** [UPDATE photos SET display_name = ?, description = ?, project_id = ?,
    filepath = ?, filename = ? WHERE id = ?] *)
Definition edit_row (i : Z) (display_name description : string) (project_id : Z)
    (filepath filename : string) (p : Photo) : Photo :=
  if ph_id p =? i
  then {| ph_id := ph_id p; ph_filepath := Some filepath; ph_filename := Some filename;
          ph_display_name := display_name; ph_description := Some description;
          ph_uploaded_at := ph_uploaded_at p; ph_uploaded_by := ph_uploaded_by p;
          ph_project_id := Some project_id |}
  else p.

(** [str(photo["project_id"] or "")]: the decimal text of the
    reference, and the empty text for [NULL] and for zero. *)
Definition project_text (photo : Photo) : string :=
  match ph_project_id photo with
  | Some i => if i =? 0 then "" else pretty i
  | None => ""
  end.

(** [old_project_id != str(new_project_id)]: a comparison of texts,
    [new_project_id] being the text of the form field. *)
Definition project_changed (photo : Photo) (new_project_id : string) : bool :=
  negb (String.eqb (project_text photo) new_project_id).

Definition name_changed (photo : Photo) (new_display_name : string) : bool :=
  negb (String.eqb (lower (strip (ph_display_name photo))) (lower new_display_name)).

(** The extension [edit_photo] keeps for the stored file. *)
Definition kept_extension (old_filename : string) : string :=
  let ext := extension old_filename in
  if allowed_ext ext then ext else "jpg".

Definition old_filename_of (photo : Photo) : string :=
  let old_fp := get_photo_filepath photo in
  if negb (is_empty old_fp) then basename old_fp else or_empty (ph_filename photo).

(** What [edit_photo] settles before it touches the tree: the row
    keeps its file where it is ([Keep], nothing changed), the file to
    move is not there ([Missing]), or the file goes to [dst] under the
    name [new_filename] ([Move]). *)
Inductive Plan :=
| Keep (new_fp new_filename : string)
| Missing
| Move (dst new_filename : string).

Definition edit_plan `{Werkzeug} (env : Env) (photo : Photo) (new_proj : Project)
    (new_display_name : string) (new_project_id : string) (f : FS) : Plan :=
  let old_fp := get_photo_filepath photo in
  let old_filename := old_filename_of photo in
  let ext := kept_extension old_filename in
  let project_changed := project_changed photo new_project_id in
  let name_changed := name_changed photo new_display_name in
  let '(base, n) := base_or_stamp env new_display_name 0 in
  let '(new_filename, n) :=
    if name_changed
    then (stamped_name base (clock env n) ext, S n)
    else (old_filename, n) in
  let new_fp := pr_slug new_proj ++ "/" ++ new_filename in
  if project_changed || name_changed
  then
    if negb (is_empty old_fp) && path_exists env f old_fp
    then
      if path_exists env f new_fp
      then let new_filename := stamped_name base (clock env n) ext in
           Move (pr_slug new_proj ++ "/" ++ new_filename) new_filename
      else Move new_fp new_filename
    else Missing
  else Keep new_fp new_filename.

(** The closing [UPDATE] and response of [edit_photo].  The [UPDATE]
    takes [int(new_project_id)]: when that raises, the rows stay, and
    the tree and the messages flashed so far are what they are. *)
Definition edit_commit `{SQLite} `{!Builtins} (photo_id : Z) (new_display_name new_description : string)
    (new_project_id : string) (new_fp new_filename : string) (f : FS) (warnings : list Flash)
    (w : World) : Result :=
  match py_int new_project_id with
  | None => reply Server_error {| db := db w; fs := f |} warnings
  | Some project_id =>
      let d := set_photos
                 (map (edit_row photo_id new_display_name new_description
                         project_id new_fp new_filename)
                    (photos (db w)))
                 (db w) in
      reply (Redirect ep_dashboard) {| db := d; fs := f |}
        (warnings ++ [("Foto actualizada.", "success")])%list
  end.

Definition edit_photo_view `{Werkzeug} `{SQLite} `{!Builtins} (env : Env) (photo_id : Z)
    (form : option EditForm) (_ : User) (w : World) : Result :=
  match photo_by_id (db w) photo_id with
  | None => reply (Redirect ep_dashboard) w [("Foto no encontrada.", "error")]
  | Some photo =>
      match form with
      | None => reply (Render_edit_photo photo) w []
      | Some f =>
          let new_display_name := strip (ed_display_name f) in
          let new_description := strip (ed_description f) in
          let new_project_id := strip (ed_project_id f) in
          if is_empty new_display_name
          then reply (Redirect (ep_edit_photo photo_id)) w
                 [("El nombre/código es obligatorio.", "error")]
          else if is_empty new_project_id
          then reply (Redirect (ep_edit_photo photo_id)) w
                 [("Selecciona un proyecto.", "error")]
          else
            match project_by_text (db w) new_project_id with
            | None => reply (Redirect (ep_edit_photo photo_id)) w
                        [("Proyecto inválido.", "error")]
            | Some new_proj =>
                let old_fp := get_photo_filepath photo in
                let f0 := mkdir (pr_slug new_proj) (fs w) in
                let commit := edit_commit photo_id new_display_name new_description
                                new_project_id in
                match edit_plan env photo new_proj new_display_name new_project_id f0 with
                | Keep new_fp new_filename => commit new_fp new_filename f0 [] w
                | Missing =>
                    commit old_fp (old_filename_of photo) f0
                      [("Aviso: no se encontró el archivo físico para mover/renombrar.",
                        "error")] w
                | Move new_fp new_filename =>
                    match replace env old_fp new_fp f0 with
                    | inr f1 => commit new_fp new_filename f1 [] w
                    | inl e =>
                        reply (Redirect (ep_edit_photo photo_id)) (set_fs f0 w)
                          [("No se pudo mover/renombrar el archivo: " ++ e, "error")]
                    end
                end
            end
      end
  end.

Definition edit_photo `{Werkzeug} `{SQLite} `{!Builtins} (env : Env) (current_user : option User)
    (photo_id : Z) (form : option EditForm) : World -> Result :=
  admin_required current_user (edit_photo_view env photo_id form).

Definition delete_photo_view (env : Env) (photo_id : Z) (_ : User) (w : World) : Result :=
  match photo_by_id (db w) photo_id with
  | None => reply (Redirect ep_dashboard) w [("Foto no encontrada.", "error")]
  | Some photo =>
      let fp := get_photo_filepath photo in
      let f := if negb (is_empty fp) && path_exists env (fs w) fp
               then unlink env fp (fs w) else fs w in
      let d := set_photos (List.filter (fun p => negb (ph_id p =? photo_id)) (photos (db w)))
                 (db w) in
      reply (Redirect ep_dashboard) {| db := d; fs := f |} [("Foto eliminada.", "success")]
  end.

Definition delete_photo (env : Env) (current_user : option User) (photo_id : Z)
    : World -> Result :=
  admin_required current_user (delete_photo_view env photo_id).

(** ** The properties as the specification words them *)

Module Described.

(** The words of a text: its maximal runs of non-whitespace. *)
Definition words (l : Text.chars) : list Text.chars :=
  List.filter (fun w => negb (Text.is_nil w)) (Text.split_by Text.isspace l).

Fixpoint join (sep : ascii) (ws : list Text.chars) : Text.chars :=
  match ws with
  | [] => []
  | w :: ws' =>
      w ++ match ws' with
           | [] => []
           | _ => sep :: join sep ws'
           end
  end.

Definition alphanumeric (c : ascii) : bool :=
  Text.in_range 97 122 c || Text.in_range 65 90 c || Text.in_range 48 57 c.

(** "lowercased, whitespace to underscore, non-alphanumeric stripped,
    truncated to 60 Text.chars"; the underscore that stands for whitespace
    is kept, as in the specification's example [roof_a]. *)
Definition slug (name : string) : string :=
  Text.to_string
    (take 60
       (List.filter (fun c => alphanumeric c || Text.is_char "_" c)
          (join "_" (words (Text.lower (Text.of_string name)))))).

(** The same with the characters [slugify] keeps and its fallback. *)
Definition slug_amended (name : string) : string :=
  match List.filter Text.slug_char (join "_" (words (Text.lower (Text.of_string name)))) with
  | [] => "proyecto"
  | n => Text.to_string (take 60 n)
  end.

(** "case-insensitive substring match": [q] occurs in [t] when the
    case of the letters is left out of account. *)
Definition same_letter (a b : ascii) : bool :=
  Text.is_char (Text.lower_char a) (Text.lower_char b).

Fixpoint prefix_ci (q t : Text.chars) : bool :=
  match q, t with
  | [], _ => true
  | _ :: _, [] => false
  | c :: q', d :: t' => same_letter c d && prefix_ci q' t'
  end.

Fixpoint contains_ci (q t : Text.chars) : bool :=
  prefix_ci q t
  || match t with
     | [] => false
     | _ :: t' => contains_ci q t'
     end.

(** A photo without a description has no text to match. *)
Definition contains (q : string) (t : option string) : bool :=
  match t with
  | Some t => contains_ci (Text.of_string q) (Text.of_string t)
  | None => false
  end.

(** A calendar day. *)
Record Day := {
  year : Z;
  month : Z;
  day : Z
}.

Definition day_le (a b : Day) : bool :=
  (year a <? year b)
  || ((year a =? year b)
      && ((month a <? month b) || ((month a =? month b) && (day a <=? day b)))).

Definition digit (c : ascii) : option Z :=
  if Text.in_range 48 57 c then Some (Z.of_N (Text.code c) - 48) else None.

(** The calendar day of a timestamp [YYYY-MM-DD HH:MM:SS]. *)
Definition day_of (timestamp : string) : option Day :=
  match Text.of_string timestamp with
  | y1 :: y2 :: y3 :: y4 :: s1 :: m1 :: m2 :: s2 :: d1 :: d2 :: _ =>
      if Text.is_char "-" s1 && Text.is_char "-" s2
      then
        y1 ← digit y1; y2 ← digit y2; y3 ← digit y3; y4 ← digit y4;
        m1 ← digit m1; m2 ← digit m2; d1 ← digit d1; d2 ← digit d2;
        Some {| year := 1000 * y1 + 100 * y2 + 10 * y3 + y4;
                month := 10 * m1 + m2;
                day := 10 * d1 + d2 |}
      else None
  | _ => None
  end.

(** The filters of the listing, each of them optional. *)
Record Query := {
  by_text : option string;
  by_project : option Z;
  day_from : option Day;
  day_to : option Day
}.

(** "case-insensitive substring match of the query against display
    name OR description, exact project-id match, inclusive
    calendar-day comparison of the upload timestamp against the date
    bounds", each filter applying when it is supplied. *)
Definition selected (f : Query) (p : Photo) : bool :=
  match by_text f with
  | Some q => contains q (Some (ph_display_name p)) || contains q (ph_description p)
  | None => true
  end
  && match by_project f with
     | Some i => bool_decide (ph_project_id p = Some i)
     | None => true
     end
  && match day_from f with
     | Some d => match day_of (ph_uploaded_at p) with
                 | Some u => day_le d u
                 | None => false
                 end
     | None => true
     end
  && match day_to f with
     | Some d => match day_of (ph_uploaded_at p) with
                 | Some u => day_le u d
                 | None => false
                 end
     | None => true
     end.

(** The characters a query is kept free of below: the wildcards of
    [LIKE], the NUL character, and what is not ASCII. *)
Definition wildcard (c : ascii) : bool := Text.is_char "%" c || Text.is_char "_" c.

Definition plain (c : ascii) : bool :=
  negb (wildcard c) && (0 <? Text.code c)%N && (Text.code c <? 128)%N.

Definition nul_free (s : string) : bool :=
  forallb (fun c => (0 <? Text.code c)%N) (Text.of_string s).

End Described.

(** ** A request for the listing and the filters it stands for *)

Definition digit_char (n : Z) : ascii := ascii_of_N (Z.to_N (48 + n mod 10)).

(** The text [YYYY-MM-DD] of a day, as the date field of a form sends
    it. *)
Definition iso (d : Described.Day) : string :=
  Text.to_string
    [digit_char (Described.year d / 1000); digit_char (Described.year d / 100);
     digit_char (Described.year d / 10); digit_char (Described.year d); "-"%char;
     digit_char (Described.month d / 10); digit_char (Described.month d); "-"%char;
     digit_char (Described.day d / 10); digit_char (Described.day d)].

Definition in_format (d : Described.Day) : Prop :=
  0 <= Described.year d <= 9999
  /\ 0 <= Described.month d <= 99
  /\ 0 <= Described.day d <= 99.

(** The arguments [a] of a request carry the filters [f]: an absent
    filter is an empty argument; the query is the argument, trimmed; the
    project is an identifier that SQLite reads the argument as; a bound
    is a day whose text is the argument, and which [date] gives back. *)
Definition sends `{SQLite} (a : Filters) (f : Described.Query) : Prop :=
  match Described.by_text f with
  | Some q => q <> "" /\ strip (arg_q a) = q
  | None => strip (arg_q a) = ""
  end
  /\ match Described.by_project f with
     | Some i => strip (arg_project_id a) <> ""
                 /\ sql_integer (strip (arg_project_id a)) = Some i
     | None => strip (arg_project_id a) = ""
     end
  /\ match Described.day_from f with
     | Some d => in_format d /\ strip (arg_date_from a) = iso d
                 /\ sql_date (iso d) = Some (iso d)
     | None => strip (arg_date_from a) = ""
     end
  /\ match Described.day_to f with
     | Some d => in_format d /\ strip (arg_date_to a) = iso d
                 /\ sql_date (iso d) = Some (iso d)
     | None => strip (arg_date_to a) = ""
     end.

(** The upload time of a row is one whose calendar day [date] gives. *)
Definition dated `{SQLite} (p : Photo) : Prop :=
  exists u, Described.day_of (ph_uploaded_at p) = Some u
            /\ sql_date (ph_uploaded_at p) = Some (iso u).


(** ** Rows before and after an operation *)

(** [p'] is [p] but for its owner. *)
Definition same_but_owner (p p' : Photo) : Prop :=
  ph_id p' = ph_id p
  /\ ph_filepath p' = ph_filepath p
  /\ ph_filename p' = ph_filename p
  /\ ph_display_name p' = ph_display_name p
  /\ ph_description p' = ph_description p
  /\ ph_uploaded_at p' = ph_uploaded_at p
  /\ ph_project_id p' = ph_project_id p.

(** What deleting the user [user_id] does to a photo row. *)
Definition owner_nulled (user_id : Z) (p p' : Photo) : Prop :=
  same_but_owner p p'
  /\ (ph_uploaded_by p = Some user_id -> ph_uploaded_by p' = None)
  /\ (ph_uploaded_by p <> Some user_id -> p' = p).

(** A photo row in step with its project's directory [slug]: its path
    is [slug/filename], written without surrounding blanks, and the
    file name is the last component of the path. *)
Definition in_sync (slug : string) (p : Photo) : Prop :=
  exists fn,
    ph_filename p = Some fn
    /\ ph_filepath p = Some (slug ++ "/" ++ fn)
    /\ strip (slug ++ "/" ++ fn) = slug ++ "/" ++ fn
    /\ basename (slug ++ "/" ++ fn) = fn.

(** The row [edit_photo] writes for [p]. *)
Definition edited (p : Photo) (display_name description : string) (project_id : Z)
    (filepath filename : string) : Photo :=
  {| ph_id := ph_id p; ph_filepath := Some filepath; ph_filename := Some filename;
     ph_display_name := display_name; ph_description := Some description;
     ph_uploaded_at := ph_uploaded_at p; ph_uploaded_by := ph_uploaded_by p;
     ph_project_id := Some project_id |}.

(** The row [admin_delete_project] writes for [p], its file being
    recorded at [filepath]. *)
Definition relocated (p : Photo) (general_id : Z) (filepath : string) : Photo :=
  {| ph_id := ph_id p; ph_filepath := Some filepath; ph_filename := Some (basename filepath);
     ph_display_name := ph_display_name p; ph_description := ph_description p;
     ph_uploaded_at := ph_uploaded_at p; ph_uploaded_by := ph_uploaded_by p;
     ph_project_id := Some general_id |}.

(** The path the loop body records for [ph] when it runs in the state
    [st]. *)
Definition destination (env : Env) (slug : string) (st : Loop) (ph : Photo) : string :=
  let old_fp := old_fp_of slug ph in
  let named := old_name_of env old_fp ph (l_reads st) in
  (try_move env old_fp named.1 (fs (l_world st)) named.2).1.1.

(** The loop of [admin_delete_project] after the first [i] photos of
    its snapshot. *)
Definition relocation_state (env : Env) (general_id : Z) (slug : string)
    (snapshot : list Photo) (w : World) (i : nat) : Loop :=
  fold_left (relocate_photo env general_id slug) (take i snapshot)
    {| l_world := set_fs (mkdir "general" (fs w)) w; l_reads := 0 |}.

(** A response that reports a failure: a redirect with one message,
    of a category other than [success]. *)
Definition refusal (r : Result) : Prop :=
  exists target message category,
    response r = Redirect target
    /\ flashed r = [(message, category)]
    /\ category <> "success".

(** ** Sample data *)

Module Sample.

Definition env : Env :=
  {| clock := fun n => 1700000000 + Z.of_nat n;
     replace_error := fun _ _ => None;
     os_error := fun src dst => "[Errno 21] Is a directory: " ++ src ++ " -> " ++ dst;
     unlink_error := fun _ => false;
     outside_exists := fun _ => false;
     replace_outside := fun _ _ f => f;
     sql_now := "2024-05-01 10:00:00";
     generate_password_hash := fun s => "hash:" ++ s |}.

(** An environment in which every [replace] raises. *)
Definition failing_env : Env :=
  {| clock := clock env;
     replace_error := fun _ _ => Some "[Errno 13] Permission denied";
     os_error := os_error env;
     unlink_error := fun _ => true;
     outside_exists := outside_exists env;
     replace_outside := replace_outside env;
     sql_now := sql_now env;
     generate_password_hash := generate_password_hash env |}.

(** The number a text of digits stands for, zeros in front allowed. *)
Fixpoint digits_value (acc : Z) (l : Text.chars) : option Z :=
  match l with
  | [] => Some acc
  | c :: r => d ← Described.digit c; digits_value (10 * acc + d) r
  end.

Definition decimal (s : string) : option Z :=
  match Text.of_string s with
  | [] => None
  | l => digits_value 0 l
  end.

(** A text of digits, with [.0] after it or not. *)
Definition decimal_point_zero (s : string) : option Z :=
  match Text.after_last "." (Text.of_string s) with
  | Some ["0"%char] => decimal (substring 0 (String.length s - 2) s)
  | Some _ => None
  | None => decimal s
  end.

(** Stand-ins for the library functions, with the values of the
    libraries on the texts used below. *)
Definition safe_name : Werkzeug :=
  fun s => Text.to_string (Text.sub_space_runs false (Text.of_string s)).
Definition first_ten : SQLite :=
  {| sql_date := fun s => Some (substring 0 10 s);
     sql_integer := decimal_point_zero |}.
Definition digits_only : Builtins (H := first_ten).
Proof.
  refine {| py_int := decimal |}.
  intros s i j. cbn [sql_integer first_ten]. unfold decimal_point_zero.
  assert (forall l acc, digits_value acc l = Some j -> Text.after_last "." l = None) as Hdigits.
  { induction l as [|c l IH]; intros acc; [reflexivity|]. cbn [digits_value Text.after_last].
    unfold Described.digit, Text.in_range.
    destruct (N.leb_spec 48 (Text.code c)); [|discriminate].
    destruct (N.leb_spec (Text.code c) 57); [|discriminate].
    cbn [andb mbind option_bind]. intros Hl. rewrite (IH _ Hl).
    unfold Text.is_char. destruct (N.eqb_spec (Text.code ".") (Text.code c)) as [E|]; [|done].
    rewrite <- E in *. cbn in *. lia. }
  intros Hi Hj. assert (Text.after_last "." (Text.of_string s) = None) as Hnone.
  { revert Hj. unfold decimal. destruct (Text.of_string s) as [|c l] eqn:E; [done|].
    apply Hdigits. }
  rewrite Hnone in Hi. congruence.
Defined.

Definition admin : User :=
  {| u_id := 1; u_username := "admin"; u_password_hash := "hash:admin123"; u_is_admin := true |}.

Definition reader : User :=
  {| u_id := 2; u_username := "ana"; u_password_hash := "hash:ana"; u_is_admin := false |}.

Definition general : Project :=
  {| pr_id := 1; pr_name := "General"; pr_slug := "general";
     pr_created_at := "2024-01-01 00:00:00";
     pr_description := Some "Proyecto por defecto"; pr_status := "pendiente" |}.

Definition roof : Project :=
  {| pr_id := 2; pr_name := "Roof A"; pr_slug := "roof_a";
     pr_created_at := "2024-02-01 00:00:00";
     pr_description := Some ""; pr_status := "pendiente" |}.

Definition panel : Photo :=
  {| ph_id := 1; ph_filepath := Some "roof_a/panel_1.jpg"; ph_filename := Some "panel_1.jpg";
     ph_display_name := "Panel 1"; ph_description := Some "north side";
     ph_uploaded_at := "2024-03-01 09:30:00"; ph_uploaded_by := Some 2;
     ph_project_id := Some 2 |}.

Definition gutter : Photo :=
  {| ph_id := 2; ph_filepath := Some "roof_a/gutter.jpg"; ph_filename := Some "gutter.jpg";
     ph_display_name := "Gutter"; ph_description := None;
     ph_uploaded_at := "2024-03-02 11:00:00"; ph_uploaded_by := Some 1;
     ph_project_id := Some 2 |}.

Definition database : DB :=
  {| users := [admin; reader]; projects := [general; roof]; photos := [panel; gutter];
     seq_users := 2; seq_projects := 2; seq_photos := 2 |}.

Definition tree : FS :=
  {| files := {[ "roof_a/panel_1.jpg" := "JPEG-1"; "roof_a/gutter.jpg" := "JPEG-2" ]};
     dirs := {[ "general"; "roof_a" ]} |}.

Definition store : World := {| db := database; fs := tree |}.

(** The same rows, with the files gone from the tree. *)
Definition store_without_files : World :=
  {| db := database; fs := {| files := ∅; dirs := dirs tree |} |}.

(** A row of project [roof_a] whose path lies under [general]: what an
    edit that changed the project, made while its file was missing,
    leaves behind. *)
Definition stray : Photo :=
  {| ph_id := 3; ph_filepath := Some "general/stray.jpg"; ph_filename := Some "stray.jpg";
     ph_display_name := "Stray"; ph_description := None;
     ph_uploaded_at := "2024-03-03 08:00:00"; ph_uploaded_by := Some 1;
     ph_project_id := Some 2 |}.

(** A row whose path ends in a blank, and a row whose file name
    holds a slash. *)
Definition spaced : Photo :=
  {| ph_id := 7; ph_filepath := Some "roof_a/spaced.jpg "; ph_filename := Some "spaced.jpg";
     ph_display_name := "Spaced"; ph_description := None;
     ph_uploaded_at := "2024-03-07 08:00:00"; ph_uploaded_by := Some 1;
     ph_project_id := Some 2 |}.

Definition nested : Photo :=
  {| ph_id := 8; ph_filepath := Some "roof_a/x/nested.jpg"; ph_filename := Some "x/nested.jpg";
     ph_display_name := "Nested"; ph_description := None;
     ph_uploaded_at := "2024-03-08 08:00:00"; ph_uploaded_by := Some 1;
     ph_project_id := Some 2 |}.

Definition store_out_of_step : World :=
  {| db := set_photos [panel; gutter; stray; spaced; nested] database; fs := tree |}.

(** A row whose path names the directory of its project. *)
Definition folder : Photo :=
  {| ph_id := 4; ph_filepath := Some "roof_a/"; ph_filename := Some "";
     ph_display_name := "Folder"; ph_description := None;
     ph_uploaded_at := "2024-03-04 08:00:00"; ph_uploaded_by := Some 1;
     ph_project_id := Some 2 |}.

Definition store_with_folder : World :=
  {| db := set_photos [folder] database; fs := tree |}.

(** Rows with a letter outside ASCII and with a NUL character in
    their names: [École], whose first letter has the code 201, and
    [a], NUL, [b]. *)
Definition ecole : Photo :=
  {| ph_id := 5; ph_filepath := Some "general/ecole.jpg"; ph_filename := Some "ecole.jpg";
     ph_display_name := String "201" "cole"; ph_description := None;
     ph_uploaded_at := "2024-03-05 08:00:00"; ph_uploaded_by := Some 1;
     ph_project_id := Some 1 |}.

Definition cut : Photo :=
  {| ph_id := 6; ph_filepath := Some "general/cut.jpg"; ph_filename := Some "cut.jpg";
     ph_display_name := String "a" (String "000" "b"); ph_description := None;
     ph_uploaded_at := "2024-03-06 08:00:00"; ph_uploaded_by := Some 1;
     ph_project_id := Some 1 |}.

Definition odd_names : DB := set_photos [ecole; cut] database.

(** A request with a text query only, and the filters it stands for. *)
Definition text_query (q : string) : Filters :=
  {| arg_q := q; arg_project_id := ""; arg_date_from := ""; arg_date_to := "" |}.

Definition by_text_only (q : string) : Described.Query :=
  {| Described.by_text := Some q; Described.by_project := None;
     Described.day_from := None; Described.day_to := None |}.

(** The store of a first start: no row, no file. *)
Definition blank : World :=
  {| db := {| users := []; projects := []; photos := [];
              seq_users := 0; seq_projects := 0; seq_photos := 0 |};
     fs := {| files := ∅; dirs := ∅ |} |}.

Definition project_form (name : string) : ProjectForm :=
  {| project_name := name; project_description := ""; project_status := None |}.

End Sample.

(** ** Sessions and accounts *)

(** [werkzeug.security.check_password_hash(pwhash, password)] *)
Class Passwords := check_password_hash : string -> string -> bool.

(** The bytes of [instance/app.db] when it holds the database [d]. *)
Class Storage := db_file : DB -> string.

(** [load_user(user_id)]: the principal of a request is read from the
    [users] table each time. *)
Definition load_user (d : DB) (user_id : Z) : option User := user_by_id d user_id.

(** [current_user] for a session that holds [session] as its user id
    ([None]: no one is logged in). *)
Definition current_user_of (d : DB) (session : option Z) : option User :=
  session ≫= load_user d.

(** [SELECT * FROM users WHERE username = ?], [fetchone] *)
Definition user_by_name (d : DB) (name : string) : option User :=
  List.find (fun u => String.eqb (u_username u) name) (users d).

(** What the handlers outside the photo and project pages answer with,
    besides the responses above. *)
Inductive Reply :=
| Plain (r : Response)
| To_change_password
| Render_login
| Render_change_password
| Render_admin (users : list (Z * string * bool)) (projects : list Project)
| Send_backup (entries : list (string * string))
| Send_from_uploads (filepath : string).

(** The answer to a request: the reply, the store, the messages flashed
    and the user id the session holds afterwards. *)
Record Outcome := {
  out_reply : Reply;
  out_world : World;
  out_flashed : list Flash;
  out_session : option Z
}.

Definition outcome (r : Reply) (w : World) (fl : list Flash) (session : option Z) : Outcome :=
  {| out_reply := r; out_world := w; out_flashed := fl; out_session := session |}.

(** A handler that does not touch the session. *)
Definition plain (session : option Z) (r : Result) : Outcome :=
  outcome (Plain (response r)) (world r) (flashed r) session.

(** [home] *)
Definition home (session : option Z) (w : World) : Outcome :=
  match current_user_of (db w) session with
  | Some _ => outcome (Plain (Redirect ep_dashboard)) w [] session
  | None => outcome (Plain (Redirect ep_login)) w [] session
  end.

(** [login]; [form] is [None] for a GET request, and else holds the
    fields [username] and [password]. *)
Definition login `{Passwords} (form : option (string * string)) (session : option Z)
    (w : World) : Outcome :=
  match form with
  | None => outcome Render_login w [] session
  | Some (username, password) =>
      let username := strip username in
      let refused := outcome (Plain (Redirect ep_login)) w
                       [("Usuario o contraseña incorrectos.", "error")] session in
      match user_by_name (db w) username with
      | None => refused
      | Some row =>
          if negb (check_password_hash (u_password_hash row) password)
          then refused
          else outcome (Plain (Redirect ep_dashboard)) w [] (Some (u_id row))
      end
  end.

(** [logout] *)
Definition logout (session : option Z) (w : World) : Outcome :=
  match login_gate (current_user_of (db w) session) w with
  | inl r => plain session r
  | inr _ => outcome (Plain (Redirect ep_login)) w [] None
  end.

(** [UPDATE users SET password_hash = ? WHERE id = ?] *)
Definition set_password (user_id : Z) (hash : string) (u : User) : User :=
  if u_id u =? user_id
  then {| u_id := u_id u; u_username := u_username u; u_password_hash := hash;
          u_is_admin := u_is_admin u |}
  else u.

(** [change_password]; the form holds [current_password],
    [new_password] and [new_password2]. *)
Definition change_password `{Passwords} (env : Env) (form : option (string * string * string))
    (session : option Z) (w : World) : Outcome :=
  match login_gate (current_user_of (db w) session) w with
  | inl r => plain session r
  | inr current_user =>
      match form with
      | None => outcome Render_change_password w [] session
      | Some (current_pw, new_pw, new_pw2) =>
          if negb (String.eqb new_pw new_pw2)
          then outcome To_change_password w
                 [("Las contraseñas nuevas no coinciden.", "error")] session
          else
            let refused := outcome To_change_password w
                             [("Tu contraseña actual es incorrecta.", "error")] session in
            match user_by_id (db w) (u_id current_user) with
            | None => refused
            | Some row =>
                if negb (check_password_hash (u_password_hash row) current_pw)
                then refused
                else
                  let d := set_users
                             (map (set_password (u_id current_user)
                                     (generate_password_hash env new_pw))
                                (users (db w)))
                             (db w) in
                  outcome (Plain (Redirect ep_dashboard)) (set_db d w)
                    [("Contraseña actualizada.", "success")] session
            end
      end
  end.

(** [ORDER BY id DESC] on a table with the key [key]. *)
Definition key_desc {A} (key : A -> Z) (a b : A) : Prop := key b <= key a.

#[global] Instance key_desc_dec {A} (key : A -> Z) a b : Decision (key_desc key a b).
Proof. unfold key_desc. apply _. Defined.

(** [admin_panel]: [SELECT id, username, is_admin FROM users] and the
    rows of [projects], both by descending id. *)
Definition admin_panel_view (_ : User) (w : World) : Reply :=
  Render_admin
    (merge_sort (key_desc (fun r => r.1.1))
       (map (fun u => (u_id u, u_username u, u_is_admin u)) (users (db w))))
    (merge_sort (key_desc pr_id) (projects (db w))).

Definition admin_panel (session : option Z) (w : World) : Outcome :=
  match admin_gate (current_user_of (db w) session) w with
  | inl r => plain session r
  | inr u => outcome (admin_panel_view u w) w [] session
  end.

Record UserForm := {
  uf_username : string;
  uf_password : string;
  (** the checkbox [is_admin]; [None] when it is not sent *)
  uf_is_admin : option string
}.

Definition create_user_view (env : Env) (f : UserForm) (_ : User) (w : World) : Result :=
  let username := strip (uf_username f) in
  let password := uf_password f in
  let is_admin := bool_decide (uf_is_admin f = Some "on") in
  if is_empty username || is_empty password
  then reply (Redirect ep_admin_panel) w [("Usuario y contraseña son obligatorios.", "error")]
  else
    match insert_user username (generate_password_hash env password) is_admin (db w) with
    | Some d => reply (Redirect ep_admin_panel) (set_db d w) [("Usuario creado.", "success")]
    | None => reply (Redirect ep_admin_panel) w [("Ese usuario ya existe.", "error")]
    end.

Definition admin_create_user (env : Env) (current_user : option User) (f : UserForm)
    : World -> Result :=
  admin_required current_user (create_user_view env f).

(** ** Backup and file serving *)

(** The entries [download_backup] writes to the archive, as pairs of
    [arcname] and content: the database file, then each regular file
    under [UPLOADS_ROOT].  The order [rglob] visits the files in is the
    file system's; the model takes the order of the map. *)
Definition backup_entries `{Storage} (w : World) : list (string * string) :=
  ("backup/app.db", db_file (db w))
  :: map (fun e => ("backup/uploads/" ++ e.1, e.2)) (map_to_list (files (fs w))).

Definition download_backup `{Storage} (session : option Z) (w : World) : Outcome :=
  match admin_gate (current_user_of (db w) session) w with
  | inl r => plain session r
  | inr _ => outcome (Send_backup (backup_entries w)) w [] session
  end.

(** [uploaded_file]: the path goes to [send_from_directory]. *)
Definition uploaded_file (filepath : string) (session : option Z) (w : World) : Outcome :=
  match login_gate (current_user_of (db w) session) w with
  | inl r => plain session r
  | inr _ => outcome (Send_from_uploads filepath) w [] session
  end.

(** [allowed_file(filename)]: [rsplit(".", 1)[1]] is the text after the
    last dot. *)
Definition allowed_file (filename : string) : bool :=
  match Text.after_last "." (Text.of_string filename) with
  | Some t => allowed_ext (Text.to_string (Text.lower t))
  | None => false
  end.

(** ** The routes *)

(** A request the URL map accepts: a route with one of its methods and
    the fields the handler reads. *)
Inductive Request :=
| Get_home
| Get_login
| Post_login (username password : string)
| Get_logout
| Get_change_password
| Post_change_password (current_password new_password new_password2 : string)
| Get_admin
| Post_create_user (f : UserForm)
| Post_delete_user (user_id : Z)
| Post_create_project (f : ProjectForm)
| Any_edit_project (project_id : Z) (form : option ProjectForm)
| Post_delete_project (project_id : Z)
| Get_backup
| Get_dashboard (a : Filters)
| Any_upload (form : option UploadForm)
| Any_edit_photo (photo_id : Z) (form : option EditForm)
| Post_delete_photo (photo_id : Z)
| Get_uploaded_file (filepath : string).

(** The application on one request, for the client whose session holds
    [session].  [None]: the loop of [admin_create_project] did not end
    within [fuel] tests. *)
Definition serve `{Werkzeug} `{SQLite} `{Passwords} `{Storage} `{!Builtins} (env : Env) (fuel : nat)
    (session : option Z) (req : Request) (w : World) : option Outcome :=
  let cu := current_user_of (db w) session in
  match req with
  | Get_home => Some (home session w)
  | Get_login => Some (login None session w)
  | Post_login username password => Some (login (Some (username, password)) session w)
  | Get_logout => Some (logout session w)
  | Get_change_password => Some (change_password env None session w)
  | Post_change_password c n n2 => Some (change_password env (Some (c, n, n2)) session w)
  | Get_admin => Some (admin_panel session w)
  | Post_create_user f => Some (plain session (admin_create_user env cu f w))
  | Post_delete_user i => Some (plain session (admin_delete_user cu i w))
  | Post_create_project f => plain session <$> admin_create_project env fuel cu f w
  | Any_edit_project i form => Some (plain session (admin_edit_project cu i form w))
  | Post_delete_project i => Some (plain session (admin_delete_project env cu i w))
  | Get_backup => Some (download_backup session w)
  | Get_dashboard a => Some (plain session (dashboard cu a w))
  | Any_upload form => Some (plain session (upload env cu form w))
  | Any_edit_photo i form => Some (plain session (edit_photo env cu i form w))
  | Post_delete_photo i => Some (plain session (delete_photo env cu i w))
  | Get_uploaded_file filepath => Some (uploaded_file filepath session w)
  end.

(** ** What the tables keep *)

(** The row the [UPDATE] of [admin_edit_project] leaves of [p]. *)
Definition renamed (i : Z) (name description status : string) (p : Project) : Project :=
  if pr_id p =? i
  then {| pr_id := pr_id p; pr_name := name; pr_slug := pr_slug p;
          pr_created_at := pr_created_at p; pr_description := Some description;
          pr_status := status |}
  else p.

(** The constraints of the schema ([PRIMARY KEY], [UNIQUE]) and what
    the handlers keep beside them: the default project and an
    administrator are there, and a photo refers to a project that is
    there and to an owner who is there, if to any. *)
Record consistent (d : DB) : Prop := {
  users_key : NoDup (map u_id (users d));
  projects_key : NoDup (map pr_id (projects d));
  photos_key : NoDup (map ph_id (photos d));
  usernames_unique : NoDup (map u_username (users d));
  names_unique : NoDup (map pr_name (projects d));
  slugs_unique : NoDup (map pr_slug (projects d));
  general_there : slug_taken d "general" = true;
  admin_there : existsb u_is_admin (users d) = true;
  project_there : forall p, p ∈ photos d ->
    exists i pr, ph_project_id p = Some i /\ project_by_id d i = Some pr;
  owner_there : forall p i, p ∈ photos d -> ph_uploaded_by p = Some i ->
    exists u, user_by_id d i = Some u
}.

(** The stores a run of the application passes through: start-up on a
    store, then requests from clients with any session, and new starts
    of the application. *)
Inductive reached `{Werkzeug} `{SQLite} `{Passwords} `{Storage} `{!Builtins} (w0 : World) : World -> Prop :=
| reached_start env w :
    ensure_admin_and_default_project env w0 = Some w -> reached w0 w
| reached_serve env fuel session req w out :
    reached w0 w -> serve env fuel session req w = Some out -> reached w0 (out_world out)
| reached_restart env w w' :
    reached w0 w -> ensure_admin_and_default_project env w = Some w' -> reached w0 w'.

(** The routes open to a client that is not logged in. *)
Definition public (req : Request) : bool :=
  match req with
  | Get_home | Get_login | Post_login _ _ => true
  | _ => false
  end.

(** The routes under [admin_required] or [upload_required]. *)
Definition admin_only (req : Request) : bool :=
  match req with
  | Get_admin | Post_create_user _ | Post_delete_user _ | Post_create_project _
  | Any_edit_project _ _ | Post_delete_project _ | Get_backup
  | Any_upload _ | Any_edit_photo _ _ | Post_delete_photo _ => true
  | _ => false
  end.

(** What a request may change of a user row it does not delete: the
    password hash, and that of the requester [i] alone. *)
Definition same_account (i : Z) (u u' : User) : Prop :=
  u_id u' = u_id u
  /\ u_username u' = u_username u
  /\ u_is_admin u' = u_is_admin u
  /\ (u_id u <> i -> u' = u).

(** What [edit_photo] may change of a photo row: nothing of another
    row, and of the row [i] neither the id, the upload time nor the
    owner. *)
Definition same_origin (i : Z) (p p' : Photo) : Prop :=
  ph_id p' = ph_id p
  /\ ph_uploaded_at p' = ph_uploaded_at p
  /\ ph_uploaded_by p' = ph_uploaded_by p
  /\ (ph_id p <> i -> p' = p).

(** What [admin_edit_project] may change of a project row: nothing of
    another row, and of the row [i] neither the id, the slug nor the
    creation time. *)
Definition same_place (i : Z) (p p' : Project) : Prop :=
  pr_id p' = pr_id p
  /\ pr_slug p' = pr_slug p
  /\ pr_created_at p' = pr_created_at p
  /\ (pr_id p <> i -> p' = p).

(** A slug that is one component of a path: not empty, and made of the
    characters [slugify] keeps. *)
Definition slug_safe (s : string) : Prop :=
  s <> "" /\ Forall (fun c => Text.slug_char c = true) (Text.of_string s).

Definition safe_slugs (d : DB) : Prop :=
  Forall (fun p => slug_safe (pr_slug p)) (projects d).

(** ** More sample data *)

Module Fixture.

(** Stand-ins for the password check and for the database file. *)
Definition check : Passwords := fun hash password => String.eqb hash ("hash:" ++ password).
Definition dump : Storage := fun d => "SQLite format 3".

Definition user_form : UserForm :=
  {| uf_username := " eva "; uf_password := "secret"; uf_is_admin := Some "on" |}.

Definition upload_form : UploadForm :=
  {| up_photo := Some ("IMG_0001.JPG", "JPEG-3"); up_display_name := " Ridge ";
     up_description := "east"; up_project_id := "2" |}.

(** A legacy row: no path, no project. *)
Definition legacy : Photo :=
  {| ph_id := 1; ph_filepath := None; ph_filename := Some "old.jpg";
     ph_display_name := "Old"; ph_description := None;
     ph_uploaded_at := "2023-01-01 00:00:00"; ph_uploaded_by := None;
     ph_project_id := None |}.

Definition legacy_store : World :=
  {| db := {| users := []; projects := []; photos := [legacy];
              seq_users := 0; seq_projects := 0; seq_photos := 1 |};
     fs := {| files := {[ "general/old.jpg" := "JPEG-0" ]}; dirs := ∅ |} |}.

(** The same upload with the project written [2.0]. *)
Definition upload_form_point_zero : UploadForm :=
  {| up_photo := up_photo upload_form; up_display_name := up_display_name upload_form;
     up_description := up_description upload_form; up_project_id := "2.0" |}.

(** Panel 1 goes to the default project under its name. *)
Definition move_form : EditForm :=
  {| ed_display_name := "Panel 1"; ed_description := "moved"; ed_project_id := "1" |}.

(** The same edit with the project written [1.0]. *)
Definition move_form_point_zero : EditForm :=
  {| ed_display_name := "Panel 1"; ed_description := "moved"; ed_project_id := "1.0" |}.

End Fixture.

(** * Properties *)

(** ** Text and paths *)

Section TextFacts.
Import Text.

Lemma to_of_string s : to_string (of_string s) = s.
Proof. apply string_of_list_ascii_of_string. Qed.

Lemma of_to_string l : of_string (to_string l) = l.
Proof. apply list_ascii_of_string_of_list_ascii. Qed.

Lemma length_to_string l : String.length (to_string l) = length l.
Proof. induction l as [|c l IH]; simpl; [reflexivity | by rewrite IH]. Qed.

Lemma to_string_inj l1 l2 : to_string l1 = to_string l2 -> l1 = l2.
Proof. intros E. by rewrite <- (of_to_string l1), E, of_to_string. Qed.

Lemma to_string_nil l : to_string l = "" -> l = [].
Proof. by destruct l. Qed.

Lemma is_empty_true s : is_empty s = true <-> s = "".
Proof. destruct s; simpl; split; congruence. Qed.

Lemma is_empty_to_string l : is_empty (to_string l) = is_nil l.
Proof. by destruct l. Qed.

Lemma is_char_eq a c : is_char a c = true <-> a = c.
Proof.
  unfold is_char, code. rewrite N.eqb_eq. split; [|by intros ->].
  intros E. by rewrite <- (ascii_N_embedding a), E, ascii_N_embedding.
Qed.

Lemma lower_char_space c : isspace (lower_char c) = isspace c.
Proof. destruct c as [[] [] [] [] [] [] [] []]; reflexivity. Qed.

Lemma lstrip_by_map (p : ascii -> bool) (g : ascii -> ascii) l :
  (forall c, p (g c) = p c) -> lstrip_by p (map g l) = map g (lstrip_by p l).
Proof.
  intros Hg. induction l as [|c l IH]; simpl; [reflexivity|].
  rewrite Hg. by destruct (p c).
Qed.

Lemma rstrip_by_map (p : ascii -> bool) (g : ascii -> ascii) l :
  (forall c, p (g c) = p c) -> rstrip_by p (map g l) = map g (rstrip_by p l).
Proof.
  intros Hg. induction l as [|c l IH]; simpl; [reflexivity|].
  rewrite IH, Hg. destruct (rstrip_by p l); simpl; [by destruct (p c) | reflexivity].
Qed.

Lemma lower_strip l : lower (strip l) = strip (lower l).
Proof.
  unfold lower, strip, strip_by.
  rewrite lstrip_by_map, rstrip_by_map; auto using lower_char_space.
Qed.

(** Stripping a text that has nothing to strip. *)
Lemma lstrip_by_id p c l : p c = false -> lstrip_by p (c :: l) = c :: l.
Proof. simpl. by intros ->. Qed.

Lemma rstrip_by_cons p c l :
  p c = false -> rstrip_by p (c :: l) = c :: rstrip_by p l.
Proof. simpl. intros ->. by destruct (rstrip_by p l). Qed.

Lemma Forall_slug_char_filter l :
  Forall (fun c => slug_char c = true) (sub_non_slug l).
Proof.
  unfold sub_non_slug. apply Forall_forall. intros c Hc.
  apply list_elem_of_In, filter_In in Hc. tauto.
Qed.

Lemma of_string_app (s t : string) : of_string (s ++ t) = (of_string s ++ of_string t)%list.
Proof.
  unfold of_string.
  induction s as [|c s IH]; simpl; [reflexivity | by rewrite IH].
Qed.

Lemma split_by_none p l : forallb (fun c => negb (p c)) l = true -> split_by p l = [l].
Proof.
  induction l as [|c l IH]; [done|]. cbn [forallb split_by].
  intros [Hc Hl]%andb_true_iff. apply negb_true_iff in Hc. by rewrite Hc, IH.
Qed.

Lemma after_last_free a l t : after_last a l = Some t -> forallb (fun c => negb (is_char a c)) t = true.
Proof.
  revert t. induction l as [|c l IH]; intros t; [discriminate|]. cbn [after_last].
  destruct (after_last a l) as [t'|] eqn:E.
  - intros [= <-]. by apply IH.
  - destruct (is_char a c); [|discriminate]. intros [= <-].
    clear IH. induction l as [|d l IH]; [done|]. cbn [after_last] in E.
    destruct (after_last a l) as [t'|]; [discriminate|].
    destruct (is_char a d) eqn:Hd; [discriminate|]. cbn [forallb]. rewrite Hd. by apply IH.
Qed.

Lemma pretty_N_char_slug d : Text.slug_char (pretty_N_char d) = true.
Proof. unfold pretty_N_char. by repeat case_match. Qed.

Lemma pretty_N_go_slug x s :
  Forall (fun c => Text.slug_char c = true) (Text.of_string s) ->
  Forall (fun c => Text.slug_char c = true) (Text.of_string (pretty_N_go x s)).
Proof.
  revert s. induction (N.lt_wf_0 x) as [x _ IH]; intros s Hs.
  assert (x = 0 \/ 0 < x)%N as [->|Hx] by lia; [by rewrite pretty_N_go_0|].
  rewrite pretty_N_go_step by done. apply IH; [by apply N.div_lt|].
  unfold Text.of_string. cbn [list_ascii_of_string].
  constructor; [apply pretty_N_char_slug | exact Hs].
Qed.

(** The decimal text of a number holds digits and, at most, a sign. *)
Lemma pretty_Z_slug (i : Z) :
  Forall (fun c => Text.slug_char c = true) (Text.of_string (pretty i)).
Proof.
  assert (forall x : positive,
            Forall (fun c => Text.slug_char c = true) (Text.of_string (pretty x))) as Hpos.
  { intros x. unfold pretty, pretty_positive, pretty, pretty_N.
    destruct (decide (N.pos x = 0%N)); [discriminate|]. apply pretty_N_go_slug. constructor. }
  destruct i as [|x|x]; unfold pretty, pretty_Z.
  - repeat constructor.
  - apply Hpos.
  - rewrite of_string_app. apply Forall_app. split; [repeat constructor | apply Hpos].
Qed.

End TextFacts.

(** The functions on values [pathlib], [str] and [re] give. *)
Example extension_samples :
  map extension ["x.tar.GIF"; ".png"; "a/b.png/"; "..png"; "foo."; "a/."; "a/.."; "a.b/c"; ""]
  = ["gif"; ""; "png"; "png"; ""; ""; ""; ""; ""].
Proof. reflexivity. Qed.

Example basename_samples :
  map basename ["roof_a/panel_1.jpg"; "panel_1.jpg"; "a/b/"; ""] = ["panel_1.jpg"; "panel_1.jpg"; ""; ""].
Proof. reflexivity. Qed.

Example slugify_samples :
  map slugify ["Roof A"; "Roof A!!"; "  Planta   Baja-2 "; "a-b"; "!!!"; ""]
  = ["roof_a"; "roof_a"; "planta_baja-2"; "a-b"; "proyecto"; "proyecto"].
Proof. reflexivity. Qed.

Section LetterCase.

Lemma lower_char_idem c : Text.lower_char (Text.lower_char c) = Text.lower_char c.
Proof. destruct c as [[] [] [] [] [] [] [] []]; reflexivity. Qed.

Lemma lower_char_dot c : Text.is_char "." (Text.lower_char c) = Text.is_char "." c.
Proof. destruct c as [[] [] [] [] [] [] [] []]; reflexivity. Qed.

Lemma lower_char_slash c : Text.is_char "/" (Text.lower_char c) = Text.is_char "/" c.
Proof. destruct c as [[] [] [] [] [] [] [] []]; reflexivity. Qed.

Lemma lower_idem l : Text.lower (Text.lower l) = Text.lower l.
Proof.
  unfold Text.lower. rewrite map_map. apply map_ext. intros c. apply lower_char_idem.
Qed.

Lemma split_by_map (p : ascii -> bool) (g : ascii -> ascii) l :
  (forall c, p (g c) = p c) ->
  Text.split_by p (map g l) = map (map g) (Text.split_by p l).
Proof.
  intros Hg. induction l as [|c l IH]; [reflexivity|].
  cbn [map Text.split_by]. rewrite Hg, IH.
  destruct (p c); [reflexivity|]. by destruct (Text.split_by p l).
Qed.

Lemma after_last_map (a : ascii) (g : ascii -> ascii) l :
  (forall c, Text.is_char a (g c) = Text.is_char a c) ->
  Text.after_last a (map g l) = map g <$> Text.after_last a l.
Proof.
  intros Hg. induction l as [|c l IH]; [reflexivity|].
  cbn [map Text.after_last]. rewrite IH, Hg.
  destruct (Text.after_last a l); [reflexivity|]. by destruct (Text.is_char a c).
Qed.

Lemma last_map {A B} (h : A -> B) (l : list A) (d : A) :
  List.last (map h l) (h d) = h (List.last l d).
Proof.
  induction l as [|x l IH]; [reflexivity|].
  cbn [map]. destruct l as [|y l]; [reflexivity|]. exact IH.
Qed.

Lemma filter_map_same {A} (keep : A -> bool) (h : A -> A) (l : list A) :
  (forall x, keep (h x) = keep x) ->
  List.filter keep (map h l) = map h (List.filter keep l).
Proof.
  intros Hk. induction l as [|x l IH]; [reflexivity|].
  cbn [map List.filter]. rewrite Hk, IH. by destruct (keep x).
Qed.

Lemma name_lower l : Paths.name (Text.lower l) = Text.lower (Paths.name l).
Proof.
  unfold Paths.name, Text.lower.
  rewrite split_by_map by apply lower_char_slash.
  rewrite filter_map_same.
  - apply (last_map (map Text.lower_char) _ []).
  - intros [|c [|d w]]; cbn [map Text.is_nil Paths.is_dot orb]; [done| |done].
    by rewrite lower_char_dot.
Qed.

Lemma suffix_lower l : Paths.suffix (Text.lower l) = Text.lower (Paths.suffix l).
Proof.
  unfold Paths.suffix. rewrite name_lower. unfold Text.lower at 1.
  rewrite after_last_map by apply lower_char_dot.
  destruct (Text.after_last "." (Paths.name l)) as [t|]; [|reflexivity].
  cbn [fmap option_fmap option_map]. unfold Text.lower. rewrite !length_map.
  assert (Text.is_nil (map Text.lower_char t) = Text.is_nil t) as -> by (by destruct t).
  by destruct (_ && _).
Qed.

(** The extension does not depend on the letter case of the name. *)
Lemma extension_lower name : extension (lower name) = extension name.
Proof.
  unfold extension, lower. rewrite of_to_string, suffix_lower. by rewrite lower_idem.
Qed.

End LetterCase.

(** ** [slugify] *)

(** C10. For every input, [slugify] returns a text of one to sixty
    characters, each of them a lower-case letter, a digit, an underscore
    or a hyphen; and when the normal form of the input is empty the
    result is the fixed slug [proyecto]. *)
Theorem slugify_shape (name : string) :
  (1 <= String.length (slugify name) <= 60)%nat
  /\ Forall (fun c => Text.slug_char c = true) (Text.of_string (slugify name))
  /\ (slug_normal (Text.of_string name) = [] -> slugify name = "proyecto").
Proof.
  unfold slugify.
  pose proof (Forall_slug_char_filter
                (Text.sub_space_runs false (Text.lower (Text.strip (Text.of_string name))))) as Hall.
  fold (slug_normal (Text.of_string name)) in Hall.
  destruct (slug_normal (Text.of_string name)) as [|c n] eqn:E.
  - split; [simpl; lia|]. split; [|reflexivity].
    repeat constructor.
  - split; [|split; [|discriminate]].
    + rewrite length_to_string, length_take. cbn [length]. lia.
    + rewrite of_to_string. by apply Forall_take.
Qed.

Lemma slugify_shape_witness :
  slug_normal (Text.of_string "!!!") = [] /\ slugify "!!!" = "proyecto".
Proof.
  split; [reflexivity|].
  apply (slugify_shape "!!!"). reflexivity.
Defined.

Section SlugFacts.
Import Text Described.

Local Abbreviation nonnil := (fun w : chars => negb (is_nil w)).

Lemma words_space c l : isspace c = true -> words (c :: l) = words l.
Proof. unfold words. simpl. by intros ->. Qed.

Lemma split_by_cons p l : exists hd tl, split_by p l = hd :: tl.
Proof.
  induction l as [|c l (hd & tl & E)]; simpl; [by eexists _, _|].
  destruct (p c); [by eexists _, _|]. rewrite E. by eexists _, _.
Qed.

Lemma rstrip_nil_words l : rstrip_by isspace l = [] <-> words l = [].
Proof.
  induction l as [|c l IH]; [done|].
  destruct (isspace c) eqn:Ec.
  - rewrite words_space by done. simpl. rewrite Ec, <- IH.
    by destruct (rstrip_by isspace l).
  - rewrite rstrip_by_cons by done. unfold words. simpl. rewrite Ec.
    destruct (split_by_cons isspace l) as (hd & tl & ->). simpl.
    split; discriminate.
Qed.

(** The scanner of [re.sub] against the words of the text, in its two
    states. *)
Lemma sub_space_runs_words l :
  exists hd tl,
    split_by isspace l = hd :: tl
    /\ sub_space_runs false (rstrip_by isspace l)
       = (hd ++ match List.filter nonnil tl with
                | [] => []
                | _ :: _ => "_"%char :: join "_" (List.filter nonnil tl)
                end)%list
    /\ sub_space_runs true (rstrip_by isspace l) = join "_" (words l).
Proof.
  induction l as [|c l (hd & tl & E & G & H)].
  - by exists [], [].
  - destruct (isspace c) eqn:Ec.
    + exists [], (hd :: tl). split; [simpl; by rewrite Ec, E|].
      rewrite words_space by done.
      assert (List.filter nonnil (hd :: tl) = words l) as -> by (by unfold words; rewrite E).
      simpl rstrip_by. destruct (rstrip_by isspace l) as [|x r] eqn:Er.
      * apply rstrip_nil_words in Er. rewrite Ec, Er. done.
      * destruct (words l) as [|w ws] eqn:Ew.
        { apply rstrip_nil_words in Ew. congruence. }
        cbn [sub_space_runs]. rewrite Ec. cbn [sub_space_runs] in H. rewrite H. done.
    + exists (c :: hd), tl. split; [simpl; by rewrite Ec, E|].
      rewrite rstrip_by_cons by done. simpl. rewrite Ec, G.
      split; [done|]. unfold words. simpl. rewrite Ec, E. simpl.
      by destruct (List.filter nonnil tl).
Qed.

Lemma sub_space_runs_lstrip l :
  sub_space_runs false (rstrip_by isspace (lstrip_by isspace l))
  = sub_space_runs true (rstrip_by isspace l).
Proof.
  induction l as [|c l IH]; [done|].
  destruct (isspace c) eqn:Ec.
  - simpl. rewrite Ec, IH.
    destruct (rstrip_by isspace l); simpl; by rewrite ?Ec.
  - rewrite lstrip_by_id, rstrip_by_cons by done. simpl. by rewrite Ec.
Qed.

Lemma sub_space_runs_strip l :
  sub_space_runs false (strip l) = join "_" (words l).
Proof.
  unfold strip, strip_by. rewrite sub_space_runs_lstrip.
  destruct (sub_space_runs_words l) as (hd & tl & _ & _ & H). exact H.
Qed.

Lemma slugify_amended name : slugify name = slug_amended name.
Proof.
  unfold slugify, slug_amended, slug_normal, sub_non_slug.
  rewrite lower_strip, sub_space_runs_strip.
  by destruct (List.filter _ _).
Qed.

End SlugFacts.

(** ** Creating a project *)

Section CreateProject.

Lemma length_append (s t : string) :
  String.length (s ++ t) = (String.length s + String.length t)%nat.
Proof. induction s as [|c s IH]; simpl; [reflexivity | by rewrite IH]. Qed.

Lemma suffixed_inj base i j : suffixed base i = suffixed base j -> i = j.
Proof.
  unfold suffixed. intros E.
  apply (inj (String.app base)), (inj (String.app "_")) in E.
  by apply (inj pretty) in E.
Qed.

Lemma suffixed_ne base i : suffixed base i <> base.
Proof.
  unfold suffixed. intros E. apply (f_equal String.length) in E.
  rewrite !length_append in E. simpl in E. lia.
Qed.

Lemma slug_taken_true d s :
  slug_taken d s = true <-> s ∈ map pr_slug (projects d).
Proof.
  unfold slug_taken, project_by_slug. rewrite list_elem_of_In, in_map_iff. split.
  - destruct (List.find _ _) as [p|] eqn:E; [|discriminate]. intros _.
    apply find_some in E as [Hp E]. apply String.eqb_eq in E. eauto.
  - intros (p & <- & Hp).
    destruct (List.find _ _) as [q|] eqn:E; [reflexivity|].
    apply (find_none _ _ E) in Hp. by rewrite String.eqb_refl in Hp.
Qed.

Lemma slug_taken_false d s :
  slug_taken d s = false <-> forall p, p ∈ projects d -> pr_slug p <> s.
Proof.
  rewrite <- not_true_iff_false, slug_taken_true, list_elem_of_In, in_map_iff. split.
  - intros H p Hp E. apply H. exists p. by rewrite <- list_elem_of_In.
  - intros H (p & E & Hp). apply (H p); [by apply list_elem_of_In | done].
Qed.

(** A loop that used up its fuel found every name it tried taken. *)
Lemma free_slug_none fuel d base slug i :
  free_slug (S fuel) d base slug i = None ->
  slug_taken d slug = true
  /\ forall j, i <= j < i + Z.of_nat fuel -> slug_taken d (suffixed base j) = true.
Proof.
  revert slug i. induction fuel as [|fuel IH]; intros slug i.
  - simpl. destruct (slug_taken d slug); [|discriminate]. intros _. split; [done | lia].
  - cbn [free_slug]. destruct (slug_taken d slug) eqn:E; [|discriminate]. intros H.
    apply IH in H as [H1 H2]. split; [done|]. intros j Hj.
    destruct (decide (j = i)) as [->|]; [done|]. apply H2. lia.
Qed.

(** The name the loop ends on is free, and it is the first free one
    of [slug], [base_i], [base_(i+1)], ... *)
Lemma free_slug_some fuel d base slug i s :
  free_slug fuel d base slug i = Some s ->
  slug_taken d s = false
  /\ ((slug_taken d slug = false /\ s = slug)
      \/ (slug_taken d slug = true
          /\ exists k, i <= k /\ s = suffixed base k
               /\ forall j, i <= j < k -> slug_taken d (suffixed base j) = true)).
Proof.
  revert slug i. induction fuel as [|fuel IH]; intros slug i; [discriminate|].
  cbn [free_slug]. destruct (slug_taken d slug) eqn:E.
  - intros H. apply IH in H as [Hs [[Hf ->]|(Ht & k & Hk & -> & Hj)]].
    + split; [done|]. right. split; [done|]. exists i. split; [lia|]. split; [done | lia].
    + split; [done|]. right. split; [done|]. exists k. split; [lia|]. split; [done|].
      intros j Hij. destruct (decide (j = i)) as [->|]; [done|]. apply Hj. lia.
  - intros [= <-]. split; [done|]. by left.
Qed.

(** The loop ends: among [base], [base_2], ..., one name for each row
    of the table and one more, some name is free. *)
Lemma free_slug_total d base :
  exists s, free_slug (S (length (projects d))) d base base 2 = Some s.
Proof.
  destruct (free_slug _ d base base 2) as [s|] eqn:E; [by exists s|]. exfalso.
  apply free_slug_none in E as [H0 H].
  set (n := length (projects d)) in *.
  set (tried := base :: map (suffixed base) (seqZ 2 (Z.of_nat n))).
  assert (NoDup tried) as Hnd.
  { constructor.
    - rewrite list_elem_of_In, in_map_iff. intros (j & E & _). by apply suffixed_ne in E.
    - apply (NoDup_fmap_2_strong (suffixed base)); [|apply NoDup_seqZ].
      intros ???? E. by apply suffixed_inj in E. }
  assert (forall x, x ∈ tried -> x ∈ map pr_slug (projects d)) as Hin.
  { intros x [->|Hx]%elem_of_cons; [by apply slug_taken_true|].
    apply list_elem_of_In, in_map_iff in Hx as (j & <- & Hj).
    apply slug_taken_true, H. apply list_elem_of_In, elem_of_seqZ in Hj. lia. }
  pose proof (submseteq_length _ _ (NoDup_submseteq _ _ Hnd Hin)) as L.
  unfold tried in L. cbn [length] in L.
  rewrite !length_map, length_seqZ in L. fold n in L. lia.
Qed.

End CreateProject.

Section CreateProjectView.

Lemma free_slug_fuel fuel fuel' d base slug i s :
  (fuel <= fuel')%nat ->
  free_slug fuel d base slug i = Some s -> free_slug fuel' d base slug i = Some s.
Proof.
  revert fuel' slug i. induction fuel as [|fuel IH]; intros fuel' slug i L; [discriminate|].
  destruct fuel' as [|fuel']; [lia|]. cbn [free_slug].
  destruct (slug_taken d slug); [|done]. apply IH. lia.
Qed.

Lemma insert_project_free env name slug description status d :
  existsb (fun p => String.eqb (pr_name p) name) (projects d) = false ->
  slug_taken d slug = false ->
  exists p,
    insert_project env name slug description status d
    = Some {| users := users d; projects := projects d ++ [p]; photos := photos d;
              seq_users := seq_users d; seq_projects := pr_id p;
              seq_photos := seq_photos d |}
    /\ pr_name p = name /\ pr_slug p = slug.
Proof.
  intros Hn Hs. unfold insert_project.
  destruct (existsb (fun p => _ || _) (projects d)) eqn:E.
  - apply existsb_exists in E as (p & Hp & [E|E]%orb_true_iff).
    + assert (existsb (fun p => String.eqb (pr_name p) name) (projects d) = true)
        by (apply existsb_exists; eauto). congruence.
    + apply String.eqb_eq in E. apply list_elem_of_In in Hp.
      by destruct (proj1 (slug_taken_false d slug) Hs p Hp).
  - eexists (Build_Project _ _ _ _ _ _). split; [reflexivity|]. done.
Qed.

End CreateProjectView.

(** C5 (as amended). The slug of a project name is the name lowercased,
    with its whitespace runs replaced by underscores, every character
    other than a lower-case letter, a digit, an underscore or a hyphen
    stripped, truncated to 60 characters, and [proyecto] when nothing is
    left.  A project created under a free name gets that slug when no
    project has it, and otherwise the first free one of [slug_2],
    [slug_3], ...; in both cases a slug no other project has. *)
Theorem create_project_slug (env : Env) (fuel : nat) (u : User) (f : ProjectForm) (w : World) :
  u_is_admin u = true ->
  is_empty (strip (project_name f)) = false ->
  existsb (fun p => String.eqb (pr_name p) (strip (project_name f))) (projects (db w)) = false ->
  (length (projects (db w)) < fuel)%nat ->
  let name := strip (project_name f) in
  exists r p,
    admin_create_project env fuel (Some u) f w = Some r
    /\ flashed r = [("Proyecto creado.", "success")]
    /\ projects (db (world r)) = (projects (db w) ++ [p])%list
    /\ pr_name p = name
    /\ slugify name = Described.slug_amended name
    /\ slug_taken (db w) (pr_slug p) = false
    /\ ((slug_taken (db w) (slugify name) = false /\ pr_slug p = slugify name)
        \/ (slug_taken (db w) (slugify name) = true
            /\ exists i, 2 <= i /\ pr_slug p = suffixed (slugify name) i
                 /\ forall j, 2 <= j < i ->
                      slug_taken (db w) (suffixed (slugify name) j) = true)).
Proof.
  intros Hadmin Hname Hfree Hfuel name.
  unfold admin_create_project, admin_gate, login_gate. rewrite Hadmin. cbn [negb].
  unfold create_project_view. rewrite Hname.
  destruct (free_slug_total (db w) (slugify (strip (project_name f)))) as [s Hs].
  apply (free_slug_fuel _ fuel) in Hs; [|lia]. rewrite Hs.
  apply free_slug_some in Hs as [Hs Hwhich].
  destruct (insert_project_free env (strip (project_name f)) s
              (strip (project_description f)) (status_of f) (db w) Hfree Hs)
    as (p & -> & Hp1 & Hp2).
  eexists _, p. split; [reflexivity|]. cbn.
  split; [done|]. split; [done|]. split; [done|].
  split; [apply slugify_amended|]. rewrite Hp2. split; [done|]. exact Hwhich.
Qed.

Lemma create_project_slug_witness :
  exists r p,
    admin_create_project Sample.env 3 (Some Sample.admin) (Sample.project_form "Roof A!!")
      Sample.store = Some r
    /\ projects (db (world r)) = [Sample.general; Sample.roof; p]
    /\ pr_name p = "Roof A!!"
    /\ pr_slug p = "roof_a_2".
Proof.
  destruct (create_project_slug Sample.env 3 Sample.admin (Sample.project_form "Roof A!!")
              Sample.store)
    as (r & p & Hr & _ & Hps & Hn & _ & _ & Hslug);
    [reflexivity | reflexivity | reflexivity | simpl; lia |].
  exists r, p. split; [exact Hr|]. split; [exact Hps|]. split; [exact Hn|].
  destruct Hslug as [[Hfalse _]|(_ & i & Hi & Hp & Hj)]; [discriminate Hfalse|].
  destruct (decide (i = 2)) as [->|Hne]; [exact Hp|].
  specialize (Hj 2 ltac:(lia)). discriminate Hj.
Defined.

(** C5 (as stated) fails: a hyphen is not alphanumeric, and the slug of
    a project named [a-b] keeps it. *)
Lemma create_project_slug_not_as_described :
  exists r,
    admin_create_project Sample.env 1 (Some Sample.admin) (Sample.project_form "a-b")
      Sample.blank = Some r
    /\ map pr_slug (projects (db (world r))) = ["a-b"]
    /\ Described.slug "a-b" = "ab".
Proof. eexists. split; [reflexivity|]. split; reflexivity. Qed.

(** ** Permissions *)

Lemma admin_gate_reader (u : User) (w : World) :
  u_is_admin u = false ->
  admin_gate (Some u) w
  = inl (reply (Redirect ep_dashboard) w [("Acceso solo para administradores.", "error")]).
Proof. unfold admin_gate, login_gate. by intros ->. Qed.

Lemma admin_gate_admin (u : User) (w : World) :
  u_is_admin u = true -> admin_gate (Some u) w = inr u.
Proof. unfold admin_gate, login_gate. by intros ->. Qed.

Lemma upload_gate_admin (u : User) (w : World) :
  u_is_admin u = true -> upload_gate (Some u) w = inr u.
Proof. unfold upload_gate, login_gate. by intros ->. Qed.

(** A gate that answers itself leaves the store alone and refuses. *)
Lemma admin_gate_refuses cu w r :
  admin_gate cu w = inl r -> world r = w /\ refusal r.
Proof.
  unfold admin_gate, login_gate, refusal.
  destruct cu as [u|]; [destruct (u_is_admin u)|]; intros [= <-]; simpl;
    (split; [done|]); eexists _, _, _; done.
Qed.

Lemma upload_gate_refuses cu w r :
  upload_gate cu w = inl r -> world r = w /\ refusal r.
Proof.
  unfold upload_gate, login_gate, refusal.
  destruct cu as [u|]; [destruct (u_is_admin u)|]; intros [= <-]; simpl;
    (split; [done|]); eexists _, _, _; done.
Qed.

(** C9. A request by a logged-in user who is not an administrator to
    upload, to edit a photo or to delete a photo is answered by a
    redirect to the listing with one error message, and leaves the
    database and the uploads tree as they were. *)
Theorem photo_mutation_needs_admin `{Werkzeug} `{SQLite} `{!Builtins} (env : Env) (u : User)
    (w : World)
    (up : option UploadForm) (photo_id : Z) (ed : option EditForm) :
  u_is_admin u = false ->
  (let r := upload env (Some u) up w in
   response r = Redirect ep_dashboard /\ world r = w
   /\ flashed r = [("No tienes permisos para subir imágenes.", "error")])
  /\ (let r := edit_photo env (Some u) photo_id ed w in
      response r = Redirect ep_dashboard /\ world r = w
      /\ flashed r = [("Acceso solo para administradores.", "error")])
  /\ (let r := delete_photo env (Some u) photo_id w in
      response r = Redirect ep_dashboard /\ world r = w
      /\ flashed r = [("Acceso solo para administradores.", "error")]).
Proof.
  intros Hu.
  unfold upload, edit_photo, delete_photo, upload_required, admin_required.
  rewrite admin_gate_reader by done.
  unfold upload_gate, login_gate. rewrite Hu. simpl. done.
Qed.

Lemma photo_mutation_needs_admin_witness :
  let up := {| up_photo := Some ("roof.png", "PNG"); up_display_name := "Roof";
               up_description := ""; up_project_id := "2" |} in
  let ed := {| ed_display_name := "Panel 2"; ed_description := ""; ed_project_id := "1" |} in
  u_is_admin Sample.reader = false
  /\ world (upload (H := Sample.safe_name) (H0 := Sample.first_ten) (H1 := Sample.digits_only)
              Sample.env (Some Sample.reader) (Some up) Sample.store)
     = Sample.store
  /\ world (edit_photo (H := Sample.safe_name) (H0 := Sample.first_ten)
              (H1 := Sample.digits_only) Sample.env (Some Sample.reader) 1 (Some ed)
              Sample.store) = Sample.store
  /\ world (delete_photo Sample.env (Some Sample.reader) 1 Sample.store) = Sample.store.
Proof.
  intros up ed. split; [reflexivity|].
  destruct (photo_mutation_needs_admin (H := Sample.safe_name) (H0 := Sample.first_ten)
              (H1 := Sample.digits_only) Sample.env Sample.reader
              Sample.store (Some up) 1 (Some ed)) as ((_ & H1 & _) & (_ & H2 & _) & (_ & H3 & _));
    [reflexivity|].
  split; [exact H1|]. split; [exact H2 | exact H3].
Defined.

(** ** Uploading *)

(** C7. An upload whose file name has an extension outside
    [png], [jpg], [jpeg], [webp] (the extension is the same for a name
    and for its lower-case form) is refused with
    one error message, whoever sends it and whatever the other fields
    are; the database and the uploads tree stay as they were.  When
    every other field is in order the message is the one about the
    format. *)
Theorem upload_rejects_extension `{Werkzeug} `{SQLite} `{!Builtins} (env : Env)
    (cu : option User) (f : UploadForm) (w : World) (name content : string) :
  up_photo f = Some (name, content) ->
  allowed_ext (extension name) = false ->
  let r := upload env cu (Some f) w in
  extension (lower name) = extension name
  /\ world r = w
  /\ refusal r
  /\ (forall u proj,
        cu = Some u -> u_is_admin u = true ->
        is_empty (strip (up_project_id f)) = false ->
        project_by_text (db w) (strip (up_project_id f)) = Some proj ->
        is_empty name = false ->
        is_empty (strip (up_display_name f)) = false ->
        response r = Redirect ep_upload
        /\ flashed r = [("Formato no permitido. Usa JPG/PNG/WEBP.", "error")]).
Proof.
  intros Hfile Hext r. subst r. split; [apply extension_lower|].
  unfold upload, upload_required.
  destruct (upload_gate cu w) as [r|u] eqn:Hgate.
  - destruct (upload_gate_refuses _ _ _ Hgate) as [Hw Hr]. simpl.
    split; [done|]. split; [done|].
    intros u proj -> Hu. by rewrite upload_gate_admin in Hgate.
  - unfold guarded, upload_view, refusal. rewrite Hfile, Hext.
    assert (forall t m, exists (target : Endpoint) (message category : string),
               Redirect t = Redirect target
               /\ [(m, "error")] = [(message, category)] /\ category <> "success") as Hrefusal
      by (intros; by eexists _, _, _).
    assert (forall (A B C : Prop), A -> B -> C -> A /\ B /\ C) as Hand by tauto.
    destruct (is_empty (strip (up_project_id f))) eqn:Epid;
      [apply Hand; [done | apply Hrefusal | intros; congruence]|].
    destruct (project_by_text (db w) (strip (up_project_id f))) as [proj|] eqn:Eproj;
      [|apply Hand; [done | apply Hrefusal | intros; congruence]].
    destruct (is_empty name) eqn:Ename;
      [apply Hand; [done | apply Hrefusal | intros; congruence]|].
    destruct (is_empty (strip (up_display_name f))) eqn:Edn;
      [apply Hand; [done | apply Hrefusal | intros; congruence]|].
    apply Hand; [done | apply Hrefusal | done].
Qed.

Lemma upload_rejects_extension_witness :
  let f := {| up_photo := Some ("foto.GIF", "GIF89a"); up_display_name := "Roof";
              up_description := ""; up_project_id := "2" |} in
  let r := upload (H := Sample.safe_name) (H0 := Sample.first_ten) (H1 := Sample.digits_only)
             Sample.env (Some Sample.admin) (Some f) Sample.store in
  extension "foto.GIF" = "gif"
  /\ world r = Sample.store
  /\ flashed r = [("Formato no permitido. Usa JPG/PNG/WEBP.", "error")].
Proof.
  intros f r. split; [reflexivity|].
  destruct (upload_rejects_extension (H := Sample.safe_name) (H0 := Sample.first_ten)
              (H1 := Sample.digits_only) Sample.env (Some Sample.admin) f
              Sample.store "foto.GIF" "GIF89a") as (_ & Hw & _ & Hmsg);
    [reflexivity | reflexivity |].
  split; [exact Hw|].
  apply (Hmsg Sample.admin Sample.roof); reflexivity.
Defined.

(** ** Deleting a user *)

Section DeleteUser.

Lemma null_owner_nulled user_id p : owner_nulled user_id p (null_owner user_id p).
Proof.
  unfold owner_nulled, same_but_owner, null_owner.
  case_bool_decide as E; simpl; [|done].
  split; [done|]. split; [done|]. intros Hne. by destruct Hne.
Qed.

Lemma Forall2_map_self {A B} (R : A -> B -> Prop) (g : A -> B) l :
  (forall x, R x (g x)) -> Forall2 R l (map g l).
Proof. intros HR. induction l as [|x l IH]; constructor; auto. Qed.

Lemma find_filter_out {A} (test : A -> bool) (l : list A) :
  List.find test (List.filter (fun x => negb (test x)) l) = None.
Proof.
  induction l as [|x l IH]; [done|]. simpl.
  destruct (test x) eqn:E; simpl; [done|]. by rewrite E.
Qed.

End DeleteUser.

(** C6. Deleting a user is refused, with an error message and the
    store unchanged, when the target is the requester's own account or
    an administrator while at most one administrator is left.  When an
    administrator deletes another account, the account goes, every
    photo row stays, and those the account owned have their owner set
    to [NULL]. *)
Theorem delete_user_rules (cu : User) (user_id : Z) (w : World) :
  let r := admin_delete_user (Some cu) user_id w in
  ((u_id cu = user_id
    \/ exists t, user_by_id (db w) user_id = Some t
         /\ u_is_admin t = true /\ (admins_count (db w) <= 1)%nat) ->
   world r = w /\ refusal r)
  /\ (u_is_admin cu = true -> u_id cu <> user_id ->
      forall t, user_by_id (db w) user_id = Some t ->
      (u_is_admin t = false \/ (1 < admins_count (db w))%nat) ->
      fs (world r) = fs w
      /\ user_by_id (db (world r)) user_id = None
      /\ Forall2 (owner_nulled user_id) (photos (db w)) (photos (db (world r)))
      /\ flashed r = [("Usuario '" ++ u_username t ++ "' eliminado.", "success")]).
Proof.
  intros r. subst r. unfold admin_delete_user, admin_required. split.
  - intros Hcase. destruct (u_is_admin cu) eqn:Hadmin.
    + rewrite admin_gate_admin by done. unfold guarded, delete_user_view, refusal.
      destruct Hcase as [->|(t & Ht & Hta & Hcount)].
      * rewrite Z.eqb_refl. simpl. split; [done|]. by eexists _, _, _.
      * destruct (u_id cu =? user_id); [simpl; split; [done|]; by eexists _, _, _|].
        rewrite Ht, Hta. apply Nat.leb_le in Hcount. rewrite Hcount. simpl.
        split; [done|]. by eexists _, _, _.
    + rewrite admin_gate_reader by done. simpl. split; [done|].
      unfold refusal. by eexists _, _, _.
  - intros Hadmin Hne t Ht Hok.
    rewrite admin_gate_admin by done. unfold guarded, delete_user_view.
    apply Z.eqb_neq in Hne. rewrite Hne, Ht.
    assert (u_is_admin t && (admins_count (db w) <=? 1)%nat = false) as ->.
    { destruct Hok as [->|Hc]; [done|].
      apply andb_false_iff. right. apply Nat.leb_gt. lia. }
    simpl. split; [done|]. split; [apply (find_filter_out (fun u => u_id u =? user_id))|].
    split; [|done]. apply Forall2_map_self, null_owner_nulled.
Qed.

Lemma delete_user_rules_witness :
  let own := admin_delete_user (Some Sample.admin) 1 Sample.store in
  let other := admin_delete_user (Some Sample.admin) 2 Sample.store in
  world own = Sample.store
  /\ map ph_uploaded_by (photos (db (world other))) = [None; Some 1]
  /\ map u_id (users (db (world other))) = [1].
Proof.
  intros own other.
  destruct (delete_user_rules Sample.admin 1 Sample.store) as [Hrefuse _].
  destruct (delete_user_rules Sample.admin 2 Sample.store) as [_ Hdelete].
  split; [apply Hrefuse; left; reflexivity|].
  destruct (Hdelete eq_refl ltac:(discriminate) Sample.reader eq_refl (or_introl eq_refl))
    as (_ & _ & _ & _).
  split; reflexivity.
Defined.

(** ** The default project *)

Section DefaultProject.

Lemma project_by_slug_slug d s p : project_by_slug d s = Some p -> pr_slug p = s.
Proof. intros E. apply find_some in E as [_ E]. by apply String.eqb_eq. Qed.

Lemma insert_user_projects username hash admin d d' :
  insert_user username hash admin d = Some d' -> projects d' = projects d.
Proof. unfold insert_user. destruct (existsb _ _); [discriminate|]. by intros [= <-]. Qed.

Lemma find_app_new {A} (test : A -> bool) l x :
  List.find test l = None -> test x = true -> List.find test (l ++ [x]) = Some x.
Proof.
  intros Hl Hx. induction l as [|y l IH]; simpl in *; [by rewrite Hx|].
  destruct (test y); [discriminate | auto].
Qed.

(** What start-up leaves in the [projects] table. *)
Lemma ensure_projects env w w' :
  ensure_admin_and_default_project env w = Some w' ->
  exists g,
    project_by_slug (db w') "general" = Some g
    /\ pr_slug g = "general"
    /\ (slug_taken (db w) "general" = true -> projects (db w') = projects (db w))
    /\ (slug_taken (db w) "general" = false ->
        pr_name g = "General" /\ projects (db w') = (projects (db w) ++ [g])%list).
Proof.
  unfold ensure_admin_and_default_project.
  destruct (if existsb u_is_admin (users (db w)) then Some (db w) else _) as [d1|] eqn:E1;
    [|discriminate]. cbn [mbind option_bind].
  assert (projects d1 = projects (db w)) as Hd1.
  { destruct (existsb u_is_admin (users (db w))); [by injection E1 as <-|].
    by apply insert_user_projects in E1. }
  assert (slug_taken d1 "general" = slug_taken (db w) "general") as Ht
    by (unfold slug_taken, project_by_slug; by rewrite Hd1).
  rewrite Ht.
  destruct (slug_taken (db w) "general") eqn:Htaken.
  - cbn [mbind option_bind].
    destruct (project_by_slug d1 "general") as [g|] eqn:Eg; [|discriminate].
    cbn [mbind option_bind]. intros [= <-]. exists g. cbn.
    split; [exact Eg|]. split; [by apply project_by_slug_slug in Eg|].
    split; [done | discriminate].
  - assert (List.find (fun p => String.eqb (pr_slug p) "general") (projects d1) = None) as Hnone.
    { unfold slug_taken, project_by_slug in Htaken. rewrite <- Hd1 in Htaken.
      by destruct (List.find _ _). }
    unfold insert_project. destruct (existsb _ (projects d1)); [discriminate|].
    cbn [mbind option_bind]. unfold project_by_slug at 1. cbn [projects].
    match goal with |- context [(projects d1 ++ [?x])%list] => set (g := x) end.
    rewrite (find_app_new _ _ g Hnone eq_refl). cbn [mbind option_bind].
    intros [= <-]. exists g. cbn.
    split; [by apply find_app_new|]. split; [done|]. split; [discriminate|].
    intros _. split; [done|]. by rewrite Hd1.
Qed.

Lemma ensure_first_start env w :
  users (db w) = [] -> projects (db w) = [] ->
  exists w', ensure_admin_and_default_project env w = Some w'.
Proof.
  intros Hu Hp. unfold ensure_admin_and_default_project, insert_user.
  rewrite Hu. cbn. unfold slug_taken, project_by_slug, insert_project. cbn.
  rewrite Hp. cbn. by eexists.
Qed.

Lemma rename_project_slugs i name description status d d' :
  rename_project i name description status d = Some d' ->
  map pr_slug (projects d') = map pr_slug (projects d).
Proof.
  unfold rename_project. destruct (existsb _ _); [discriminate|]. intros [= <-]. cbn.
  rewrite map_map. apply map_ext. intros p. by destruct (pr_id p =? i).
Qed.

End DefaultProject.

(** ** Deleting a project *)

Section Relocation.

Variable env : Env.
Variable general_id : Z.
Variable slug : string.

Local Abbreviation step := (relocate_photo env general_id slug).

(** The row written for [ph] and what its step leaves of the tree. *)
Lemma relocate_photo_unfold st ph :
  let old_fp := old_fp_of slug ph in
  let named := old_name_of env old_fp ph (l_reads st) in
  let moved := try_move env old_fp named.1 (fs (l_world st)) named.2 in
  step st ph
  = {| l_world :=
         {| db := set_photos
                    (map (move_row (ph_id ph) general_id moved.1.1 (basename moved.1.1))
                       (photos (db (l_world st))))
                    (db (l_world st));
            fs := moved.1.2 |};
       l_reads := moved.2 |}.
Proof.
  intros old_fp named moved. unfold relocate_photo.
  fold old_fp. fold named. destruct named as [old_name n] eqn:En.
  simpl in moved. fold moved. by destruct moved as [[new_fp f] n'].
Qed.

Lemma relocate_photo_projects st ph :
  projects (db (l_world (step st ph))) = projects (db (l_world st)).
Proof. by rewrite relocate_photo_unfold. Qed.

Lemma relocate_all_projects l st :
  projects (db (l_world (fold_left step l st))) = projects (db (l_world st)).
Proof.
  revert st. induction l as [|ph l IH]; intros st; [done|].
  simpl. by rewrite IH, relocate_photo_projects.
Qed.

End Relocation.

Section Keys.

(** Two rows of a table with a key share no key. *)
Lemma key_unique {A} (key : A -> Z) (l : list A) x y :
  NoDup (map key l) -> x ∈ l -> y ∈ l -> key x = key y -> x = y.
Proof.
  induction l as [|z l IH]; [by intros _ ?%elem_of_nil|].
  cbn [map]. intros [Hz Hl]%NoDup_cons Hx Hy E.
  apply elem_of_cons in Hx as [->|Hx], Hy as [->|Hy]; [done| | |by apply IH].
  - destruct Hz. rewrite E. apply list_elem_of_In, in_map, list_elem_of_In, Hy.
  - destruct Hz. rewrite <- E. apply list_elem_of_In, in_map, list_elem_of_In, Hx.
Qed.

Lemma find_filter_keep {A} (test keep : A -> bool) (l : list A) :
  (forall x, x ∈ l -> test x = true -> keep x = true) ->
  List.find test (List.filter keep l) = List.find test l.
Proof.
  induction l as [|x l IH]; intros H; [done|]. simpl.
  assert (List.find test (List.filter keep l) = List.find test l) as IH'
    by (apply IH; intros y Hy; apply H; by right).
  destruct (test x) eqn:Et.
  - rewrite (H x) by (done || by left). simpl. by rewrite Et.
  - destruct (keep x); simpl; by rewrite ?Et.
Qed.

Lemma project_by_id_elem d i p :
  project_by_id d i = Some p -> p ∈ projects d /\ pr_id p = i.
Proof.
  intros E. apply find_some in E as [Hp E]. split; [by apply list_elem_of_In | lia].
Qed.

Lemma project_by_slug_elem d s p :
  project_by_slug d s = Some p -> p ∈ projects d /\ pr_slug p = s.
Proof.
  intros E. apply find_some in E as [Hp E].
  split; [by apply list_elem_of_In | by apply String.eqb_eq].
Qed.

End Keys.

(** C2. Start-up leaves a project with slug [general] (on a first
    start it is the seeded row, named [General]), and editing a project
    changes no slug.  A request to delete the project with slug
    [general], or a project that is not there, is refused with an error
    message and leaves the database and the uploads tree as they were;
    and no request to delete a project, whatever its target, removes
    the row with slug [general]. *)
Theorem default_project_protected (env : Env) (cu : option User) (project_id : Z) (w : World) :
  (forall w', ensure_admin_and_default_project env w = Some w' ->
     exists g, project_by_slug (db w') "general" = Some g
       /\ pr_slug g = "general"
       /\ (slug_taken (db w) "general" = false ->
           pr_name g = "General" /\ projects (db w') = (projects (db w) ++ [g])%list))
  /\ (users (db w) = [] -> projects (db w) = [] ->
      exists w', ensure_admin_and_default_project env w = Some w')
  /\ (forall form,
        map pr_slug (projects (db (world (admin_edit_project cu project_id form w))))
        = map pr_slug (projects (db w)))
  /\ (let r := admin_delete_project env cu project_id w in
      ((project_by_id (db w) project_id = None
        \/ exists p, project_by_id (db w) project_id = Some p /\ pr_slug p = "general") ->
       world r = w /\ refusal r
       /\ (forall u, cu = Some u -> u_is_admin u = true ->
           response r = Redirect ep_admin_panel
           /\ exists message, flashed r = [(message, "error")]))
      /\ (NoDup (map pr_id (projects (db w))) ->
          project_by_slug (db (world r)) "general" = project_by_slug (db w) "general")).
Proof.
  split; [|split; [|split]].
  - intros w' Hw'. destruct (ensure_projects env w w' Hw') as (g & Hg & Hs & _ & Hnew).
    by exists g.
  - apply ensure_first_start.
  - intros form. unfold admin_edit_project, admin_required.
    destruct (admin_gate cu w) as [r|u] eqn:Hgate.
    { apply admin_gate_refuses in Hgate as [Hw _]. simpl. by rewrite Hw. }
    unfold guarded, edit_project_view.
    destruct (project_by_id (db w) project_id); [|done].
    destruct form as [f|]; [|done].
    destruct (is_empty _); [done|].
    destruct (rename_project _ _ _ _ _) as [d|] eqn:Ed; [|done].
    by apply rename_project_slugs in Ed.
  - intros r. subst r. unfold admin_delete_project, admin_required.
    destruct (admin_gate cu w) as [r|u] eqn:Hgate.
    { destruct (admin_gate_refuses _ _ _ Hgate) as [Hw Hr]. simpl. split.
      - intros _. split; [done|]. split; [done|].
        intros u' -> Hu'. by rewrite admin_gate_admin in Hgate.
      - intros _. by rewrite Hw. }
    unfold guarded, delete_project_view. split.
    + intros [Hnone|(p & Hp & Hslug)].
      * rewrite Hnone. simpl. split; [done|]. split; [by eexists _, _, _|]. eauto.
      * rewrite Hp, Hslug. simpl. split; [done|]. split; [by eexists _, _, _|]. eauto.
    + intros Hkeys.
      destruct (project_by_id (db w) project_id) as [proj|] eqn:Hproj; [|done].
      destruct (String.eqb (pr_slug proj) "general") eqn:Hslug; [done|].
      destruct (project_by_slug (db w) "general") as [general|] eqn:Hgen; [|done].
      cbn. unfold project_by_slug. cbn. rewrite relocate_all_projects. cbn.
      fold (project_by_slug (db w) "general"). rewrite <- Hgen. apply find_filter_keep.
      intros x Hx Ex. apply String.eqb_eq in Ex. apply negb_true_iff, Z.eqb_neq.
      intros Eid. apply project_by_id_elem in Hproj as [Hin Hid].
      assert (x = proj) as -> by (apply (key_unique pr_id (projects (db w))); [done..|lia]).
      rewrite Ex in Hslug. discriminate.
Qed.

Lemma default_project_protected_witness :
  (exists w', ensure_admin_and_default_project Sample.env Sample.blank = Some w'
     /\ map pr_slug (projects (db w')) = ["general"])
  /\ world (admin_delete_project Sample.env (Some Sample.admin) 1 Sample.store) = Sample.store
  /\ world (admin_delete_project Sample.env (Some Sample.admin) 7 Sample.store) = Sample.store.
Proof.
  destruct (default_project_protected Sample.env (Some Sample.admin) 1 Sample.store)
    as (_ & _ & _ & Hgeneral & _).
  destruct (default_project_protected Sample.env (Some Sample.admin) 7 Sample.store)
    as (_ & _ & _ & Hmissing & _).
  destruct (default_project_protected Sample.env None 0 Sample.blank)
    as (_ & Hstart & _).
  split; [|split].
  - destruct (Hstart eq_refl eq_refl) as [w' Hw']. exists w'. split; [exact Hw'|].
    vm_compute in Hw'. injection Hw' as <-. reflexivity.
  - apply Hgeneral. right. exists Sample.general. split; reflexivity.
  - apply Hmissing. left. reflexivity.
Defined.

(** ** Editing a photo *)

Section EditPhoto.
Context `{Werkzeug} `{SQLite} `{!Builtins}.

Lemma find_map_key {A} (key : A -> Z) (g : A -> A) (i : Z) (l : list A) :
  (forall x, key (g x) = key x) ->
  List.find (fun x => key x =? i) (map g l) = g <$> List.find (fun x => key x =? i) l.
Proof.
  intros Hk. induction l as [|x l IH]; [done|]. simpl. rewrite Hk.
  by destruct (key x =? i).
Qed.

Lemma edit_row_id i dn de pj fp fn p : ph_id (edit_row i dn de pj fp fn p) = ph_id p.
Proof. unfold edit_row. by destruct (ph_id p =? i). Qed.

Lemma photo_by_id_id d i p : photo_by_id d i = Some p -> ph_id p = i.
Proof. intros E. apply find_some in E as [_ E]. lia. Qed.

(** The closing [UPDATE], when [int] reads the project field. *)
Lemma edit_commit_read photo_id dn de pj j fp fn f warnings w :
  py_int pj = Some j ->
  edit_commit photo_id dn de pj fp fn f warnings w
  = reply (Redirect ep_dashboard)
      {| db := set_photos (map (edit_row photo_id dn de j fp fn) (photos (db w))) (db w);
         fs := f |}
      (warnings ++ [("Foto actualizada.", "success")])%list.
Proof. intros Hj. unfold edit_commit. by rewrite Hj. Qed.

(** The row of the edited photo after the closing [UPDATE]. *)
Lemma edit_commit_row photo_id dn de pj j fp fn f warnings w photo :
  py_int pj = Some j ->
  photo_by_id (db w) photo_id = Some photo ->
  photo_by_id (db (world (edit_commit photo_id dn de pj fp fn f warnings w))) photo_id
  = Some (edited photo dn de j fp fn).
Proof.
  intros Hj Hp. rewrite (edit_commit_read _ _ _ _ j) by done. unfold photo_by_id. cbn.
  rewrite (find_map_key ph_id) by (intros; apply edit_row_id).
  fold (photo_by_id (db w) photo_id). rewrite Hp. cbn.
  unfold edit_row, edited. apply photo_by_id_id in Hp. by rewrite Hp, Z.eqb_refl.
Qed.

(** The handler past its validation, in terms of the plan. *)
Lemma edit_photo_valid env u photo_id f w photo new_proj :
  u_is_admin u = true ->
  photo_by_id (db w) photo_id = Some photo ->
  is_empty (strip (ed_display_name f)) = false ->
  is_empty (strip (ed_project_id f)) = false ->
  project_by_text (db w) (strip (ed_project_id f)) = Some new_proj ->
  let f0 := mkdir (pr_slug new_proj) (fs w) in
  let commit := edit_commit photo_id (strip (ed_display_name f)) (strip (ed_description f))
                  (strip (ed_project_id f)) in
  edit_photo env (Some u) photo_id (Some f) w
  = match edit_plan env photo new_proj (strip (ed_display_name f)) (strip (ed_project_id f))
            f0 with
    | Keep new_fp new_filename => commit new_fp new_filename f0 [] w
    | Missing =>
        commit (get_photo_filepath photo) (old_filename_of photo) f0
          [("Aviso: no se encontró el archivo físico para mover/renombrar.", "error")] w
    | Move new_fp new_filename =>
        match replace env (get_photo_filepath photo) new_fp f0 with
        | inr f1 => commit new_fp new_filename f1 [] w
        | inl e =>
            reply (Redirect (ep_edit_photo photo_id)) (set_fs f0 w)
              [("No se pudo mover/renombrar el archivo: " ++ e, "error")]
        end
    end.
Proof.
  intros Hu Hp Hn Hi Hj. unfold edit_photo, admin_required.
  rewrite admin_gate_admin by done. unfold guarded, edit_photo_view.
  by rewrite Hp, Hn, Hi, Hj.
Qed.

Lemma files_mkdir d f : files (mkdir d f) = files f.
Proof. unfold mkdir. by destruct (locate d). Qed.

(** [mkdir] makes the directory it is asked for. *)
Lemma mkdir_makes d f k : locate d = Some k -> is_empty k = false -> k ∈ dirs (mkdir d f).
Proof.
  intros Hk Hne. unfold mkdir. rewrite Hk. cbn [dirs]. apply elem_of_union_l.
  apply elem_of_list_to_set. unfold ancestry. revert Hk Hne. unfold locate.
  destruct (_ || _); [discriminate|]. intros [= <-].
  generalize (Paths.parts (Text.of_string d)). intros ws Hne.
  apply list_elem_of_In, in_map_iff.
  assert (forall pre, ws <> [] -> In (pre ++ ws)%list (map (app pre) (Paths.above ws))) as Habove.
  { clear Hne. induction ws as [|v ws IH]; intros pre Hws; [done|]. cbn [Paths.above map].
    destruct ws as [|v' ws]; [by left|]. right.
    rewrite map_map. specialize (IH (pre ++ [v])%list ltac:(done)).
    rewrite <- app_assoc in IH. cbn [app] in IH.
    erewrite map_ext; [exact IH|]. intros l. by rewrite <- app_assoc. }
  exists ws. split; [done|]. specialize (Habove [] ltac:(by destruct ws)).
  cbn [app] in Habove. by rewrite map_id in Habove.
Qed.

Lemma dirs_mkdir d f : dirs f ⊆ dirs (mkdir d f).
Proof. unfold mkdir. destruct (locate d); [apply union_subseteq_r | done]. Qed.

(** A regular file is there for [exists()]. *)
Lemma path_exists_file env f p k c :
  locate p = Some k -> files f !! k = Some c -> path_exists env f p = true.
Proof.
  intros Hk Hc. unfold path_exists, is_file. rewrite Hk, Hc.
  by rewrite bool_decide_eq_true_2 by by eexists.
Qed.

(** Where nothing is, [exists()] says so. *)
Lemma path_exists_nothing env f p k :
  locate p = Some k -> files f !! k = None -> is_dir f k = false ->
  path_exists env f p = false.
Proof.
  intros Hk Hc Hd. unfold path_exists, is_file. rewrite Hk, Hc, Hd.
  by rewrite bool_decide_eq_false_2 by by intros [? [=]].
Qed.

(** A move of a regular file that does not raise, inside the tree. *)
Lemma replace_file env src dst f f1 ks kd c :
  locate src = Some ks -> locate dst = Some kd -> files f !! ks = Some c ->
  replace env src dst f = inr f1 ->
  f1 = {| files := <[kd := c]> (delete ks (files f)); dirs := dirs f |}.
Proof.
  intros Hs Hd Hc. unfold replace. rewrite Hs, Hd, Hc.
  destruct (replace_error env src dst); [discriminate|].
  destruct (is_dir f kd || negb (is_dir f (parent kd))); [discriminate|]. by intros [= <-].
Qed.

(** When the name changes and something is at the path of the photo,
    the plan is a move to a name freshly stamped with a reading of the
    clock, under the target project; the next reading is taken when
    that name is there already. *)
Lemma edit_plan_rename env photo new_proj new_display_name new_project_id f :
  name_changed photo new_display_name = true ->
  is_empty (get_photo_filepath photo) = false ->
  path_exists env f (get_photo_filepath photo) = true ->
  let base := (base_or_stamp env new_display_name 0).1 in
  let n := (base_or_stamp env new_display_name 0).2 in
  let ext := kept_extension (old_filename_of photo) in
  let new_filename :=
    if path_exists env f (pr_slug new_proj ++ "/" ++ stamped_name base (clock env n) ext)
    then stamped_name base (clock env (S n)) ext
    else stamped_name base (clock env n) ext in
  edit_plan env photo new_proj new_display_name new_project_id f
  = Move (pr_slug new_proj ++ "/" ++ new_filename) new_filename.
Proof.
  intros Hn He Hx. unfold edit_plan. rewrite Hn, He, Hx, orb_true_r.
  destruct (base_or_stamp env new_display_name 0) as [base n]. cbn.
  by destruct (path_exists env f (_ ++ _)).
Qed.

(** When neither the project nor the name changes, the plan keeps
    the file under its old name. *)
Lemma edit_plan_keep env photo new_proj new_display_name new_project_id f :
  project_changed photo new_project_id = false ->
  name_changed photo new_display_name = false ->
  edit_plan env photo new_proj new_display_name new_project_id f
  = Keep (pr_slug new_proj ++ "/" ++ old_filename_of photo) (old_filename_of photo).
Proof.
  intros Hp Hn. unfold edit_plan. rewrite Hp, Hn.
  by destruct (base_or_stamp env new_display_name 0).
Qed.

Lemma in_sync_paths slug photo fn :
  ph_filename photo = Some fn ->
  ph_filepath photo = Some (slug ++ "/" ++ fn) ->
  strip (slug ++ "/" ++ fn) = slug ++ "/" ++ fn ->
  basename (slug ++ "/" ++ fn) = fn ->
  get_photo_filepath photo = slug ++ "/" ++ fn /\ old_filename_of photo = fn.
Proof.
  intros Hfn Hfp Hs Hb.
  assert (get_photo_filepath photo = slug ++ "/" ++ fn) as E.
  { unfold get_photo_filepath. rewrite Hfp. cbn [or_empty]. rewrite Hs.
    by destruct slug. }
  split; [done|]. unfold old_filename_of. rewrite E, Hb. by destruct slug.
Qed.

End EditPhoto.

(** C3 (as amended). For an existing photo and an existing target
    project, named by a project field that [int] accepts.  When the
    display name changes (letter case apart), something is at the
    row's path and the move does not raise, [edit_photo] renames it to
    [<target slug>/<base>_<time>.<ext>], the tree being the one the
    move leaves, and writes that path and that file name to the row;
    a regular file is then at the new path and gone from the old one.
    When only the description changes (the same display name, letter
    case apart, and a project field that is the decimal text of the
    row's project), on a row in step with that project's directory,
    the files, the path and the file name stay as they were. *)
Theorem edit_photo_rename_and_frame `{Werkzeug} `{SQLite} `{!Builtins} (env : Env) (u : User)
    (photo_id : Z) (f : EditForm) (w : World) (photo : Photo) (new_proj : Project) :
  u_is_admin u = true ->
  photo_by_id (db w) photo_id = Some photo ->
  is_empty (strip (ed_display_name f)) = false ->
  is_empty (strip (ed_project_id f)) = false ->
  project_by_text (db w) (strip (ed_project_id f)) = Some new_proj ->
  is_Some (py_int (strip (ed_project_id f))) ->
  let new_name := strip (ed_display_name f) in
  let new_description := strip (ed_description f) in
  let new_project := strip (ed_project_id f) in
  let old_fp := get_photo_filepath photo in
  let made := mkdir (pr_slug new_proj) (fs w) in
  let r := edit_photo env (Some u) photo_id (Some f) w in
  (lower (strip (ph_display_name photo)) <> lower new_name ->
   is_empty old_fp = false ->
   path_exists env made old_fp = true ->
   let base := (base_or_stamp env new_name 0).1 in
   let n := (base_or_stamp env new_name 0).2 in
   let ext := kept_extension (old_filename_of photo) in
   let new_filename :=
     if path_exists env made (pr_slug new_proj ++ "/" ++ stamped_name base (clock env n) ext)
     then stamped_name base (clock env (S n)) ext
     else stamped_name base (clock env n) ext in
   let dst := pr_slug new_proj ++ "/" ++ new_filename in
   forall f1, replace env old_fp dst made = inr f1 ->
     fs (world r) = f1
     /\ photo_by_id (db (world r)) photo_id
        = Some (edited photo new_name new_description (pr_id new_proj) dst new_filename)
     /\ flashed r = [("Foto actualizada.", "success")]
     /\ forall src key content,
          locate old_fp = Some src -> files (fs w) !! src = Some content ->
          locate dst = Some key ->
          files (fs (world r)) = <[key := content]> (delete src (files (fs w))))
  /\ (lower (strip (ph_display_name photo)) = lower new_name ->
      ph_project_id photo = Some (pr_id new_proj) ->
      pr_id new_proj <> 0 ->
      new_project = pretty (pr_id new_proj) ->
      in_sync (pr_slug new_proj) photo ->
      files (fs (world r)) = files (fs w)
      /\ exists p',
           photo_by_id (db (world r)) photo_id = Some p'
           /\ ph_filepath p' = ph_filepath photo
           /\ ph_filename p' = ph_filename photo
           /\ ph_description p' = Some new_description).
Proof.
  intros Hu Hp Hn Hi Hj [j Hint] new_name new_description new_project old_fp made r.
  assert (j = pr_id new_proj) as ->.
  { revert Hj. unfold project_by_text.
    destruct (sql_integer (strip (ed_project_id f))) as [i|] eqn:Hsql; [|discriminate].
    cbn [mbind option_bind]. intros Hj.
    pose proof (project_by_id_elem _ _ _ Hj) as [_ E].
    rewrite <- (py_int_value _ i j Hsql Hint). done. }
  subst r. rewrite (edit_photo_valid env u photo_id f w photo new_proj) by done.
  fold new_name new_description new_project old_fp made. split.
  - intros Hchanged Hne Hthere base n ext new_filename dst f1 Hmove.
    assert (name_changed photo new_name = true) as Hnc.
    { unfold name_changed. apply negb_true_iff. by apply String.eqb_neq. }
    rewrite (edit_plan_rename env photo new_proj new_name new_project made Hnc Hne Hthere).
    fold base n ext new_filename dst old_fp. rewrite Hmove.
    rewrite (edit_commit_read _ _ _ _ (pr_id new_proj)) by done.
    split; [done|]. split.
    { rewrite <- (edit_commit_read photo_id new_name new_description new_project
                    (pr_id new_proj) _ _ f1 [] w) by done.
      by apply edit_commit_row. }
    split; [done|]. intros src key content Hsrc Hfile Hkey.
    assert (files made !! src = Some content) as Hfile0
      by (unfold made; by rewrite files_mkdir).
    rewrite (replace_file env old_fp dst made f1 src key content Hsrc Hkey Hfile0 Hmove).
    cbn. unfold made. by rewrite files_mkdir.
  - intros Hsame_name Hproject Hpositive Htext (fn & Hfn & Hfp & Hs & Hb).
    assert (project_changed photo new_project = false) as Hsame_project.
    { unfold project_changed, project_text. rewrite Hproject.
      apply Z.eqb_neq in Hpositive. rewrite Hpositive, Htext.
      by rewrite String.eqb_refl. }
    assert (name_changed photo new_name = false) as Hnc.
    { unfold name_changed. rewrite Hsame_name. by rewrite String.eqb_refl. }
    rewrite edit_plan_keep by done.
    destruct (in_sync_paths _ _ _ Hfn Hfp Hs Hb) as [_ ->].
    split.
    { rewrite (edit_commit_read _ _ _ _ (pr_id new_proj)) by done. cbn. unfold made.
      by rewrite files_mkdir. }
    eexists. split; [by apply (edit_commit_row _ _ _ _ (pr_id new_proj))|]. by rewrite Hfp, Hfn.
Qed.

Lemma edit_photo_rename_and_frame_witness :
  let rename := {| ed_display_name := "Panel 2"; ed_description := "north side";
                   ed_project_id := "2" |} in
  let describe := {| ed_display_name := "PANEL 1"; ed_description := "south side";
                     ed_project_id := "2" |} in
  let r1 := edit_photo (H := Sample.safe_name) (H0 := Sample.first_ten)
              (H1 := Sample.digits_only) Sample.env (Some Sample.admin) 1 (Some rename)
              Sample.store in
  let r2 := edit_photo (H := Sample.safe_name) (H0 := Sample.first_ten)
              (H1 := Sample.digits_only) Sample.env (Some Sample.admin) 1 (Some describe)
              Sample.store in
  (files (fs (world r1)) !! "roof_a/panel_2_1700000000.jpg" = Some "JPEG-1"
   /\ files (fs (world r1)) !! "roof_a/panel_1.jpg" = None
   /\ ph_filepath <$> photo_by_id (db (world r1)) 1 = Some (Some "roof_a/panel_2_1700000000.jpg"))
  /\ (files (fs (world r2)) = files Sample.tree
      /\ ph_filepath <$> photo_by_id (db (world r2)) 1 = Some (Some "roof_a/panel_1.jpg")).
Proof.
  intros rename describe r1 r2.
  destruct (edit_photo_rename_and_frame (H := Sample.safe_name) (H0 := Sample.first_ten)
              (H1 := Sample.digits_only) Sample.env Sample.admin 1 rename
              Sample.store Sample.panel Sample.roof) as [Hrename _];
    [reflexivity | reflexivity | reflexivity | reflexivity | reflexivity | by eexists |].
  destruct (edit_photo_rename_and_frame (H := Sample.safe_name) (H0 := Sample.first_ten)
              (H1 := Sample.digits_only) Sample.env Sample.admin 1 describe
              Sample.store Sample.panel Sample.roof) as [_ Hframe];
    [reflexivity | reflexivity | reflexivity | reflexivity | reflexivity | by eexists |].
  split.
  - destruct (Hrename ltac:(discriminate) eq_refl eq_refl
                {| files := {[ "roof_a/panel_2_1700000000.jpg" := "JPEG-1";
                               "roof_a/gutter.jpg" := "JPEG-2" ]};
                   dirs := {[ "general"; "roof_a" ]} |})
      as (_ & Hrow & _ & Hfiles).
    { vm_compute. reflexivity. }
    fold r1 in Hrow, Hfiles.
    rewrite (Hfiles "roof_a/panel_1.jpg" "roof_a/panel_2_1700000000.jpg" "JPEG-1"
               eq_refl eq_refl eq_refl), Hrow.
    split; [apply lookup_insert_eq|]. split; [|reflexivity].
    rewrite lookup_insert_ne by discriminate. apply lookup_delete_eq.
  - destruct Hframe as (Hfiles & p' & Hrow & Hfp & _);
      [reflexivity | reflexivity | discriminate | reflexivity | |].
    + exists "panel_1.jpg". repeat split; reflexivity.
    + fold r2 in Hfiles, Hrow. split; [exact Hfiles|]. rewrite Hrow. cbn. by rewrite Hfp.
Defined.

(** C3 (as stated) fails, in six ways.  With the file gone from the
    tree, changing the display name renames nothing and leaves the
    path and the file name of the row as they were, while the new
    display name is written.  With the project field [2.0], which
    SQLite reads as the project [2] and on which [int] raises, changing
    the display name renames the file and leaves the row as it was.
    Changing only the description rewrites the path of a row whose
    path lies outside its project's directory, of a row whose path ends
    in a blank, and of a row whose file name holds a slash, and moves
    no file.  And changing only the description with the project field
    [02], which names the row's project [2], renames the file. *)
Lemma edit_photo_not_as_stated :
  let edit := edit_photo (H := Sample.safe_name) (H0 := Sample.first_ten)
                (H1 := Sample.digits_only) Sample.env (Some Sample.admin) in
  let rename text := {| ed_display_name := "Panel 2"; ed_description := "north side";
                        ed_project_id := text |} in
  let describe name text := {| ed_display_name := name; ed_description := "found";
                               ed_project_id := text |} in
  (let r := edit 1 (Some (rename "2")) Sample.store_without_files in
   lower (strip (ph_display_name Sample.panel)) <> lower "Panel 2"
   /\ photo_by_id (db (world r)) 1
      = Some (edited Sample.panel "Panel 2" "north side" 2 "roof_a/panel_1.jpg" "panel_1.jpg")
   /\ files (fs (world r)) = ∅)
  /\ (let r := edit 1 (Some (rename "2.0")) Sample.store in
      project_by_text (H := Sample.first_ten) (db Sample.store) "2.0" = Some Sample.roof
      /\ response r = Server_error
      /\ photo_by_id (db (world r)) 1 = Some Sample.panel
      /\ files (fs (world r)) !! "roof_a/panel_1.jpg" = None
      /\ files (fs (world r)) !! "roof_a/panel_2_1700000000.jpg" = Some "JPEG-1")
  /\ (let r := edit 3 (Some (describe "Stray" "2")) Sample.store_out_of_step in
      lower (strip (ph_display_name Sample.stray)) = lower "Stray"
      /\ ph_project_id Sample.stray = Some 2
      /\ ph_filepath Sample.stray = Some "general/stray.jpg"
      /\ ph_filepath <$> photo_by_id (db (world r)) 3 = Some (Some "roof_a/stray.jpg")
      /\ files (fs (world r)) = files Sample.tree)
  /\ (let r := edit 7 (Some (describe "Spaced" "2")) Sample.store_out_of_step in
      lower (strip (ph_display_name Sample.spaced)) = lower "Spaced"
      /\ ph_project_id Sample.spaced = Some 2
      /\ ph_filepath Sample.spaced = Some "roof_a/spaced.jpg "
      /\ ph_filepath <$> photo_by_id (db (world r)) 7 = Some (Some "roof_a/spaced.jpg")
      /\ files (fs (world r)) = files Sample.tree)
  /\ (let r := edit 8 (Some (describe "Nested" "2")) Sample.store_out_of_step in
      lower (strip (ph_display_name Sample.nested)) = lower "Nested"
      /\ ph_project_id Sample.nested = Some 2
      /\ ph_filepath Sample.nested = Some "roof_a/x/nested.jpg"
      /\ ph_filename Sample.nested = Some "x/nested.jpg"
      /\ ph_filepath <$> photo_by_id (db (world r)) 8 = Some (Some "roof_a/nested.jpg")
      /\ ph_filename <$> photo_by_id (db (world r)) 8 = Some (Some "nested.jpg")
      /\ files (fs (world r)) = files Sample.tree)
  /\ (let r := edit 1 (Some (describe "Panel 1" "02")) Sample.store in
      lower (strip (ph_display_name Sample.panel)) = lower "Panel 1"
      /\ ph_project_id Sample.panel = Some 2
      /\ project_by_text (H := Sample.first_ten) (db Sample.store) "02" = Some Sample.roof
      /\ files (fs Sample.store) !! "roof_a/panel_1.jpg" = Some "JPEG-1"
      /\ files (fs (world r)) !! "roof_a/panel_1.jpg" = None
      /\ ph_filepath <$> photo_by_id (db (world r)) 1
         = Some (Some "roof_a/panel_1_1700000000.jpg")).
Proof.
  intros edit rename describe. repeat split; first [reflexivity | discriminate].
Qed.

(** C4. When the move [edit_photo] attempts raises, the answer is a
    redirect back to the edit page with the error, and the database is
    as it was: no field of the photo row has changed. *)
Theorem edit_photo_move_error `{Werkzeug} `{SQLite} `{!Builtins} (env : Env) (u : User)
    (photo_id : Z) (f : EditForm) (w : World) (photo : Photo) (new_proj : Project)
    (dst new_filename e : string) :
  u_is_admin u = true ->
  photo_by_id (db w) photo_id = Some photo ->
  is_empty (strip (ed_display_name f)) = false ->
  is_empty (strip (ed_project_id f)) = false ->
  project_by_text (db w) (strip (ed_project_id f)) = Some new_proj ->
  edit_plan env photo new_proj (strip (ed_display_name f)) (strip (ed_project_id f))
    (mkdir (pr_slug new_proj) (fs w)) = Move dst new_filename ->
  replace env (get_photo_filepath photo) dst (mkdir (pr_slug new_proj) (fs w)) = inl e ->
  let r := edit_photo env (Some u) photo_id (Some f) w in
  response r = Redirect (ep_edit_photo photo_id)
  /\ flashed r = [("No se pudo mover/renombrar el archivo: " ++ e, "error")]
  /\ db (world r) = db w
  /\ photo_by_id (db (world r)) photo_id = Some photo
  /\ files (fs (world r)) = files (fs w).
Proof.
  intros Hu Hp Hn Hi Hj Hplan Hraise r. subst r.
  rewrite (edit_photo_valid env u photo_id f w photo new_proj) by done.
  rewrite Hplan, Hraise. cbn. by rewrite files_mkdir.
Qed.

Lemma edit_photo_move_error_witness :
  let rename := {| ed_display_name := "Panel 2"; ed_description := "south side";
                   ed_project_id := "1" |} in
  let r := edit_photo (H := Sample.safe_name) (H0 := Sample.first_ten)
             (H1 := Sample.digits_only) Sample.failing_env (Some Sample.admin) 1
             (Some rename) Sample.store in
  response r = Redirect (ep_edit_photo 1)
  /\ photo_by_id (db (world r)) 1 = Some Sample.panel.
Proof.
  intros rename r.
  destruct (edit_photo_move_error (H := Sample.safe_name) (H0 := Sample.first_ten)
              (H1 := Sample.digits_only) Sample.failing_env Sample.admin 1
              rename Sample.store Sample.panel Sample.general
              "general/panel_2_1700000000.jpg" "panel_2_1700000000.jpg"
              "[Errno 13] Permission denied")
    as (Hresp & _ & _ & Hrow & _); [reflexivity..|].
  split; [exact Hresp | exact Hrow].
Defined.

(** ** Relocating the photos of a deleted project *)

Section RelocationRows.

Variable env : Env.
Variable general_id : Z.
Variable slug : string.

Local Abbreviation step := (relocate_photo env general_id slug).

Lemma move_row_id i pj fp fn p : ph_id (move_row i pj fp fn p) = ph_id p.
Proof. unfold move_row. by destruct (ph_id p =? i). Qed.

Lemma relocate_photo_ids st ph :
  map ph_id (photos (db (l_world (step st ph)))) = map ph_id (photos (db (l_world st))).
Proof.
  rewrite relocate_photo_unfold. cbn. rewrite map_map. apply map_ext.
  intros p. apply move_row_id.
Qed.

Lemma relocate_all_ids l st :
  map ph_id (photos (db (l_world (fold_left step l st))))
  = map ph_id (photos (db (l_world st))).
Proof.
  revert st. induction l as [|ph l IH]; intros st; [done|].
  simpl. by rewrite IH, relocate_photo_ids.
Qed.

Lemma relocate_photo_row st ph i :
  photo_by_id (db (l_world (step st ph))) i
  = (if ph_id ph =? i
     then (fun row => relocated row general_id (destination env slug st ph))
            <$> photo_by_id (db (l_world st)) i
     else photo_by_id (db (l_world st)) i).
Proof.
  rewrite relocate_photo_unfold. unfold photo_by_id. cbn [l_world db photos set_photos].
  rewrite (find_map_key ph_id) by (intros; apply move_row_id).
  destruct (List.find _ _) as [row|] eqn:E; [|by destruct (ph_id ph =? i)].
  apply find_some in E as [_ E]. apply Z.eqb_eq in E. cbn [fmap option_fmap option_map].
  subst i. unfold move_row. rewrite (Z.eqb_sym (ph_id row)).
  by destruct (ph_id ph =? ph_id row).
Qed.

Lemma relocate_all_row_other l st i :
  (forall ph, ph ∈ l -> ph_id ph <> i) ->
  photo_by_id (db (l_world (fold_left step l st))) i = photo_by_id (db (l_world st)) i.
Proof.
  revert st. induction l as [|ph l IH]; intros st Hl; [done|].
  simpl. rewrite IH by (intros; apply Hl; by right).
  rewrite relocate_photo_row.
  assert (ph_id ph <> i) as Hne by (apply Hl; by left).
  apply Z.eqb_neq in Hne. by rewrite Hne.
Qed.

Lemma relocate_photo_files st ph :
  fs (l_world (step st ph))
  = (let old_fp := old_fp_of slug ph in
     let named := old_name_of env old_fp ph (l_reads st) in
     (try_move env old_fp named.1 (fs (l_world st)) named.2).1.2).
Proof. by rewrite relocate_photo_unfold. Qed.

End RelocationRows.

Section Located.
Import Text.

Lemma after_last_none a l : after_last a l = None -> forallb (fun c => negb (is_char a c)) l = true.
Proof.
  induction l as [|c l IH]; [done|]. cbn [after_last forallb].
  destruct (after_last a l); [discriminate|].
  destruct (is_char a c); [discriminate|]. intros _. by rewrite IH.
Qed.

(** [os.path.basename] gives a text without a slash. *)
Lemma basename_plain p : forallb (fun c => negb (is_char "/" c)) (of_string (basename p)) = true.
Proof.
  unfold basename, Paths.basename. rewrite of_to_string.
  destruct (after_last "/" (of_string p)) as [t|] eqn:E.
  - by apply after_last_free in E.
  - by apply after_last_none.
Qed.

Lemma split_by_one pre x :
  forallb (fun c => negb (is_char "/" c)) pre = true ->
  forallb (fun c => negb (is_char "/" c)) x = true ->
  split_by (is_char "/") (pre ++ "/"%char :: x) = [pre; x].
Proof.
  intros Hpre Hx. induction pre as [|c pre IH].
  - cbn [app split_by]. change (is_char "/" "/") with true. cbv iota.
    by rewrite split_by_none.
  - cbn [forallb] in Hpre. apply andb_true_iff in Hpre as [Hc Hpre].
    apply negb_true_iff in Hc. cbn [app split_by]. by rewrite Hc, IH.
Qed.

(** The place of a child of [general] that is named without a slash. *)
Lemma locate_general_child x :
  forallb (fun c => negb (is_char "/" c)) (of_string x) = true ->
  Paths.has_nul (of_string x) = false ->
  Paths.is_dotdot (of_string x) = false ->
  locate ("general/" ++ x)
  = Some (if is_nil (of_string x) || Paths.is_dot (of_string x)
          then "general" else "general/" ++ x).
Proof.
  intros Hslash Hnul Hup. unfold locate. rewrite of_string_app.
  change (of_string "general/") with (of_string "general" ++ ["/"%char])%list.
  rewrite <- app_assoc. cbn [app].
  unfold Paths.parts. rewrite split_by_one by done.
  assert (Paths.is_absolute (of_string "general" ++ "/"%char :: of_string x) = false) as ->
    by reflexivity.
  assert (Paths.has_nul (of_string "general" ++ "/"%char :: of_string x) = false) as ->.
  { unfold Paths.has_nul in *. rewrite existsb_app. cbn [existsb]. by rewrite Hnul. }
  cbn [List.filter]. change (is_nil (of_string "general") || Paths.is_dot (of_string "general"))
    with false. cbn [negb orb].
  destruct (is_nil (of_string x) || Paths.is_dot (of_string x)) eqn:Hkeep; cbn [negb existsb].
  - reflexivity.
  - rewrite Hup. cbn [orb]. f_equal. cbn [Paths.join]. rewrite app_nil_r.
    rewrite <- (to_of_string ("general/" ++ x)). f_equal.
Qed.

(** A name with an underscore in it is neither [.] nor [..]. *)
Lemma underscored_name s n :
  is_nil (s ++ "_"%char :: n) || Paths.is_dot (s ++ "_"%char :: n) = false
  /\ Paths.is_dotdot (s ++ "_"%char :: n) = false.
Proof.
  destruct s as [|a [|b [|c s]]]; destruct n as [|d [|e n]]; cbn; split; try reflexivity;
    by rewrite ?andb_false_r.
Qed.

Lemma slug_chars_plain l :
  Forall (fun c => slug_char c = true) l ->
  forallb (fun c => negb (is_char "/" c)) l = true /\ Paths.has_nul l = false.
Proof.
  induction 1 as [|c l Hc _ [IH1 IH2]]; [done|]. cbn [forallb Paths.has_nul existsb].
  fold (Paths.has_nul l). rewrite IH1, IH2.
  destruct c as [[] [] [] [] [] [] [] []]; try discriminate Hc; done.
Qed.

(** The place of [general/<time>_<name>]. *)
Lemma locate_stamped (t : Z) name :
  forallb (fun c => negb (is_char "/" c)) (of_string name) = true ->
  Paths.has_nul (of_string name) = false ->
  locate ("general/" ++ pretty t ++ "_" ++ name) = Some ("general/" ++ pretty t ++ "_" ++ name).
Proof.
  intros Hslash Hnul.
  destruct (slug_chars_plain _ (pretty_Z_slug t)) as [Ht1 Ht2].
  assert (of_string (pretty t ++ "_" ++ name)
          = (of_string (pretty t) ++ "_"%char :: of_string name)%list) as E
    by (by rewrite !of_string_app).
  destruct (underscored_name (of_string (pretty t)) (of_string name)) as [Hkeep Hup].
  rewrite locate_general_child; rewrite E.
  - by rewrite Hkeep.
  - rewrite forallb_app. cbn [forallb]. by rewrite Ht1, Hslash.
  - unfold Paths.has_nul in *. rewrite existsb_app. cbn [existsb]. by rewrite Ht2, Hnul.
  - done.
Qed.

(** What being located says of the name of a child of [general]. *)
Lemma located_general_child x k :
  forallb (fun c => negb (is_char "/" c)) (of_string x) = true ->
  locate ("general/" ++ x) = Some k ->
  Paths.has_nul (of_string x) = false
  /\ k = (if is_nil (of_string x) || Paths.is_dot (of_string x)
          then "general" else "general/" ++ x).
Proof.
  intros Hslash Hk.
  assert (Paths.has_nul (of_string x) = false /\ Paths.is_dotdot (of_string x) = false)
    as [Hnul Hup].
  { revert Hk. unfold locate. rewrite of_string_app.
    change (of_string "general/") with (of_string "general" ++ ["/"%char])%list.
    rewrite <- app_assoc. cbn [app]. unfold Paths.parts. rewrite split_by_one by done.
    unfold Paths.has_nul. rewrite existsb_app. cbn [existsb List.filter].
    change (is_nil (of_string "general") || Paths.is_dot (of_string "general")) with false.
    cbn [negb orb].
    destruct (existsb _ (of_string x)); [by rewrite !orb_true_r|].
    destruct (Paths.is_dotdot (of_string x)) eqn:Hup; [|done].
    destruct (of_string x) as [|c [|d [|e l]]]; try discriminate Hup.
    cbn in Hup. cbn. rewrite Hup.
    by rewrite ?andb_false_r, ?orb_true_r. }
  split; [done|]. rewrite locate_general_child in Hk by done. congruence.
Qed.

(** A path with one slash is cut at it in one way. *)
Lemma slash_unique pre x ks rest :
  forallb (fun c => negb (is_char "/" c)) pre = true ->
  forallb (fun c => negb (is_char "/" c)) x = true ->
  (pre ++ "/"%char :: x)%list = (ks ++ "/"%char :: rest)%list ->
  ks = pre /\ rest = x.
Proof.
  revert ks. induction pre as [|c pre IH]; intros [|d ks] Hpre Hx E; cbn [app] in E.
  - by injection E as <-.
  - injection E as <- ->. rewrite forallb_app in Hx. cbn in Hx.
    by rewrite andb_false_r in Hx.
  - injection E as -> _. by cbn in Hpre.
  - injection E as <- E. cbn [forallb] in Hpre. apply andb_true_iff in Hpre as [_ Hpre].
    destruct (IH ks Hpre Hx E) as [-> ->]. done.
Qed.

Lemma after_prefix_app p l r : Paths.after_prefix p l = Some r -> l = (p ++ r)%list.
Proof.
  revert l. induction p as [|c p IH]; intros l; cbn [Paths.after_prefix app].
  - by intros [= ->].
  - destruct l as [|d l]; [discriminate|].
    destruct (is_char c d) eqn:E; [|discriminate]. apply is_char_eq in E as ->.
    intros Hr. by rewrite (IH l Hr).
Qed.

(** [k] lies at or below [base] in one of three ways. *)
Lemma below_inv base k rest :
  below base k = Some rest ->
  k = base \/ base = "" \/ of_string k = (of_string base ++ "/"%char :: of_string rest)%list.
Proof.
  unfold below. destruct (String.eqb k base) eqn:E; [apply String.eqb_eq in E; by left|].
  destruct base as [|a base]; [by right; left|]. right. right.
  destruct (Paths.after_prefix _ _) as [r|] eqn:Hr; [|discriminate].
  injection H as <-. apply after_prefix_app in Hr. rewrite Hr, of_to_string.
  rewrite of_string_app. change (of_string "/") with ["/"%char]. by rewrite <- app_assoc.
Qed.

End Located.

Section TryMove.

Variable env : Env.

Lemma prefixed_ne (stamp name : string) :
  "general/" ++ stamp ++ "_" ++ name <> "general/" ++ name.
Proof.
  intros E. apply (f_equal String.length) in E.
  rewrite !length_append in E. simpl in E. lia.
Qed.

Lemma prefixed_ne_general (stamp name : string) :
  "general/" ++ stamp ++ "_" ++ name <> "general".
Proof.
  intros E. apply (f_equal String.length) in E.
  rewrite !length_append in E. simpl in E. lia.
Qed.

(** [try_move] with its two tests spelled out. *)
Lemma try_move_eq old_fp name f n :
  try_move env old_fp name f n
  = (if negb (is_empty old_fp) && path_exists env f old_fp
     then
       let collides := path_exists env f ("general/" ++ name) in
       let dst := if collides
                  then "general/" ++ pretty (clock env n) ++ "_" ++ name
                  else "general/" ++ name in
       (dst,
        match replace env old_fp dst f with
        | inr f' => f'
        | inl _ => f
        end,
        if collides then S n else n)
     else ("general/" ++ name, f, n)).
Proof.
  unfold try_move.
  destruct (negb (is_empty old_fp) && path_exists env f old_fp); [|reflexivity].
  destruct (path_exists env f ("general/" ++ name)); cbv zeta;
    by destruct (replace env old_fp _ f).
Qed.

(** The destination: the plain name, or on a collision the name
    behind a reading of the clock. *)
Lemma try_move_destination old_fp name f n :
  let dst := (try_move env old_fp name f n).1.1 in
  if negb (is_empty old_fp) && path_exists env f old_fp
     && path_exists env f ("general/" ++ name)
  then exists k, dst = "general/" ++ pretty (clock env k) ++ "_" ++ name
                 /\ dst <> "general/" ++ name
  else dst = "general/" ++ name.
Proof.
  rewrite try_move_eq.
  destruct (negb (is_empty old_fp) && path_exists env f old_fp); [|reflexivity].
  destruct (path_exists env f ("general/" ++ name)); cbn [andb fst]; [|reflexivity].
  exists n. split; [reflexivity | apply prefixed_ne].
Qed.

(** A move of a regular file that does not raise carries the content
    over. *)
Lemma try_move_moved old_fp name f n ks kd c f1 :
  is_empty old_fp = false ->
  locate old_fp = Some ks ->
  files f !! ks = Some c ->
  let out := try_move env old_fp name f n in
  locate out.1.1 = Some kd ->
  replace env old_fp out.1.1 f = inr f1 ->
  out.1.2 = {| files := <[kd := c]> (delete ks (files f)); dirs := dirs f |}.
Proof.
  intros He Hks Hc. rewrite try_move_eq.
  rewrite He, (path_exists_file env f old_fp ks c) by done. cbn [negb andb fst snd].
  intros Hkd Hmove. rewrite Hmove.
  exact (replace_file env old_fp _ f f1 ks kd c Hks Hkd Hc Hmove).
Qed.

(** A move that does not raise leaves the tree it makes. *)
Lemma try_move_result old_fp name f n f1 :
  is_empty old_fp = false ->
  path_exists env f old_fp = true ->
  let out := try_move env old_fp name f n in
  replace env old_fp out.1.1 f = inr f1 ->
  out.1.2 = f1.
Proof.
  intros He Hx. rewrite try_move_eq. rewrite He, Hx. cbn [negb andb fst snd].
  by intros ->.
Qed.

(** Nothing to move, or a move that raises: the tree stays. *)
Lemma try_move_kept old_fp name f n :
  let out := try_move env old_fp name f n in
  is_empty old_fp = true \/ path_exists env f old_fp = false
  \/ (exists e, replace env old_fp out.1.1 f = inl e) ->
  out.1.2 = f.
Proof.
  rewrite try_move_eq.
  destruct (is_empty old_fp) eqn:He; [done|]. cbn [negb andb].
  destruct (path_exists env f old_fp) eqn:Hx; [|done]. cbn [fst snd].
  intros [?|[?|[e Hraise]]]; [done..|]. by rewrite Hraise.
Qed.

Lemma rename_dir_keeps ks kd f kn c0 :
  files f !! kn = Some c0 ->
  below ks kn = None ->
  (forall k rest, below ks k = Some rest -> rebase ks kd k <> kn) ->
  files (rename_dir ks kd f) !! kn = Some c0.
Proof.
  intros Hc0 Hkn Hfresh. unfold rename_dir. cbn [files].
  apply elem_of_list_to_map_1'.
  - intros y Hy. apply list_elem_of_In, in_map_iff in Hy as ([k c] & [= Hk <-] & Hin).
    apply list_elem_of_In, elem_of_map_to_list in Hin. cbn [fst snd] in *.
    destruct (below ks k) as [rest|] eqn:Hb; [by destruct (Hfresh k rest Hb)|].
    unfold rebase in Hk. rewrite Hb in Hk. subst k. congruence.
  - apply list_elem_of_In, in_map_iff. exists (kn, c0). split.
    + cbn [fst snd]. unfold rebase. by rewrite Hkn.
    + by apply list_elem_of_In, elem_of_map_to_list.
Qed.

(** A directory that moves to a stamped name under [general] takes
    no file named [general/<name>] with it. *)
Lemma replace_dir_keeps src f f1 ks kn stamp name c0 :
  let dst := "general/" ++ stamp ++ "_" ++ name in
  forallb (fun c => negb (Text.is_char "/" c)) (Text.of_string name) = true ->
  kn = "general" \/ kn = "general/" ++ name ->
  locate src = Some ks ->
  locate dst = Some dst ->
  files f !! ks = None ->
  files f !! kn = Some c0 ->
  replace env src dst f = inr f1 ->
  files f1 !! kn = Some c0.
Proof.
  intros dst Hname Hkn Hks Hdst Hnone Hc0. unfold replace. rewrite Hks, Hdst, Hnone.
  destruct (replace_error env src dst); [discriminate|].
  destruct (negb (is_dir f ks) || is_empty ks || is_file f dst || negb (is_dir f (parent dst)))
    eqn:Hcond; [discriminate|].
  destruct (String.eqb ks dst); [by intros [= <-]|].
  destruct (bool_decide (is_Some (below ks dst)) || occupied f dst) eqn:Hfree; [discriminate|].
  intros [= <-]. apply orb_false_iff in Hfree as [Hbelow _].
  apply bool_decide_eq_false in Hbelow.
  assert (is_empty ks = false) as Hroot.
  { destruct (is_empty ks); [|done]. by rewrite orb_true_r in Hcond. }
  assert (String.length kn < String.length dst)%nat as Hshort.
  { subst dst. destruct Hkn as [-> | ->]; rewrite !length_append; simpl; lia. }
  apply rename_dir_keeps; [done| |].
  - destruct (below ks kn) as [rest|] eqn:Hb; [exfalso|done].
    apply below_inv in Hb as [->|[->|Hb]]; [congruence|done|].
    destruct Hkn as [-> | ->].
    + assert (forallb (fun c => negb (Text.is_char "/" c)) (Text.of_string "general") = true)
        as Hplain by reflexivity.
      rewrite Hb, forallb_app in Hplain. cbn in Hplain. by rewrite andb_false_r in Hplain.
    + rewrite of_string_app in Hb.
      change (Text.of_string "general/") with (Text.of_string "general" ++ ["/"%char])%list in Hb.
      rewrite <- app_assoc in Hb. cbn [app] in Hb.
      apply slash_unique in Hb as [Hb _]; [|reflexivity|done].
      apply (f_equal Text.to_string) in Hb. rewrite to_of_string in Hb.
      change (Text.to_string (Text.of_string "general")) with "general" in Hb. subst ks.
      apply Hbelow. subst dst. unfold below. cbn. by eexists.
  - intros k rest Hk E. apply (f_equal String.length) in E. unfold rebase in E.
    rewrite Hk in E. destruct rest; [lia|]. rewrite !length_append in E. lia.
Qed.

(** The file a move collides with is not overwritten: its content is
    where it was, or, when it is itself the file moved, at the
    destination. *)
Lemma try_move_keeps_collider old_fp f n kn ks c0 :
  locate ("general/" ++ basename old_fp) = Some kn ->
  files f !! kn = Some c0 ->
  locate old_fp = Some ks ->
  let out := try_move env old_fp (basename old_fp) f n in
  files out.1.2 !! kn = Some c0
  \/ (ks = kn /\ exists kd, locate out.1.1 = Some kd /\ files out.1.2 !! kd = Some c0).
Proof.
  intros Hkn Hc0 Hks. rewrite try_move_eq.
  destruct (negb (is_empty old_fp) && path_exists env f old_fp) eqn:Hthere; [|by left].
  rewrite (path_exists_file env f _ kn c0) by done. cbn [fst snd].
  destruct (located_general_child _ _ (basename_plain old_fp) Hkn) as [Hnul Hkn'].
  set (dst := "general/" ++ pretty (clock env n) ++ "_" ++ basename old_fp).
  assert (locate dst = Some dst) as Hdst by (apply locate_stamped; [apply basename_plain | done]).
  assert (dst <> kn) as Hne.
  { rewrite Hkn'. destruct (_ || _); [apply prefixed_ne_general | apply prefixed_ne]. }
  destruct (replace env old_fp dst f) as [e|f1] eqn:Hmove; [by left|].
  destruct (files f !! ks) as [c|] eqn:Hc.
  - apply (replace_file env old_fp dst f f1 ks dst c Hks Hdst Hc) in Hmove. subst f1.
    cbn [files].
    destruct (decide (ks = kn)) as [->|Hother].
    + right. split; [done|]. exists dst. split; [done|]. rewrite lookup_insert_eq. congruence.
    + left. rewrite lookup_insert_ne by done. by rewrite lookup_delete_ne.
  - left. apply (replace_dir_keeps old_fp f f1 ks kn (pretty (clock env n)) (basename old_fp));
      try done; [apply basename_plain|].
    rewrite Hkn'. destruct (_ || _); [by left | by right].
Qed.

(** [old_name]: the last component of the path, or a reading of the
    clock when the row names no file. *)
Lemma old_name_of_eq slug ph n :
  let src := old_fp_of slug ph in
  if is_empty src
  then (old_name_of env src ph n).1 = pretty (clock env n) ++ ".jpg"
  else (old_name_of env src ph n).1 = basename src.
Proof.
  unfold old_name_of, old_fp_of.
  destruct (is_empty (strip (or_empty (ph_filepath ph)))) eqn:Hrec; cbn [andb].
  - destruct (is_empty (or_empty (ph_filename ph))) eqn:Hfn; cbn [negb].
    + by rewrite Hrec.
    + assert (is_empty (slug ++ "/" ++ or_empty (ph_filename ph)) = false) as ->
        by (by destruct slug).
      done.
  - by rewrite Hrec.
Qed.

Lemma mkdir_general f :
  mkdir "general" f = {| files := files f; dirs := {["general"]} ∪ dirs f |}.
Proof.
  unfold mkdir. change (locate "general") with (Some "general").
  change (ancestry "general") with ["general"]. cbn [list_to_set].
  by rewrite (right_id_L ∅ (∪)).
Qed.

End TryMove.

Section RelocationLoop.

Variable env : Env.
Variable general_id : Z.
Variable slug : string.

Local Abbreviation step := (relocate_photo env general_id slug).

Lemma NoDup_map_filter {A} (key : A -> Z) (keep : A -> bool) (l : list A) :
  NoDup (map key l) -> NoDup (map key (List.filter keep l)).
Proof.
  induction l as [|x l IH]; [done|]. cbn [map List.filter].
  intros [Hx Hl]%NoDup_cons. destruct (keep x); [|by apply IH].
  cbn [map]. apply NoDup_cons. split; [|by apply IH].
  intros Hin. apply Hx. apply list_elem_of_In, in_map_iff in Hin as (y & E & Hy).
  apply filter_In in Hy as [Hy _]. apply list_elem_of_In, in_map_iff. eauto.
Qed.

Lemma photo_by_id_self d ph :
  NoDup (map ph_id (photos d)) -> ph ∈ photos d -> photo_by_id d (ph_id ph) = Some ph.
Proof.
  intros Hk Hin. unfold photo_by_id.
  destruct (List.find _ _) as [row|] eqn:E.
  - apply find_some in E as [Hrow E]. f_equal.
    apply (key_unique ph_id (photos d)); [done | by apply list_elem_of_In | done | lia].
  - apply list_elem_of_In in Hin. apply (find_none _ _ E) in Hin.
    by rewrite Z.eqb_refl in Hin.
Qed.

(** The row of a photo of the snapshot once the loop is through: the
    one its own turn wrote. *)
Lemma relocate_row_final pre ph post st row :
  NoDup (map ph_id (pre ++ ph :: post)) ->
  photo_by_id (db (l_world st)) (ph_id ph) = Some row ->
  photo_by_id (db (l_world (fold_left step (pre ++ ph :: post) st))) (ph_id ph)
  = Some (relocated row general_id (destination env slug (fold_left step pre st) ph)).
Proof.
  rewrite map_app. cbn [map]. intros (_ & Hpre & Hpost)%NoDup_app Hrow.
  apply NoDup_cons in Hpost as [Hpost _].
  rewrite fold_left_app. cbn [fold_left].
  rewrite relocate_all_row_other.
  2:{ intros x Hx E. apply Hpost. rewrite <- E.
      by apply list_elem_of_In, in_map, list_elem_of_In. }
  rewrite relocate_photo_row, Z.eqb_refl, relocate_all_row_other; [by rewrite Hrow|].
  intros x Hx E. apply (Hpre (ph_id x)).
  - by apply list_elem_of_In, in_map, list_elem_of_In.
  - rewrite E. by left.
Qed.

Lemma relocation_state_next snapshot w i ph :
  snapshot !! i = Some ph ->
  relocation_state env general_id slug snapshot w (S i)
  = step (relocation_state env general_id slug snapshot w i) ph.
Proof.
  intros Hi. unfold relocation_state.
  by rewrite (take_S_r _ _ _ Hi), fold_left_app.
Qed.

Lemma photo_by_id_set_projects l d i :
  photo_by_id (set_projects l d) i = photo_by_id d i.
Proof. reflexivity. Qed.

Lemma relocation_state_last snapshot w :
  relocation_state env general_id slug snapshot w (length snapshot)
  = fold_left step snapshot {| l_world := set_fs (mkdir "general" (fs w)) w; l_reads := 0 |}.
Proof. unfold relocation_state. by rewrite firstn_all. Qed.

End RelocationLoop.

(** C1. When an administrator deletes an existing project whose slug
    is not [general], the directory [general] is made sure of and every
    photo of the project takes its turn in the loop.  The file of a
    photo is the one at its recorded path or, when none is recorded,
    at [<slug>/<file name>]; its name is the last component of that
    path, or a reading of the clock with [.jpg] when the row names no
    file.  The row ends with the default project as its project and
    with the path and file name of its destination under [general/],
    whether or not a file was moved.  The destination is
    [general/<name>], or [general/<time>_<name>] when something is at
    the path of the file and [general/<name>] is taken.  When
    something is at the path and the move does not raise, the tree is
    the one the move leaves: a regular file is at the destination
    afterwards and gone from its old path.  Otherwise the tree is as
    before.  In no case is the content found at [general/<name>] lost.
    The rows of other projects stay, and the project row is deleted. *)
Theorem delete_project_relocates (env : Env) (u : User) (project_id : Z) (w : World)
    (proj general : Project) :
  u_is_admin u = true ->
  project_by_id (db w) project_id = Some proj ->
  pr_slug proj <> "general" ->
  project_by_slug (db w) "general" = Some general ->
  NoDup (map ph_id (photos (db w))) ->
  let r := admin_delete_project env (Some u) project_id w in
  let snapshot := photos_of_project (db w) project_id in
  let state := relocation_state env (pr_id general) (pr_slug proj) snapshot w in
  (response r = Redirect ep_admin_panel
   /\ flashed r = [("Proyecto eliminado. Las fotos se movieron a General.", "success")])
  /\ project_by_id (db (world r)) project_id = None
  /\ map ph_id (photos (db (world r))) = map ph_id (photos (db w))
  /\ (forall row, row ∈ photos (db w) -> ph_project_id row <> Some project_id ->
      photo_by_id (db (world r)) (ph_id row) = Some row)
  /\ (forall ph, ph ∈ photos (db w) -> ph_project_id ph = Some project_id ->
      exists i, snapshot !! i = Some ph)
  /\ fs (l_world (state O)) = {| files := files (fs w); dirs := {["general"]} ∪ dirs (fs w) |}
  /\ fs (world r) = fs (l_world (state (length snapshot)))
  /\ (forall i ph, snapshot !! i = Some ph ->
      let before := fs (l_world (state i)) in
      let after := fs (l_world (state (S i))) in
      let recorded := strip (or_empty (ph_filepath ph)) in
      let fallback := or_empty (ph_filename ph) in
      let src := if is_empty recorded && negb (is_empty fallback)
                 then pr_slug proj ++ "/" ++ fallback
                 else recorded in
      exists name dst,
        (if is_empty src
         then exists k, name = pretty (clock env k) ++ ".jpg"
         else name = basename src)
        /\ photo_by_id (db (world r)) (ph_id ph) = Some (relocated ph (pr_id general) dst)
        /\ (if negb (is_empty src) && path_exists env before src
               && path_exists env before ("general/" ++ name)
            then exists k, dst = "general/" ++ pretty (clock env k) ++ "_" ++ name
                           /\ dst <> "general/" ++ name
            else dst = "general/" ++ name)
        /\ (forall f1, is_empty src = false -> path_exists env before src = true ->
            replace env src dst before = inr f1 -> after = f1)
        /\ (forall ks kd c f1, is_empty src = false ->
            locate src = Some ks -> files before !! ks = Some c ->
            locate dst = Some kd -> replace env src dst before = inr f1 ->
            files after = <[kd := c]> (delete ks (files before))
            /\ dirs after = dirs before)
        /\ (is_empty src = true \/ path_exists env before src = false
            \/ (exists e, replace env src dst before = inl e) ->
            after = before)
        /\ (forall ks kn c0, locate src = Some ks ->
            locate ("general/" ++ name) = Some kn -> files before !! kn = Some c0 ->
            files after !! kn = Some c0
            \/ (ks = kn
                /\ exists kd, locate dst = Some kd /\ files after !! kd = Some c0))).
Proof.
  intros Hu Hproj Hslug Hgen Hkeys r snapshot state.
  assert (r = reply (Redirect ep_admin_panel)
                (set_db (set_projects
                           (List.filter (fun p => negb (pr_id p =? project_id))
                              (projects (db (l_world (state (length snapshot))))))
                           (db (l_world (state (length snapshot)))))
                   (l_world (state (length snapshot))))
                [("Proyecto eliminado. Las fotos se movieron a General.", "success")]) as Hr.
  { subst r. unfold admin_delete_project, admin_required.
    rewrite admin_gate_admin by done. unfold guarded, delete_project_view.
    rewrite Hproj. apply String.eqb_neq in Hslug. rewrite Hslug, Hgen.
    unfold state. by rewrite relocation_state_last. }
  assert (forall ph, ph ∈ snapshot -> ph ∈ photos (db w) /\ ph_project_id ph = Some project_id)
    as Hsnap.
  { intros ph Hph. apply list_elem_of_In, filter_In in Hph as [Hin Hp].
    split; [by apply list_elem_of_In | by apply bool_decide_eq_true in Hp]. }
  assert (NoDup (map ph_id snapshot)) as Hsnapkeys by (by apply NoDup_map_filter).
  rewrite Hr. cbn [response flashed world reply set_db set_projects db fs photos projects].
  assert (forall i, photo_by_id
                      (set_projects
                         (List.filter (fun p => negb (pr_id p =? project_id))
                            (projects (db (l_world (state (length snapshot))))))
                         (db (l_world (state (length snapshot))))) i
                    = photo_by_id (db (l_world (state (length snapshot)))) i) as Hrows
    by (intros; apply photo_by_id_set_projects).
  split; [done|]. split; [apply (find_filter_out (fun p => pr_id p =? project_id))|].
  split.
  { unfold state. rewrite relocation_state_last. by rewrite relocate_all_ids. }
  split.
  { intros row Hrow Hother. rewrite Hrows. unfold state. rewrite relocation_state_last.
    rewrite relocate_all_row_other; [by apply photo_by_id_self|].
    intros ph Hph E. destruct (Hsnap ph Hph) as [Hin Hp].
    assert (ph = row) as -> by (by apply (key_unique ph_id (photos (db w)))).
    done. }
  split.
  { intros ph Hin Hp. apply list_elem_of_lookup, list_elem_of_In, filter_In.
    split; [by apply list_elem_of_In | by apply bool_decide_eq_true]. }
  split; [apply mkdir_general|]. split; [done|].
  intros i ph Hi.
  change (if is_empty (strip (or_empty (ph_filepath ph)))
             && negb (is_empty (or_empty (ph_filename ph)))
          then pr_slug proj ++ "/" ++ or_empty (ph_filename ph)
          else strip (or_empty (ph_filepath ph)))
    with (old_fp_of (pr_slug proj) ph).
  set (src := old_fp_of (pr_slug proj) ph).
  set (before := fs (l_world (state i))). set (after := fs (l_world (state (S i)))).
  set (name := (old_name_of env src ph (l_reads (state i))).1).
  exists name, (destination env (pr_slug proj) (state i) ph).
  assert (ph ∈ snapshot) as Hph by (apply list_elem_of_lookup; eauto).
  destruct (Hsnap ph Hph) as [Hin _].
  assert (if is_empty src then name = pretty (clock env (l_reads (state i))) ++ ".jpg"
          else name = basename src) as Hname
    by apply (old_name_of_eq env (pr_slug proj) ph).
  split.
  { destruct (is_empty src); [by eexists | done]. }
  split.
  { rewrite Hrows. unfold state at 1. rewrite relocation_state_last.
    rewrite <- (take_drop_middle snapshot i ph Hi) at 1.
    erewrite relocate_row_final.
    - reflexivity.
    - by rewrite (take_drop_middle snapshot i ph Hi).
    - by apply photo_by_id_self. }
  assert (after
          = (try_move env src name before
               (old_name_of env src ph (l_reads (state i))).2).1.2) as Hafter.
  { unfold after, state. erewrite relocation_state_next by done.
    by rewrite relocate_photo_files. }
  split; [apply (try_move_destination env src name before)|].
  split; [|split; [|split]].
  - intros f1 He Hx Hmove. rewrite Hafter. by apply try_move_result.
  - intros ks kd c f1 He Hks Hc Hkd Hmove. rewrite Hafter.
    by rewrite (try_move_moved env src name before _ ks kd c f1).
  - intros Hcase. rewrite Hafter. by apply try_move_kept.
  - intros ks kn c0 Hks Hkn Hc0. rewrite Hafter.
    destruct (is_empty src) eqn:He.
    + left. rewrite try_move_kept by (by left). done.
    + change (destination env (pr_slug proj) (state i) ph)
        with (try_move env src name before
                (old_name_of env src ph (l_reads (state i))).2).1.1.
      revert Hkn. rewrite Hname. intros Hkn. by apply try_move_keeps_collider.
Qed.

Lemma delete_project_relocates_witness :
  let r := admin_delete_project Sample.env (Some Sample.admin) 2 Sample.store in
  let after_first :=
    relocation_state Sample.env 1 "roof_a" [Sample.panel; Sample.gutter] Sample.store 1 in
  project_by_id (db (world r)) 2 = None
  /\ photo_by_id (db (world r)) 1 = Some (relocated Sample.panel 1 "general/panel_1.jpg")
  /\ files (fs (l_world after_first))
     = {[ "general/panel_1.jpg" := "JPEG-1"; "roof_a/gutter.jpg" := "JPEG-2" ]}.
Proof.
  intros r after_first.
  destruct (delete_project_relocates Sample.env Sample.admin 2 Sample.store
              Sample.roof Sample.general)
    as (_ & Hgone & _ & _ & _ & _ & _ & Hturn);
    [reflexivity | reflexivity | discriminate | reflexivity | |].
  { apply NoDup_ListNoDup. repeat constructor; simpl; intuition discriminate. }
  split; [exact Hgone|].
  destruct (Hturn O Sample.panel eq_refl) as (name & dst & Hname & Hrow & Hdst & _ & Hmoved & _).
  cbv zeta in Hname, Hdst, Hmoved.
  change (is_empty _) with false in Hname. cbv iota in Hname.
  change (basename _) with "panel_1.jpg" in Hname. subst name.
  change (negb _ && path_exists _ _ _ && path_exists _ _ _) with false in Hdst.
  cbv iota in Hdst. subst dst.
  split; [exact Hrow|].
  change (files (fs (l_world after_first)))
    with (files (fs (l_world (relocation_state Sample.env (pr_id Sample.general)
                                (pr_slug Sample.roof)
                                (photos_of_project (db Sample.store) 2) Sample.store 1)))).
  destruct (Hmoved "roof_a/panel_1.jpg" "general/panel_1.jpg" "JPEG-1"
              {| files := {[ "general/panel_1.jpg" := "JPEG-1"; "roof_a/gutter.jpg" := "JPEG-2" ]};
                 dirs := {[ "general"; "roof_a" ]} |}) as [-> _];
    [reflexivity | reflexivity | reflexivity | reflexivity | |].
  - vm_compute. reflexivity.
  - apply map_eq. intros p. vm_compute. reflexivity.
Defined.

(** A row whose path names the directory of its project: the loop
    renames the directory, with all its files, to a stamped name under
    [general], and the row records that name. *)
Example delete_project_directory_row :
  let r := admin_delete_project Sample.env (Some Sample.admin) 2 Sample.store_with_folder in
  photo_by_id (db (world r)) 4
  = Some (relocated Sample.folder 1 "general/1700000000_")
  /\ files (fs (world r)) !! "roof_a/panel_1.jpg" = None
  /\ files (fs (world r)) !! "general/1700000000_/panel_1.jpg" = Some "JPEG-1".
Proof. vm_compute. done. Qed.

(** ** Listing *)

Section Like.
Import Text Sql Described.

(** [%] at the head of a pattern: match here, or one character on. *)
Lemma like_percent p t :
  like_chars ("%"%char :: p) t
  = like_chars p t
    || match t with
       | [] => false
       | _ :: t' => like_chars ("%"%char :: p) t'
       end.
Proof. by destruct t. Qed.

Lemma like_percent_only t : like_chars ["%"%char] t = true.
Proof.
  induction t as [|d t IH]; [reflexivity|].
  rewrite like_percent. by rewrite IH, orb_true_r.
Qed.

Lemma code_bounded c : (code c < 256)%N.
Proof. apply N_ascii_bounded. Qed.

Lemma code_fold_char c :
  code (fold_char c) = if in_range 65 90 c then (code c + 32)%N else code c.
Proof.
  unfold fold_char. destruct (in_range 65 90 c) eqn:E; [|reflexivity].
  unfold in_range in E. apply andb_true_iff in E as [_ E%N.leb_le].
  unfold code in *. rewrite N_ascii_embedding; lia.
Qed.

Lemma code_lower_char c :
  code (lower_char c)
  = if in_range 65 90 c || (in_range 192 222 c && negb (code c =? 215)%N)
    then (code c + 32)%N else code c.
Proof.
  unfold lower_char. destruct (_ || _) eqn:E; [|reflexivity].
  assert (code c <= 222)%N as Hc.
  { unfold in_range in E.
    apply orb_true_iff in E as [E|E]; apply andb_true_iff in E as [E1 E2].
    - apply N.leb_le in E2. lia.
    - apply andb_true_iff in E1 as [_ E1%N.leb_le]. lia. }
  unfold code in *. rewrite N_ascii_embedding; lia.
Qed.

(** SQLite folds the letters of ASCII only; for a character of ASCII
    on one side that is the comparison without regard to case. *)
Lemma same_char_letter c d :
  (code c <? 128)%N = true -> same_char c d = same_letter c d.
Proof.
  intros Hc%N.ltb_lt. unfold same_char, same_letter, is_char.
  rewrite !code_fold_char, !code_lower_char. unfold in_range.
  pose proof (code_bounded d) as Hd.
  repeat match goal with
         | |- context [(?x <=? ?y)%N] => destruct (N.leb_spec x y)
         end;
    repeat match goal with
           | |- context [(code ?x =? 215)%N] => destruct (N.eqb_spec (code x) 215)
           end;
    cbn [andb orb negb];
    repeat match goal with
           | |- context [(?x =? ?y)%N] => destruct (N.eqb_spec x y)
           end; try reflexivity; lia.
Qed.

Lemma plain_inv c :
  plain c = true ->
  is_char "%" c = false /\ is_char "_" c = false
  /\ (code c =? 0)%N = false /\ (code c <? 128)%N = true.
Proof.
  unfold plain, wildcard. intros [[Hw Hz%N.ltb_lt]%andb_true_iff Ha]%andb_true_iff.
  apply negb_true_iff, orb_false_iff in Hw as [? ?].
  repeat split; try done. apply N.eqb_neq. lia.
Qed.

Lemma like_prefix q t :
  forallb plain q = true ->
  like_chars (q ++ ["%"%char]) t = prefix_ci q t.
Proof.
  revert t. induction q as [|c q IH]; intros t Hq.
  - cbn [app prefix_ci]. apply like_percent_only.
  - cbn [forallb] in Hq. apply andb_true_iff in Hq as [Hc Hq].
    apply plain_inv in Hc as (Hc1 & Hc2 & _ & Hc3).
    cbn [app like_chars prefix_ci]. rewrite Hc1, Hc2.
    destruct t as [|d t]; [reflexivity|]. cbn [orb].
    by rewrite IH, same_char_letter.
Qed.

Lemma like_contains q t :
  forallb plain q = true ->
  like_chars ("%"%char :: q ++ ["%"%char]) t = contains_ci q t.
Proof.
  intros Hq. induction t as [|d t IH].
  - rewrite like_percent, like_prefix by done. by destruct q.
  - rewrite like_percent, like_prefix, IH by done. reflexivity.
Qed.

(** A text without a NUL character is read whole. *)
Lemma until_nul_whole l :
  forallb (fun c => (0 <? code c)%N) l = true -> until_nul l = l.
Proof.
  induction l as [|c l IH]; [done|]. cbn [forallb until_nul].
  intros [Hc%N.ltb_lt Hl]%andb_true_iff.
  destruct (N.eqb_spec (code c) 0); [lia|]. by rewrite IH.
Qed.

Lemma plain_nul_free q :
  forallb plain q = true -> forallb (fun c => (0 <? code c)%N) q = true.
Proof.
  induction q as [|c q IH]; [done|]. cbn [forallb].
  intros [Hc Hq]%andb_true_iff. rewrite IH by done.
  unfold plain in Hc. apply andb_true_iff in Hc as [[_ ->]%andb_true_iff _]. done.
Qed.

(** For a query of plain characters and a text without NUL,
    [text LIKE '%q%'] is containment without regard to case. *)
Lemma like_is_contains q text :
  forallb plain (of_string q) = true ->
  nul_free (or_empty text) = true ->
  like text ("%" ++ q ++ "%") = contains q text.
Proof.
  intros Hq Ht. destruct text as [t|]; [|reflexivity]. unfold like, contains.
  change ("%" ++ q ++ "%") with (String "%" (q ++ "%")).
  cbn [of_string list_ascii_of_string].
  fold (of_string (q ++ "%")). rewrite of_string_app.
  change (of_string "%") with ["%"%char].
  rewrite (until_nul_whole (of_string t)) by exact Ht.
  rewrite (until_nul_whole ("%"%char :: _)).
  - by apply like_contains.
  - cbn [forallb]. rewrite forallb_app, plain_nul_free by done. reflexivity.
Qed.

End Like.

Section Days.
Import Described.

Lemma digit_range c z : digit c = Some z -> 0 <= z <= 9.
Proof.
  unfold digit, Text.in_range. destruct (_ && _) eqn:E; [|discriminate].
  intros [= <-]. apply andb_true_iff in E as [?%N.leb_le ?%N.leb_le]. lia.
Qed.

(** The day of a timestamp is written with four, two and two digits. *)
Lemma day_of_in_format s u : day_of s = Some u -> in_format u.
Proof.
  unfold day_of. intros Hu.
  repeat (case_match; try discriminate). simplify_option_eq.
  repeat match goal with
         | E : digit _ = Some _ |- _ => apply digit_range in E
         end.
  unfold in_format. cbn [year month day]. lia.
Qed.

Lemma digit_char_compare x y :
  Ascii.compare (digit_char x) (digit_char y) = (x mod 10 ?= y mod 10).
Proof.
  unfold Ascii.compare, digit_char.
  pose proof (Z.mod_pos_bound x 10 eq_refl). pose proof (Z.mod_pos_bound y 10 eq_refl).
  rewrite !N_ascii_embedding by lia.
  rewrite Z2N.inj_compare by lia. apply Z.add_compare_mono_l.
Qed.

Lemma four_digits n :
  0 <= n <= 9999 ->
  n = 1000 * ((n / 1000) mod 10) + 100 * ((n / 100) mod 10) + 10 * ((n / 10) mod 10) + n mod 10.
Proof. intros Hn. Z.div_mod_to_equations. lia. Qed.

Lemma two_digits n : 0 <= n <= 99 -> n = 10 * ((n / 10) mod 10) + n mod 10.
Proof. intros Hn. Z.div_mod_to_equations. lia. Qed.

(** The order of the texts [YYYY-MM-DD] is the order of the days. *)
Lemma leb_iso a b : in_format a -> in_format b -> String.leb (iso a) (iso b) = day_le a b.
Proof.
  intros (Hya & Hma & Hda) (Hyb & Hmb & Hdb).
  unfold iso, String.leb. cbn [Text.to_string string_of_list_ascii String.compare].
  rewrite !digit_char_compare. change (Ascii.compare "-" "-") with Eq. cbv iota.
  pose proof (four_digits _ Hya) as Ea. pose proof (four_digits _ Hyb) as Eb.
  pose proof (two_digits _ Hma) as Fa. pose proof (two_digits _ Hmb) as Fb.
  pose proof (two_digits _ Hda) as Ga. pose proof (two_digits _ Hdb) as Gb.
  unfold day_le.
  repeat match goal with
         | |- context [?x mod 10] =>
             let d := fresh "d" in
             pose proof (Z.mod_pos_bound x 10 eq_refl); set (d := x mod 10) in *; clearbody d
         end.
  repeat match goal with
         | |- context [?x ?= ?y] => destruct (Z.compare_spec x y)
         end;
    repeat match goal with
           | |- context [?x <? ?y] => destruct (Z.ltb_spec x y)
           | |- context [?x =? ?y] => destruct (Z.eqb_spec x y)
           | |- context [?x <=? ?y] => destruct (Z.leb_spec x y)
           end; cbn [andb orb]; try reflexivity; lia.
Qed.

End Days.

Section Listing.
Context `{SQLite}.

(** On the requests that carry the filters [f], the [WHERE] clause
    selects what the filters describe. *)
Lemma where_clause_selected a f p :
  sends a f ->
  (forall q, Described.by_text f = Some q ->
     forallb Described.plain (Text.of_string q) = true
     /\ Described.nul_free (ph_display_name p) = true
     /\ Described.nul_free (or_empty (ph_description p)) = true) ->
  (is_Some (Described.day_from f) \/ is_Some (Described.day_to f) -> dated p) ->
  where_clause a p = Described.selected f p.
Proof.
  intros (Hq & Hp & Hfrom & Hto) Htext Hdated. unfold where_clause, Described.selected.
  f_equal; [f_equal; [f_equal|]|].
  - destruct (Described.by_text f) as [q|].
    + destruct Hq as [Hne ->]. destruct (Htext _ eq_refl) as (Hplain & Hn & Hd).
      assert (is_empty q = false) as -> by (by destruct q).
      cbn [orb]. by rewrite !like_is_contains.
    + by rewrite Hq.
  - destruct (Described.by_project f) as [i|].
    + destruct Hp as [Hne ->].
      by assert (is_empty (strip (arg_project_id a)) = false) as ->
        by (by destruct (strip (arg_project_id a))).
    + by rewrite Hp.
  - destruct (Described.day_from f) as [d|] eqn:Ed.
    + destruct Hfrom as (Hd & -> & Hdate). rewrite Hdate.
      destruct Hdated as (u & Hu & ->); [left; by eexists|]. rewrite Hu.
      assert (is_empty (iso d) = false) as -> by reflexivity.
      cbn [orb Sql.date_ge]. apply leb_iso; [done | by eapply day_of_in_format].
    + by rewrite Hfrom.
  - destruct (Described.day_to f) as [d|] eqn:Ed.
    + destruct Hto as (Hd & -> & Hdate). rewrite Hdate.
      destruct Hdated as (u & Hu & ->); [right; by eexists|]. rewrite Hu.
      assert (is_empty (iso d) = false) as -> by reflexivity.
      cbn [orb Sql.date_ge]. apply leb_iso; [by eapply day_of_in_format | done].
    + by rewrite Hto.
Qed.

Lemma filter_key_le_1 (l : list Project) (i : Z) :
  NoDup (map pr_id l) ->
  match List.filter (fun pr => bool_decide (Some i = Some (pr_id pr))) l with
  | [] => List.find (fun pr => pr_id pr =? i) l = None
  | [pr] => List.find (fun pr => pr_id pr =? i) l = Some pr
  | _ => False
  end.
Proof.
  induction l as [|x l IH]; [done|]. cbn [map List.filter List.find].
  intros [Hx Hl]%NoDup_cons. specialize (IH Hl).
  case_bool_decide as E.
  - injection E as ->. rewrite Z.eqb_refl.
    destruct (List.filter _ l) as [|y l'] eqn:Ef; [done|].
    assert (In y (List.filter (fun pr => bool_decide (Some (pr_id x) = Some (pr_id pr))) l))
      as Hy by (rewrite Ef; by left).
    apply filter_In in Hy as [Hy Ey]. apply bool_decide_eq_true in Ey.
    injection Ey as Ey. destruct Hx. rewrite Ey.
    by apply list_elem_of_In, in_map.
  - assert ((pr_id x =? i) = false) as -> by (apply Z.eqb_neq; congruence). exact IH.
Qed.

Lemma joined_rows d p :
  NoDup (map pr_id (projects d)) ->
  match List.filter (fun pr => bool_decide (ph_project_id p = Some (pr_id pr))) (projects d) with
  | [] => [(p, None)]
  | l => map (fun pr => (p, Some (pr_name pr))) l
  end
  = [(p, pr_name <$> (ph_project_id p ≫= project_by_id d))].
Proof.
  intros Hk. destruct (ph_project_id p) as [i|].
  - pose proof (filter_key_le_1 (projects d) i Hk) as Hf.
    cbn [mbind option_bind]. unfold project_by_id.
    destruct (List.filter _ (projects d)) as [|pr [|pr' l]]; [by rewrite Hf | by rewrite Hf | done].
  - destruct (List.filter _ (projects d)) as [|pr l] eqn:E; [reflexivity|].
    assert (In pr (pr :: l)) as Hin by (by left). rewrite <- E in Hin.
    apply filter_In in Hin as [_ Hin]. by apply bool_decide_eq_true in Hin.
Qed.

Lemma flat_map_singleton {A B} (F : A -> list B) (G : A -> B) (l : list A) :
  (forall x, F x = [G x]) -> flat_map F l = map G l.
Proof.
  intros HF. induction l as [|x l IH]; [done|].
  simpl. by rewrite HF, IH.
Qed.

(** With a key on [projects], the join has one row for each photo,
    carrying the name of its project. *)
Lemma left_join_rows d :
  NoDup (map pr_id (projects d)) ->
  left_join d
  = map (fun p => (p, pr_name <$> (ph_project_id p ≫= project_by_id d))) (photos d).
Proof.
  intros Hk. unfold left_join. apply flat_map_singleton.
  intros p. by apply joined_rows.
Qed.

Lemma filter_rows {B} (keep : Photo -> bool) (g : Photo -> B) (l : list Photo) :
  List.filter (fun r => keep r.1) (map (fun p => (p, g p)) l)
  = map (fun p => (p, g p)) (List.filter keep l).
Proof.
  induction l as [|p l IH]; [done|]. cbn [map List.filter fst].
  destruct (keep p); cbn [map]; by rewrite IH.
Qed.

#[global] Instance id_desc_total : Total id_desc.
Proof. intros a b. unfold id_desc. lia. Qed.

#[global] Instance id_desc_trans : Transitive id_desc.
Proof. intros a b c. unfold id_desc. lia. Qed.

(** The listing with a key on [projects], on a request that carries
    the filters [f]. *)
Lemma list_photos_selected a f d :
  NoDup (map pr_id (projects d)) ->
  sends a f ->
  (forall q, Described.by_text f = Some q ->
     forallb Described.plain (Text.of_string q) = true
     /\ forall p, p ∈ photos d ->
          Described.nul_free (ph_display_name p) = true
          /\ Described.nul_free (or_empty (ph_description p)) = true) ->
  (is_Some (Described.day_from f) \/ is_Some (Described.day_to f) ->
   forall p, p ∈ photos d -> dated p) ->
  list_photos a d
  = merge_sort id_desc
      (map (fun p => (p, pr_name <$> (ph_project_id p ≫= project_by_id d)))
         (List.filter (Described.selected f) (photos d))).
Proof.
  intros Hk Hsends Htext Hdated. unfold list_photos. rewrite left_join_rows by done.
  rewrite filter_rows. f_equal. f_equal. apply filter_ext_in.
  intros p Hp%list_elem_of_In. apply where_clause_selected; [done| |].
  - intros q Hq. destruct (Htext q Hq) as [Hplain Hrows].
    destruct (Hrows p Hp). done.
  - intros Hbound. by apply Hdated.
Qed.

End Listing.




(** * Further properties *)

(** ** Tables with keys *)

Section Tables.

Lemma next_id_fresh ids seq i : i ∈ ids -> i < next_id ids seq.
Proof.
  unfold next_id. induction ids as [|j ids IH]; [by intros ?%elem_of_nil|].
  cbn [foldr]. intros [->|Hi]%elem_of_cons; [lia|]. specialize (IH Hi). lia.
Qed.

Lemma next_id_above_seq ids seq : seq < next_id ids seq.
Proof.
  unfold next_id. induction ids as [|j ids IH]; cbn [foldr]; lia.
Qed.

Lemma NoDup_map_snoc {A B} (key : A -> B) (l : list A) (x : A) :
  NoDup (map key l) -> key x ∉ map key l -> NoDup (map key (l ++ [x])).
Proof.
  intros Hl Hx. rewrite map_app. apply NoDup_app. split; [done|]. split.
  - intros k Hk [->|[]%elem_of_nil]%elem_of_cons. done.
  - apply NoDup_singleton.
Qed.

Lemma NoDup_map_filter_any {A B} (key : A -> B) (keep : A -> bool) (l : list A) :
  NoDup (map key l) -> NoDup (map key (List.filter keep l)).
Proof.
  induction l as [|x l IH]; [done|]. cbn [map List.filter].
  intros [Hx Hl]%NoDup_cons. destruct (keep x); [|by apply IH].
  cbn [map]. apply NoDup_cons. split; [|by apply IH].
  intros Hin. apply Hx. apply list_elem_of_In, in_map_iff in Hin as (y & E & Hy).
  apply filter_In in Hy as [Hy _]. apply list_elem_of_In, in_map_iff. eauto.
Qed.

Lemma key_not_in {A} (key : A -> Z) (l : list A) (k : Z) :
  (forall x, x ∈ l -> key x < k) -> k ∉ map key l.
Proof.
  intros Hl Hin. apply list_elem_of_In, in_map_iff in Hin as (x & E & Hx).
  apply list_elem_of_In, Hl in Hx. lia.
Qed.

Lemma fresh_key {A} (key : A -> Z) (l : list A) (seq : Z) :
  next_id (map key l) seq ∉ map key l.
Proof.
  apply key_not_in. intros x Hx. apply next_id_fresh.
  by apply list_elem_of_In, in_map, list_elem_of_In.
Qed.

Lemma existsb_eqb_false {A} (name : A -> string) (l : list A) (s : string) :
  existsb (fun x => String.eqb (name x) s) l = false -> s ∉ map name l.
Proof.
  intros E Hin. apply list_elem_of_In, in_map_iff in Hin as (x & <- & Hx).
  assert (existsb (fun y => String.eqb (name y) (name x)) l = true) as Ht.
  { apply existsb_exists. exists x. split; [done | apply String.eqb_refl]. }
  congruence.
Qed.

Lemma find_snoc_old {A} (test : A -> bool) (l : list A) (x y : A) :
  List.find test l = Some y -> List.find test (l ++ [x]) = Some y.
Proof.
  induction l as [|z l IH]; [discriminate|]. simpl. by destruct (test z).
Qed.

Lemma find_map_test {A} (test : A -> bool) (g : A -> A) (l : list A) :
  (forall x, test (g x) = test x) ->
  List.find test (map g l) = g <$> List.find test l.
Proof.
  intros Hg. induction l as [|x l IH]; [done|]. simpl. rewrite Hg.
  by destruct (test x).
Qed.

Lemma find_elem {A} (test : A -> bool) (l : list A) (x : A) :
  List.find test l = Some x -> x ∈ l /\ test x = true.
Proof. intros E. apply find_some in E as [Hx E]. split; [by apply list_elem_of_In | done]. Qed.

Lemma find_is_Some {A} (test : A -> bool) (l : list A) (x : A) :
  x ∈ l -> test x = true -> exists y, List.find test l = Some y.
Proof.
  intros Hx Ht. destruct (List.find test l) as [y|] eqn:E; [by exists y|].
  apply list_elem_of_In in Hx. apply (find_none _ _ E) in Hx. congruence.
Qed.

Lemma user_by_id_elem d i u : user_by_id d i = Some u -> u ∈ users d /\ u_id u = i.
Proof. intros [Hu E]%find_elem. split; [done | lia]. Qed.

Lemma user_by_id_self d u :
  NoDup (map u_id (users d)) -> u ∈ users d -> user_by_id d (u_id u) = Some u.
Proof.
  intros Hk Hin.
  destruct (find_is_Some (fun v => u_id v =? u_id u) (users d) u Hin (Z.eqb_refl _)) as [v Hv].
  unfold user_by_id. rewrite Hv. f_equal.
  apply user_by_id_elem in Hv as [Hv E].
  by apply (key_unique u_id (users d)).
Qed.

Lemma project_by_id_self d pr :
  NoDup (map pr_id (projects d)) -> pr ∈ projects d -> project_by_id d (pr_id pr) = Some pr.
Proof.
  intros Hk Hin.
  destruct (find_is_Some (fun v => pr_id v =? pr_id pr) (projects d) pr Hin (Z.eqb_refl _))
    as [v Hv].
  unfold project_by_id. rewrite Hv. f_equal.
  apply project_by_id_elem in Hv as [Hv E].
  by apply (key_unique pr_id (projects d)).
Qed.

End Tables.

(** ** The tables stay consistent: users *)

Section ConsistentUsers.

Lemma insert_user_consistent username hash admin d d' :
  consistent d -> insert_user username hash admin d = Some d' -> consistent d'.
Proof.
  intros Hc. unfold insert_user.
  destruct (existsb _ (users d)) eqn:Hname; [discriminate|]. intros [= <-].
  destruct Hc. constructor; cbn [users projects photos]; try assumption.
  - apply NoDup_map_snoc; [done | apply fresh_key].
  - apply NoDup_map_snoc; [done | by apply existsb_eqb_false].
  - rewrite existsb_app, admin_there0. reflexivity.
  - intros p i Hp Hi. destruct (owner_there0 p i Hp Hi) as [u Hu]. exists u.
    unfold user_by_id. cbn [users]. by apply find_snoc_old.
Qed.

Lemma set_password_fields i hash u :
  u_id (set_password i hash u) = u_id u
  /\ u_username (set_password i hash u) = u_username u
  /\ u_is_admin (set_password i hash u) = u_is_admin u.
Proof. unfold set_password. by destruct (u_id u =? i). Qed.

Lemma existsb_map {A} (test : A -> bool) (g : A -> A) (l : list A) :
  (forall x, test (g x) = test x) -> existsb test (map g l) = existsb test l.
Proof.
  intros Hg. induction l as [|x l IH]; [done|]. simpl. by rewrite Hg, IH.
Qed.

Lemma set_password_consistent i hash d :
  consistent d -> consistent (set_users (map (set_password i hash) (users d)) d).
Proof.
  intros Hc. destruct Hc.
  constructor; cbn [users projects photos set_users]; try assumption.
  - rewrite map_map. erewrite map_ext; [done|]. intros u. apply set_password_fields.
  - rewrite map_map. erewrite map_ext; [done|]. intros u. apply set_password_fields.
  - rewrite existsb_map; [done|]. intros u. apply set_password_fields.
  - intros p j Hp Hj. destruct (owner_there0 p j Hp Hj) as [u Hu].
    exists (set_password i hash u). unfold user_by_id in *. cbn [users set_users].
    rewrite find_map_test, Hu; [done|].
    intros v. by destruct (set_password_fields i hash v) as [-> _].
Qed.

(** With more than one administrator, one is left when a user goes. *)
Lemma another_admin (l : list User) (i : Z) :
  NoDup (map u_id l) ->
  (1 < length (List.filter u_is_admin l))%nat ->
  existsb u_is_admin (List.filter (fun u => negb (u_id u =? i)) l) = true.
Proof.
  intros Hk Hcount.
  assert (NoDup (map u_id (List.filter u_is_admin l))) as Hk' by (by apply NoDup_map_filter_any).
  destruct (List.filter u_is_admin l) as [|a [|b rest]] eqn:E; [simpl in Hcount; lia..|].
  assert (In a (List.filter u_is_admin l) /\ In b (List.filter u_is_admin l)) as [Ha Hb]
    by (rewrite E; simpl; auto).
  apply filter_In in Ha as [Ha Haa], Hb as [Hb Hba].
  cbn [map] in Hk'. apply NoDup_cons in Hk' as [Hab _].
  assert (u_id a <> u_id b) as Hne by (intros Eab; apply Hab; rewrite Eab; by left).
  apply existsb_exists.
  destruct (decide (u_id a = i)) as [Hai|Hai].
  - exists b. split; [|done]. apply filter_In. split; [done|].
    apply negb_true_iff, Z.eqb_neq. congruence.
  - exists a. split; [|done]. apply filter_In. split; [done|].
    by apply negb_true_iff, Z.eqb_neq.
Qed.

Lemma null_owner_fields i p :
  ph_id (null_owner i p) = ph_id p /\ ph_project_id (null_owner i p) = ph_project_id p.
Proof. unfold null_owner. by case_bool_decide. Qed.

Lemma delete_user_view_consistent user_id cu w :
  consistent (db w) -> consistent (db (world (delete_user_view user_id cu w))).
Proof.
  intros Hc. unfold delete_user_view.
  destruct (u_id cu =? user_id); [done|].
  destruct (user_by_id (db w) user_id) as [target|] eqn:Ht; [|done].
  destruct (u_is_admin target && (admins_count (db w) <=? 1)%nat) eqn:Hguard; [done|].
  destruct Hc. cbn [world reply set_db db].
  constructor; cbn [users projects photos set_users set_photos]; try assumption.
  - by apply NoDup_map_filter_any.
  - rewrite map_map. erewrite map_ext; [done|]. intros p. apply null_owner_fields.
  - by apply NoDup_map_filter_any.
  - apply andb_false_iff in Hguard as [Hnot|Hmany].
    + apply existsb_exists in admin_there0 as (a & Ha & Haa).
      apply existsb_exists. exists a. split; [|done]. apply filter_In. split; [done|].
      apply negb_true_iff, Z.eqb_neq. intros E.
      apply user_by_id_elem in Ht as [Hin Hid].
      assert (a = target) as ->
        by (apply (key_unique u_id (users (db w))); [done | by apply list_elem_of_In | done | lia]).
      congruence.
    + apply another_admin; [done|]. apply Nat.leb_gt in Hmany. exact Hmany.
  - intros p' Hp'. apply list_elem_of_In, in_map_iff in Hp' as (p & <- & Hp).
    destruct (project_there0 p) as (i & pr & Hi & Hpr); [by apply list_elem_of_In|].
    exists i, pr. split; [|done]. by destruct (null_owner_fields user_id p) as [_ ->].
  - intros p' i Hp' Hi. apply list_elem_of_In, in_map_iff in Hp' as (p & <- & Hp).
    unfold null_owner in Hi. case_bool_decide as Howner; [discriminate|].
    destruct (owner_there0 p i) as [u Hu]; [by apply list_elem_of_In | done |].
    exists u. unfold user_by_id in *. cbn [users set_users set_photos].
    rewrite find_filter_keep; [done|].
    intros v Hv Ev. apply Z.eqb_eq in Ev. apply negb_true_iff, Z.eqb_neq. congruence.
Qed.

Lemma create_user_view_consistent env f cu w :
  consistent (db w) -> consistent (db (world (create_user_view env f cu w))).
Proof.
  intros Hc. unfold create_user_view.
  destruct (is_empty _ || is_empty _); [done|].
  destruct (insert_user _ _ _ _) as [d|] eqn:E; [|done].
  by apply insert_user_consistent in E.
Qed.

End ConsistentUsers.

(** ** The tables stay consistent: projects *)

Section ConsistentProjects.

Lemma insert_project_consistent env name slug description status d d' :
  consistent d -> insert_project env name slug description status d = Some d' -> consistent d'.
Proof.
  intros Hc. unfold insert_project.
  destruct (existsb _ (projects d)) eqn:Hfree; [discriminate|]. intros [= <-].
  assert (existsb (fun p => String.eqb (pr_name p) name) (projects d) = false
          /\ existsb (fun p => String.eqb (pr_slug p) slug) (projects d) = false) as [Hn Hs].
  { split; apply not_true_iff_false; intros [p [Hp E]]%existsb_exists;
      apply not_true_iff_false in Hfree; apply Hfree, existsb_exists; exists p;
      (split; [done|]); rewrite E; [done | apply orb_true_r]. }
  destruct Hc. constructor; cbn [users projects photos]; try assumption.
  - apply NoDup_map_snoc; [done | apply fresh_key].
  - apply NoDup_map_snoc; [done | by apply existsb_eqb_false].
  - apply NoDup_map_snoc; [done | by apply existsb_eqb_false].
  - unfold slug_taken, project_by_slug in *. cbn [projects].
    destruct (List.find _ (projects d)) as [g|] eqn:Eg; [|discriminate].
    by rewrite (find_snoc_old _ _ _ _ Eg).
  - intros p Hp. destruct (project_there0 p Hp) as (i & pr & Hi & Hpr).
    exists i, pr. split; [done|]. unfold project_by_id in *. cbn [projects].
    by apply find_snoc_old.
Qed.

Lemma renamed_fields i name description status p :
  pr_id (renamed i name description status p) = pr_id p
  /\ pr_slug (renamed i name description status p) = pr_slug p.
Proof. unfold renamed. by destruct (pr_id p =? i). Qed.

(** A new name no other row has leaves the names distinct. *)
Lemma renamed_names i name description status (l : list Project) :
  NoDup (map pr_id l) -> NoDup (map pr_name l) ->
  (forall p, p ∈ l -> pr_id p <> i -> pr_name p <> name) ->
  NoDup (map pr_name (map (renamed i name description status) l)).
Proof.
  induction l as [|x l IH]; [done|]. cbn [map].
  intros [Hxi Hli]%NoDup_cons [Hxn Hln]%NoDup_cons Hother.
  apply NoDup_cons. split; [|apply IH; [done..|intros; apply Hother; [by right | done]]].
  intros Hin. apply list_elem_of_In, in_map_iff in Hin as (y' & E & Hy').
  apply in_map_iff in Hy' as (y & <- & Hy). apply list_elem_of_In in Hy.
  unfold renamed in E. destruct (pr_id x =? i) eqn:Ex, (pr_id y =? i) eqn:Ey; cbn in E.
  - apply Hxi. apply Z.eqb_eq in Ex, Ey. rewrite Ex, <- Ey.
    by apply list_elem_of_In, in_map, list_elem_of_In.
  - apply Z.eqb_neq in Ey. by apply (Hother y); [right|..].
  - apply Z.eqb_neq in Ex. apply (Hother x); [by left | done | done].
  - apply Hxn. rewrite <- E. by apply list_elem_of_In, in_map, list_elem_of_In.
Qed.

Lemma rename_project_consistent i name description status d d' :
  consistent d -> rename_project i name description status d = Some d' -> consistent d'.
Proof.
  intros Hc. unfold rename_project.
  destruct (existsb _ (projects d)) eqn:Hfree; [discriminate|]. intros [= <-].
  fold (renamed i name description status).
  destruct Hc. constructor; cbn [users projects photos set_projects]; try assumption.
  - rewrite map_map. erewrite map_ext; [done|]. intros p. apply renamed_fields.
  - apply renamed_names; [done..|]. intros p Hp Hid Hname.
    apply not_true_iff_false in Hfree. apply Hfree, existsb_exists. exists p.
    split; [by apply list_elem_of_In|]. apply andb_true_iff. split.
    + by apply String.eqb_eq.
    + by apply negb_true_iff, Z.eqb_neq.
  - rewrite map_map. erewrite map_ext; [done|]. intros p. apply renamed_fields.
  - unfold slug_taken, project_by_slug in *. cbn [projects set_projects].
    rewrite find_map_test; [by destruct (List.find _ (projects d))|].
    intros p. by destruct (renamed_fields i name description status p) as [_ ->].
  - intros p Hp. destruct (project_there0 p Hp) as (j & pr & Hj & Hpr).
    exists j, (renamed i name description status pr). split; [done|].
    unfold project_by_id in *. cbn [projects set_projects].
    rewrite find_map_test, Hpr; [done|].
    intros q. by destruct (renamed_fields i name description status q) as [-> _].
Qed.

Lemma edit_project_view_consistent project_id form cu w :
  consistent (db w) -> consistent (db (world (edit_project_view project_id form cu w))).
Proof.
  intros Hc. unfold edit_project_view.
  destruct (project_by_id (db w) project_id); [|done].
  destruct form as [f|]; [|done]. destruct (is_empty _); [done|].
  destruct (rename_project _ _ _ _ _) as [d|] eqn:E; [|done].
  by apply rename_project_consistent in E.
Qed.

Lemma create_project_view_consistent env fuel f w r :
  consistent (db w) -> create_project_view env fuel f w = Some r -> consistent (db (world r)).
Proof.
  intros Hc. unfold create_project_view.
  destruct (is_empty _); [by intros [= <-]|].
  destruct (free_slug _ _ _ _ _) as [slug|]; [|discriminate].
  destruct (insert_project _ _ _ _ _ _) as [d|] eqn:E; intros [= <-]; [|done].
  by apply insert_project_consistent in E.
Qed.

End ConsistentProjects.

Section ConsistentDeleteProject.

Variable env : Env.
Variable general_id : Z.
Variable slug : string.

Local Abbreviation step := (relocate_photo env general_id slug).

Lemma relocate_all_users l st :
  users (db (l_world (fold_left step l st))) = users (db (l_world st)).
Proof.
  revert st. induction l as [|ph l IH]; intros st; [done|].
  simpl. by rewrite IH, relocate_photo_unfold.
Qed.

(** Where each row is when the loop is through: as it was, for a row
    of another project, and relocated, for a row of the project. *)
Lemma relocate_all_rows project_id st p' :
  NoDup (map ph_id (photos (db (l_world st)))) ->
  p' ∈ photos (db (l_world
                     (fold_left step (photos_of_project (db (l_world st)) project_id) st))) ->
  (p' ∈ photos (db (l_world st)) /\ ph_project_id p' <> Some project_id)
  \/ exists p dst, p ∈ photos (db (l_world st)) /\ p' = relocated p general_id dst.
Proof.
  intros Hk Hp'.
  set (snapshot := photos_of_project (db (l_world st)) project_id) in *.
  set (final := fold_left step snapshot st) in *.
  assert (map ph_id (photos (db (l_world final))) = map ph_id (photos (db (l_world st))))
    as Hids by apply relocate_all_ids.
  assert (photo_by_id (db (l_world final)) (ph_id p') = Some p') as Hlookup.
  { apply photo_by_id_self; [by rewrite Hids | done]. }
  assert (ph_id p' ∈ map ph_id (photos (db (l_world st)))) as Hin.
  { rewrite <- Hids. by apply list_elem_of_In, in_map, list_elem_of_In. }
  apply list_elem_of_In, in_map_iff in Hin as (p & Eid & Hp). apply list_elem_of_In in Hp.
  assert (forall ph, ph ∈ snapshot ->
            ph ∈ photos (db (l_world st)) /\ ph_project_id ph = Some project_id) as Hsnap.
  { intros ph Hph. apply list_elem_of_In, filter_In in Hph as [Hph E].
    split; [by apply list_elem_of_In | by apply bool_decide_eq_true in E]. }
  destruct (decide (ph_project_id p = Some project_id)) as [Hproj|Hproj].
  - right. assert (p ∈ snapshot) as Hps.
    { apply list_elem_of_In, filter_In. split; [by apply list_elem_of_In|].
      by apply bool_decide_eq_true. }
    apply list_elem_of_lookup in Hps as [i Hi].
    assert (NoDup (map ph_id snapshot)) as Hsk by (by apply NoDup_map_filter_any).
    pose proof (take_drop_middle snapshot i p Hi) as Hsplit.
    rewrite <- Hsplit in Hsk.
    pose proof (relocate_row_final env general_id slug _ _ _ st p Hsk
                  (photo_by_id_self _ _ Hk Hp)) as Hrow.
    rewrite Hsplit in Hrow. fold final in Hrow. rewrite Eid, Hlookup in Hrow.
    injection Hrow as ->. eauto.
  - left. unfold final in Hlookup. rewrite relocate_all_row_other in Hlookup.
    + rewrite <- Eid, (photo_by_id_self _ _ Hk Hp) in Hlookup. injection Hlookup as <-. done.
    + intros ph Hph E. destruct (Hsnap ph Hph) as [Hin Hpr].
      assert (ph = p) as -> by (apply (key_unique ph_id (photos (db (l_world st)))); [done..|lia]).
      done.
Qed.

End ConsistentDeleteProject.

Section ConsistentDeleteProjectView.

Lemma project_by_id_filter_other d i j pr :
  i <> j -> project_by_id d i = Some pr ->
  List.find (fun p => pr_id p =? i) (List.filter (fun p => negb (pr_id p =? j)) (projects d))
  = Some pr.
Proof.
  intros Hne Hpr. rewrite find_filter_keep; [done|].
  intros q _ E. apply Z.eqb_eq in E. apply negb_true_iff, Z.eqb_neq. lia.
Qed.

Lemma delete_project_view_consistent env project_id cu w :
  consistent (db w) -> consistent (db (world (delete_project_view env project_id cu w))).
Proof.
  intros Hc. unfold delete_project_view.
  destruct (project_by_id (db w) project_id) as [proj|] eqn:Hproj; [|done].
  destruct (String.eqb (pr_slug proj) "general") eqn:Hslug; [done|].
  destruct (project_by_slug (db w) "general") as [general|] eqn:Hgen; [|done].
  apply String.eqb_neq in Hslug.
  apply project_by_id_elem in Hproj as [Hproj_in Hproj_id].
  pose proof (project_by_slug_elem _ _ _ Hgen) as [Hgen_in Hgen_slug].
  destruct Hc.
  assert (pr_id general <> project_id) as Hgid.
  { intros E. assert (general = proj)
      by (apply (key_unique pr_id (projects (db w))); [done..|lia]).
    congruence. }
  set (st0 := {| l_world := set_fs (mkdir "general" (fs w)) w; l_reads := O |}).
  set (final := fold_left (relocate_photo env (pr_id general) (pr_slug proj))
                  (photos_of_project (db w) project_id) st0).
  cbn [world reply set_db db].
  assert (users (db (l_world final)) = users (db w)) as Husers
    by apply relocate_all_users.
  assert (projects (db (l_world final)) = projects (db w)) as Hprojects
    by apply relocate_all_projects.
  constructor; cbn [users projects photos set_projects]; rewrite ?Husers, ?Hprojects;
    try assumption.
  - by apply NoDup_map_filter_any.
  - unfold final. by rewrite relocate_all_ids.
  - by apply NoDup_map_filter_any.
  - by apply NoDup_map_filter_any.
  - unfold slug_taken, project_by_slug. cbn [projects set_projects]. rewrite ?Hprojects.
    rewrite find_filter_keep; [by fold (project_by_slug (db w) "general"); rewrite Hgen|].
    intros q Hq E. apply String.eqb_eq in E. apply negb_true_iff, Z.eqb_neq. intros Eid.
    assert (q = proj) by (apply (key_unique pr_id (projects (db w))); [done..|lia]).
    congruence.
  - intros p' Hp'. unfold project_by_id. cbn [projects set_projects]. rewrite ?Hprojects.
    destruct (relocate_all_rows env (pr_id general) (pr_slug proj) project_id st0 p'
                photos_key0 Hp') as [[Hold Hother]|(p & dst & Hp & ->)].
    + destruct (project_there0 p' Hold) as (i & pr & Hi & Hpr).
      exists i, pr. split; [done|]. apply project_by_id_filter_other; [congruence | done].
    + exists (pr_id general), general. split; [done|].
      apply project_by_id_filter_other; [done|]. by apply project_by_id_self.
  - intros p' i Hp' Hi. unfold user_by_id. cbn [users set_projects]. rewrite Husers.
    fold (user_by_id (db w) i).
    destruct (relocate_all_rows env (pr_id general) (pr_slug proj) project_id st0 p'
                photos_key0 Hp') as [[Hold _]|(p & dst & Hp & ->)].
    + by apply (owner_there0 p' i).
    + by apply (owner_there0 p i).
Qed.

End ConsistentDeleteProjectView.

(** ** The tables stay consistent: photos and start-up *)

Section ConsistentPhotos.
Context `{Werkzeug} `{SQLite} `{!Builtins}.

(** The project found for the text of a form field is the one of the
    number [int] reads in it. *)
Lemma project_by_text_int d s proj j :
  project_by_text d s = Some proj -> py_int s = Some j -> project_by_id d j = Some proj.
Proof.
  unfold project_by_text. destruct (sql_integer s) as [i|] eqn:Hi; [|discriminate].
  cbn [mbind option_bind]. intros Hp Hj. by rewrite <- (py_int_value s i j Hi Hj).
Qed.

Lemma insert_photo_consistent env filepath filename display_name description owner
    project_id d u pr :
  consistent d ->
  user_by_id d owner = Some u ->
  project_by_id d project_id = Some pr ->
  consistent (insert_photo env filepath filename display_name description owner project_id d).
Proof.
  intros Hc Hu Hpr. destruct Hc. unfold insert_photo.
  constructor; cbn [users projects photos]; try assumption.
  - apply NoDup_map_snoc; [done | apply fresh_key].
  - intros p [Hp|Hp]%elem_of_app.
    + by apply project_there0.
    + apply list_elem_of_singleton in Hp as ->. by exists project_id, pr.
  - intros p i [Hp|Hp]%elem_of_app Hi.
    + by apply (owner_there0 p i).
    + apply list_elem_of_singleton in Hp as ->. injection Hi as <-. by exists u.
Qed.

Lemma upload_view_consistent env form cu w :
  consistent (db w) ->
  (exists u, user_by_id (db w) (u_id cu) = Some u) ->
  consistent (db (world (upload_view env form cu w))).
Proof.
  intros Hc [u Hu]. unfold upload_view.
  destruct form as [f|]; [|done].
  destruct (is_empty (strip (up_project_id f))); [done|].
  destruct (project_by_text (db w) (strip (up_project_id f))) as [proj|] eqn:Hproj; [|done].
  destruct (up_photo f) as [[original_name content]|]; [|done].
  destruct (is_empty original_name); [done|].
  destruct (is_empty (strip (up_display_name f))); [done|].
  destruct (negb (allowed_ext (extension original_name))); [done|].
  destruct (base_or_stamp env (strip (up_display_name f)) 0) as [base n].
  destruct (py_int (strip (up_project_id f))) as [project_id|] eqn:Hint; [|done].
  cbn [world reply db]. eapply insert_photo_consistent; [done..|].
  by eapply project_by_text_int.
Qed.

Lemma edit_row_fields i dn de pj fp fn p :
  ph_id (edit_row i dn de pj fp fn p) = ph_id p
  /\ ph_uploaded_by (edit_row i dn de pj fp fn p) = ph_uploaded_by p
  /\ ph_uploaded_at (edit_row i dn de pj fp fn p) = ph_uploaded_at p
  /\ (ph_project_id (edit_row i dn de pj fp fn p) = ph_project_id p
      \/ ph_project_id (edit_row i dn de pj fp fn p) = Some pj).
Proof. unfold edit_row. destruct (ph_id p =? i); cbn; auto. Qed.

Lemma edit_commit_consistent i dn de text fp fn f warnings w pr :
  consistent (db w) ->
  project_by_text (db w) text = Some pr ->
  consistent (db (world (edit_commit i dn de text fp fn f warnings w))).
Proof.
  intros Hc Htext. unfold edit_commit.
  destruct (py_int text) as [pj|] eqn:Hint; [|done].
  pose proof (project_by_text_int _ _ _ _ Htext Hint) as Hpr.
  destruct Hc. cbn [world reply db].
  constructor; cbn [users projects photos set_photos]; try assumption.
  - rewrite map_map. erewrite map_ext; [done|]. intros p. apply edit_row_fields.
  - intros p' Hp'. apply list_elem_of_In, in_map_iff in Hp' as (p & <- & Hp).
    destruct (edit_row_fields i dn de pj fp fn p) as (_ & _ & _ & [E|E]); rewrite E.
    + apply project_there0. by apply list_elem_of_In.
    + by exists pj, pr.
  - intros p' j Hp' Hj. apply list_elem_of_In, in_map_iff in Hp' as (p & <- & Hp).
    destruct (edit_row_fields i dn de pj fp fn p) as (_ & E & _). rewrite E in Hj.
    apply (owner_there0 p j); [by apply list_elem_of_In | done].
Qed.

Lemma edit_photo_view_consistent env photo_id form cu w :
  consistent (db w) -> consistent (db (world (edit_photo_view env photo_id form cu w))).
Proof.
  intros Hc. unfold edit_photo_view.
  destruct (photo_by_id (db w) photo_id) as [photo|]; [|done].
  destruct form as [f|]; [|done].
  destruct (is_empty (strip (ed_display_name f))); [done|].
  destruct (is_empty (strip (ed_project_id f))); [done|].
  destruct (project_by_text (db w) (strip (ed_project_id f))) as [new_proj|] eqn:Hproj; [|done].
  destruct (edit_plan _ _ _ _ _ _) as [new_fp new_filename| |dst new_filename].
  - by eapply edit_commit_consistent.
  - by eapply edit_commit_consistent.
  - destruct (replace _ _ _ _) as [e|f1]; [done|]. by eapply edit_commit_consistent.
Qed.

Lemma delete_photo_view_consistent env photo_id cu w :
  consistent (db w) -> consistent (db (world (delete_photo_view env photo_id cu w))).
Proof.
  intros Hc. unfold delete_photo_view.
  destruct (photo_by_id (db w) photo_id) as [photo|]; [|done].
  destruct Hc. cbn [world reply db].
  constructor; cbn [users projects photos set_photos]; try assumption.
  - by apply NoDup_map_filter_any.
  - intros p Hp. apply list_elem_of_In, filter_In in Hp as [Hp _].
    apply project_there0. by apply list_elem_of_In.
  - intros p i Hp Hi. apply list_elem_of_In, filter_In in Hp as [Hp _].
    apply (owner_there0 p i); [by apply list_elem_of_In | done].
Qed.

End ConsistentPhotos.

Section ConsistentStart.

Lemma backfill_fields g p :
  ph_id (backfill g p) = ph_id p
  /\ ph_uploaded_by (backfill g p) = ph_uploaded_by p
  /\ ph_filename (backfill g p) = ph_filename p
  /\ ph_project_id (backfill g p)
     = match ph_project_id p with None => Some g | o => o end.
Proof. done. Qed.

(** A new start on consistent tables keeps them consistent. *)
Lemma ensure_consistent env w w' :
  consistent (db w) -> ensure_admin_and_default_project env w = Some w' -> consistent (db w').
Proof.
  intros Hc. unfold ensure_admin_and_default_project.
  destruct Hc. rewrite admin_there0. cbn [mbind option_bind].
  rewrite general_there0. cbn [mbind option_bind].
  destruct (project_by_slug (db w) "general") as [general|]; [|discriminate].
  cbn [mbind option_bind]. intros [= <-]. cbn [db].
  constructor; cbn [users projects photos set_photos]; try assumption.
  - rewrite map_map. erewrite map_ext; [done|]. intros p. apply backfill_fields.
  - intros p' Hp'. apply list_elem_of_In, in_map_iff in Hp' as (p & <- & Hp).
    destruct (project_there0 p) as (i & pr & Hi & Hpr); [by apply list_elem_of_In|].
    exists i, pr. split; [|done].
    destruct (backfill_fields (pr_id general) p) as (_ & _ & _ & ->). by rewrite Hi.
  - intros p' i Hp' Hi. apply list_elem_of_In, in_map_iff in Hp' as (p & <- & Hp).
    apply (owner_there0 p i); [by apply list_elem_of_In | done].
Qed.

(** A first start, on tables without rows, makes them consistent. *)
Lemma ensure_first_consistent env w w' :
  users (db w) = [] -> projects (db w) = [] -> photos (db w) = [] ->
  ensure_admin_and_default_project env w = Some w' -> consistent (db w').
Proof.
  intros Hu Hp Hph. unfold ensure_admin_and_default_project, insert_user.
  rewrite Hu. cbn. unfold slug_taken, project_by_slug, insert_project. cbn.
  rewrite Hp, Hph. cbn. intros [= <-]. cbn.
  constructor; cbn; try (apply NoDup_singleton); try apply NoDup_nil_2; try done.
  - intros p []%elem_of_nil.
  - intros p i []%elem_of_nil.
Qed.

End ConsistentStart.

(** ** Every request keeps the tables consistent *)

Section ServeConsistent.
Context `{Werkzeug} `{SQLite} `{Passwords} `{Storage} `{!Builtins}.

Lemma current_user_loaded d session u :
  current_user_of d session = Some u -> user_by_id d (u_id u) = Some u.
Proof.
  destruct session as [i|]; [|discriminate]. cbn. unfold load_user. intros Hu.
  pose proof (user_by_id_elem _ _ _ Hu) as [_ ->]. exact Hu.
Qed.

Lemma admin_gate_inr cu w u : admin_gate cu w = inr u -> cu = Some u /\ u_is_admin u = true.
Proof.
  unfold admin_gate, login_gate. destruct cu as [v|]; [|discriminate].
  destruct (u_is_admin v) eqn:E; [|discriminate]. by intros [= <-].
Qed.

Lemma upload_gate_inr cu w u : upload_gate cu w = inr u -> cu = Some u /\ u_is_admin u = true.
Proof.
  unfold upload_gate, login_gate. destruct cu as [v|]; [|discriminate].
  destruct (u_is_admin v) eqn:E; [|discriminate]. by intros [= <-].
Qed.

Lemma login_gate_refuses cu w r : login_gate cu w = inl r -> world r = w.
Proof. unfold login_gate. destruct cu; [discriminate|]. by intros [= <-]. Qed.

(** A guarded view keeps what the view keeps. *)
Lemma admin_required_keeps (P : World -> Prop) cu view w :
  P w -> (forall u, cu = Some u -> u_is_admin u = true -> P (world (view u w))) ->
  P (world (admin_required cu view w)).
Proof.
  intros Hw Hview. unfold admin_required.
  destruct (admin_gate cu w) as [r|u] eqn:Hgate; cbn [guarded].
  - apply admin_gate_refuses in Hgate as [-> _]. done.
  - apply admin_gate_inr in Hgate as [-> Hu]. by apply Hview.
Qed.

Lemma upload_required_keeps (P : World -> Prop) cu view w :
  P w -> (forall u, cu = Some u -> u_is_admin u = true -> P (world (view u w))) ->
  P (world (upload_required cu view w)).
Proof.
  intros Hw Hview. unfold upload_required.
  destruct (upload_gate cu w) as [r|u] eqn:Hgate; cbn [guarded].
  - apply upload_gate_refuses in Hgate as [-> _]. done.
  - apply upload_gate_inr in Hgate as [-> Hu]. by apply Hview.
Qed.

Lemma change_password_consistent env form session w :
  consistent (db w) -> consistent (db (out_world (change_password env form session w))).
Proof.
  intros Hc. unfold change_password.
  destruct (login_gate _ w) as [r|u] eqn:Hgate.
  { apply login_gate_refuses in Hgate as <-. done. }
  destruct form as [[[current_pw new_pw] new_pw2]|]; [|done].
  destruct (negb (String.eqb new_pw new_pw2)); [done|].
  destruct (user_by_id (db w) (u_id u)) as [row|]; [|done].
  destruct (negb (check_password_hash _ _)); [done|].
  cbn [out_world outcome set_db db]. by apply set_password_consistent.
Qed.

Lemma serve_consistent env fuel session req w out :
  consistent (db w) -> serve env fuel session req w = Some out ->
  consistent (db (out_world out)).
Proof.
  intros Hc. set (P := fun w' => consistent (db w')).
  destruct req; cbn [serve]; try (intros [= <-]).
  - unfold home. by destruct (current_user_of _ _).
  - done.
  - unfold login. destruct (user_by_name _ _) as [row|]; [|done].
    by destruct (negb (check_password_hash _ _)).
  - unfold logout. destruct (login_gate _ w) as [r|u] eqn:Hgate; [|done].
    apply login_gate_refuses in Hgate as <-. done.
  - by apply change_password_consistent.
  - by apply change_password_consistent.
  - unfold admin_panel. destruct (admin_gate _ w) as [r|u] eqn:Hgate; [|done].
    apply admin_gate_refuses in Hgate as [<- _]. done.
  - apply (admin_required_keeps P); [done|]. intros. by apply create_user_view_consistent.
  - apply (admin_required_keeps P); [done|]. intros. by apply delete_user_view_consistent.
  - unfold admin_create_project.
    destruct (admin_gate _ w) as [r|u] eqn:Hgate.
    + intros [= <-]. apply admin_gate_refuses in Hgate as [<- _]. done.
    + destruct (create_project_view env fuel f w) as [r|] eqn:E; [|discriminate].
      intros [= <-]. by apply create_project_view_consistent in E.
  - apply (admin_required_keeps P); [done|]. intros. by apply edit_project_view_consistent.
  - apply (admin_required_keeps P); [done|]. intros. by apply delete_project_view_consistent.
  - unfold download_backup. destruct (admin_gate _ w) as [r|u] eqn:Hgate; [|done].
    apply admin_gate_refuses in Hgate as [<- _]. done.
  - unfold dashboard, login_required.
    destruct (login_gate _ w) as [r|u] eqn:Hgate; [|done].
    apply login_gate_refuses in Hgate as <-. done.
  - apply (upload_required_keeps P); [done|]. intros u Hu _.
    apply upload_view_consistent; [done|]. exists u. by apply (current_user_loaded _ session).
  - apply (admin_required_keeps P); [done|]. intros. by apply edit_photo_view_consistent.
  - apply (admin_required_keeps P); [done|]. intros. by apply delete_photo_view_consistent.
  - unfold uploaded_file. destruct (login_gate _ w) as [r|u] eqn:Hgate; [|done].
    apply login_gate_refuses in Hgate as <-. done.
Qed.

End ServeConsistent.

Section SampleFacts.

Lemma sample_consistent : consistent Sample.database.
Proof.
  constructor; cbn;
    try (apply NoDup_ListNoDup; repeat constructor; simpl; intuition discriminate);
    try reflexivity.
  - intros p Hp. repeat (apply elem_of_cons in Hp as [->|Hp]); [..|by apply elem_of_nil in Hp];
      by exists 2, Sample.roof.
  - intros p i Hp Hi.
    repeat (apply elem_of_cons in Hp as [->|Hp]); [..|by apply elem_of_nil in Hp];
      injection Hi as <-; by eexists.
Qed.

End SampleFacts.

(** X1. Every request, from any client, and every new start of the
    application keep the tables consistent: the keys and the unique
    columns stay so, the default project and an administrator stay,
    and every photo refers to a project that is there and to an owner
    who is there, if to any. *)
Theorem step_keeps_consistent `{Werkzeug} `{SQLite} `{Passwords} `{Storage} `{!Builtins}
    (env : Env) (fuel : nat) (session : option Z) (req : Request) (w : World) :
  consistent (db w) ->
  (forall out, serve env fuel session req w = Some out -> consistent (db (out_world out)))
  /\ (forall w', ensure_admin_and_default_project env w = Some w' -> consistent (db w')).
Proof.
  intros Hc. split.
  - intros out. by apply serve_consistent.
  - intros w'. by apply ensure_consistent.
Qed.

Lemma step_keeps_consistent_witness :
  exists out,
    serve (H := Sample.safe_name) (H0 := Sample.first_ten) (H1 := Fixture.check)
      (H2 := Fixture.dump) (H3 := Sample.digits_only) Sample.env 3 (Some 1) (Post_delete_project 2) Sample.store
    = Some out
    /\ consistent (db (out_world out))
    /\ map pr_slug (projects (db (out_world out))) = ["general"].
Proof.
  eexists. split; [reflexivity|]. split; [|reflexivity].
  apply (proj1 (step_keeps_consistent (H := Sample.safe_name) (H0 := Sample.first_ten)
                  (H1 := Fixture.check) (H2 := Fixture.dump) (H3 := Sample.digits_only) Sample.env 3 (Some 1)
                  (Post_delete_project 2) Sample.store sample_consistent)).
  reflexivity.
Defined.

(** X2. From a first start, on tables without rows, every store the
    application passes through, whatever the requests and the restarts,
    has consistent tables. *)
Theorem reached_consistent `{Werkzeug} `{SQLite} `{Passwords} `{Storage} `{!Builtins} (w0 w : World) :
  users (db w0) = [] -> projects (db w0) = [] -> photos (db w0) = [] ->
  reached w0 w -> consistent (db w).
Proof.
  intros Hu Hp Hph Hr. induction Hr as [env w Hs|env fuel session req w out _ IH Hs|env w w' _ IH Hs].
  - by apply (ensure_first_consistent env w0).
  - by apply (serve_consistent env fuel session req w).
  - by apply (ensure_consistent env w).
Qed.

Lemma reached_consistent_witness :
  exists w,
    reached (H := Sample.safe_name) (H0 := Sample.first_ten) (H1 := Fixture.check)
      (H2 := Fixture.dump) (H3 := Sample.digits_only) Sample.blank w
    /\ map u_username (users (db w)) = ["admin"; "eva"]
    /\ consistent (db w).
Proof.
  destruct (ensure_first_start Sample.env Sample.blank eq_refl eq_refl) as [w1 Hw1].
  pose proof (reached_start (H := Sample.safe_name) (H0 := Sample.first_ten) (H1 := Fixture.check)
                (H2 := Fixture.dump) (H3 := Sample.digits_only) Sample.blank Sample.env w1 Hw1) as Hr1.
  destruct (serve (H := Sample.safe_name) (H0 := Sample.first_ten) (H1 := Fixture.check)
              (H2 := Fixture.dump) (H3 := Sample.digits_only) Sample.env 3 (Some 1) (Post_create_user Fixture.user_form) w1)
    as [out|] eqn:Hserve; [|discriminate].
  exists (out_world out). split; [by eapply reached_serve|]. split.
  - injection Hw1 as <-. injection Hserve as <-. reflexivity.
  - apply (reached_consistent (H := Sample.safe_name) (H0 := Sample.first_ten)
             (H1 := Fixture.check) (H2 := Fixture.dump) (H3 := Sample.digits_only) Sample.blank); [reflexivity..|].
    by eapply reached_serve.
Defined.

(** ** Who may do what *)

Section Authorization.
Context `{Werkzeug} `{SQLite} `{Passwords} `{Storage} `{!Builtins}.

Lemma login_gate_anonymous w :
  login_gate None w
  = inl (reply (Redirect ep_login) w [("Please log in to access this page.", "message")]).
Proof. reflexivity. Qed.

Lemma admin_gate_anonymous w :
  admin_gate None w
  = inl (reply (Redirect ep_login) w [("Please log in to access this page.", "message")]).
Proof. reflexivity. Qed.

Lemma upload_gate_anonymous w :
  upload_gate None w
  = inl (reply (Redirect ep_login) w [("Please log in to access this page.", "message")]).
Proof. reflexivity. Qed.

Lemma upload_gate_reader (u : User) (w : World) :
  u_is_admin u = false ->
  upload_gate (Some u) w
  = inl (reply (Redirect ep_dashboard) w [("No tienes permisos para subir imágenes.", "error")]).
Proof. unfold upload_gate, login_gate. by intros ->. Qed.

Lemma same_account_refl i u : same_account i u u.
Proof. by unfold same_account. Qed.

Lemma Forall2_same {A} (R : A -> A -> Prop) (l : list A) :
  (forall x, R x x) -> Forall2 R l l.
Proof. intros HR. induction l; constructor; auto. Qed.

Lemma set_password_same_account i hash u : same_account i u (set_password i hash u).
Proof.
  unfold same_account, set_password.
  destruct (u_id u =? i) eqn:E; cbn; [|done].
  apply Z.eqb_eq in E. repeat split; try done.
Qed.

End Authorization.

(** X3. A client that is not logged in changes nothing: every request
    leaves the database and the uploads tree as they are, and every
    route but the home page and the login page answers with the
    redirect to the login page and leaves the session as it is. *)
Theorem anonymous_changes_nothing `{Werkzeug} `{SQLite} `{Passwords} `{Storage} `{!Builtins}
    (env : Env) (fuel : nat) (session : option Z) (req : Request) (w : World) (out : Outcome) :
  current_user_of (db w) session = None ->
  serve env fuel session req w = Some out ->
  out_world out = w
  /\ (public req = false ->
      out_reply out = Plain (Redirect ep_login)
      /\ out_session out = session
      /\ out_flashed out = [("Please log in to access this page.", "message")]).
Proof.
  intros Hanon.
  destruct req; cbn [serve public]; rewrite ?Hanon;
    unfold home, logout, change_password, admin_panel, download_backup, uploaded_file,
      admin_create_user, admin_delete_user, admin_create_project, admin_edit_project,
      admin_delete_project, dashboard, upload, edit_photo, delete_photo,
      admin_required, upload_required, login_required;
    rewrite ?Hanon, ?login_gate_anonymous, ?admin_gate_anonymous, ?upload_gate_anonymous;
    cbn [guarded fmap option_fmap option_map]; intros [= <-]; try done.
  - split; [|done]. unfold login. destruct (user_by_name _ _); [|done].
    by destruct (negb (check_password_hash _ _)).
Qed.

Lemma anonymous_changes_nothing_witness :
  exists out,
    serve (H := Sample.safe_name) (H0 := Sample.first_ten) (H1 := Fixture.check)
      (H2 := Fixture.dump) (H3 := Sample.digits_only) Sample.env 3 (Some 9) (Post_delete_photo 1) Sample.store = Some out
    /\ out_world out = Sample.store
    /\ out_reply out = Plain (Redirect ep_login).
Proof.
  eexists. split; [reflexivity|].
  destruct (anonymous_changes_nothing (H := Sample.safe_name) (H0 := Sample.first_ten)
              (H1 := Fixture.check) (H2 := Fixture.dump) (H3 := Sample.digits_only) Sample.env 3 (Some 9)
              (Post_delete_photo 1) Sample.store _ eq_refl eq_refl) as [Hw Hlogin].
  split; [exact Hw|]. by destruct (Hlogin eq_refl) as [Hr _].
Defined.

(** X4. A logged-in user who is not an administrator changes nothing
    but the hash of the own password: after any request the uploads
    tree, the projects and the photos are as before, every user row
    keeps its id, name and role, and the rows of the other users are
    untouched.  The routes for administrators answer with the redirect
    to the listing and one error message. *)
Theorem reader_changes_own_password_only `{Werkzeug} `{SQLite} `{Passwords} `{Storage} `{!Builtins}
    (env : Env) (fuel : nat) (session : option Z) (req : Request) (w : World) (out : Outcome)
    (u : User) :
  current_user_of (db w) session = Some u ->
  u_is_admin u = false ->
  serve env fuel session req w = Some out ->
  fs (out_world out) = fs w
  /\ projects (db (out_world out)) = projects (db w)
  /\ photos (db (out_world out)) = photos (db w)
  /\ Forall2 (same_account (u_id u)) (users (db w)) (users (db (out_world out)))
  /\ (admin_only req = true ->
      out_world out = w
      /\ out_reply out = Plain (Redirect ep_dashboard)
      /\ exists message, out_flashed out = [(message, "error")]).
Proof.
  intros Hu Hreader.
  assert (Forall2 (same_account (u_id u)) (users (db w)) (users (db w))) as Hsame
    by (apply Forall2_same, same_account_refl).
  destruct req; cbn [serve admin_only]; rewrite ?Hu;
    unfold home, logout, change_password, admin_panel, download_backup, uploaded_file,
      admin_create_user, admin_delete_user, admin_create_project, admin_edit_project,
      admin_delete_project, dashboard, upload, edit_photo, delete_photo,
      admin_required, upload_required, login_required;
    rewrite ?Hu, ?(admin_gate_reader u w Hreader), ?(upload_gate_reader u w Hreader);
    cbn [guarded login_gate fmap option_fmap option_map]; intros [= <-];
    try (repeat split; cbn; solve [done | eauto]).
  - unfold login. destruct (user_by_name _ _); [|by repeat split].
    by destruct (negb (check_password_hash _ _)); repeat split.
  - destruct (negb (String.eqb _ _)); [by repeat split|].
    destruct (user_by_id _ _); [|by repeat split].
    destruct (negb (check_password_hash _ _)); [by repeat split|].
    cbn. repeat split; try done.
    apply Forall2_map_self. intros v. apply set_password_same_account.
Qed.

Lemma reader_changes_own_password_only_witness :
  exists out,
    serve (H := Sample.safe_name) (H0 := Sample.first_ten) (H1 := Fixture.check)
      (H2 := Fixture.dump) (H3 := Sample.digits_only) Sample.env 3 (Some 2) (Post_change_password "ana" "x" "x")
      Sample.store = Some out
    /\ photos (db (out_world out)) = photos Sample.database
    /\ map u_password_hash (users (db (out_world out))) = ["hash:admin123"; "hash:x"].
Proof.
  eexists. split; [reflexivity|].
  destruct (reader_changes_own_password_only (H := Sample.safe_name) (H0 := Sample.first_ten)
              (H1 := Fixture.check) (H2 := Fixture.dump) (H3 := Sample.digits_only) Sample.env 3 (Some 2)
              (Post_change_password "ana" "x" "x") Sample.store _ Sample.reader
              eq_refl eq_refl eq_refl) as (_ & _ & Hphotos & _).
  split; [exact Hphotos | reflexivity].
Defined.

(** X5. The user a session stands for changes at the login page and at
    logout alone: a request leaves the session as it is, or it is a
    logout that empties it, or it is a login that names an existing
    account and carries a password the account's hash accepts. *)
Theorem session_changes_at_login_and_logout `{Werkzeug} `{SQLite} `{Passwords} `{Storage} `{!Builtins}
    (env : Env) (fuel : nat) (session : option Z) (req : Request) (w : World) (out : Outcome) :
  serve env fuel session req w = Some out ->
  out_session out = session
  \/ (req = Get_logout /\ out_session out = None)
  \/ (exists username password row,
        req = Post_login username password
        /\ user_by_name (db w) (strip username) = Some row
        /\ check_password_hash (u_password_hash row) password = true
        /\ out_session out = Some (u_id row)).
Proof.
  destruct req as [ | |username password| | |c n n2| |f|i|f|i form|i| |a|form|i form|i|filepath];
    cbn [serve].
  - intros [= <-]. left. unfold home. by destruct (current_user_of _ _).
  - intros [= <-]. by left.
  - intros [= <-]. unfold login.
    destruct (user_by_name _ _) as [row|] eqn:Hrow; [|by left].
    destruct (check_password_hash _ _) eqn:Hcheck; [|by left].
    right. right. by exists username, password, row.
  - intros [= <-]. unfold logout. destruct (login_gate _ w); [by left|]. right. by left.
  - intros [= <-]. left. unfold change_password. by destruct (login_gate _ w).
  - intros [= <-]. left. unfold change_password. destruct (login_gate _ w); [done|].
    destruct (negb (String.eqb _ _)); [done|]. destruct (user_by_id _ _); [|done].
    by destruct (negb (check_password_hash _ _)).
  - intros [= <-]. left. unfold admin_panel. by destruct (admin_gate _ w).
  - intros [= <-]. by left.
  - intros [= <-]. by left.
  - destruct (admin_create_project _ _ _ _ _); [|discriminate]. intros [= <-]. by left.
  - intros [= <-]. by left.
  - intros [= <-]. by left.
  - intros [= <-]. left. unfold download_backup. by destruct (admin_gate _ w).
  - intros [= <-]. by left.
  - intros [= <-]. by left.
  - intros [= <-]. by left.
  - intros [= <-]. by left.
  - intros [= <-]. left. unfold uploaded_file. by destruct (login_gate _ w).
Qed.

Lemma session_changes_at_login_and_logout_witness :
  exists out,
    serve (H := Sample.safe_name) (H0 := Sample.first_ten) (H1 := Fixture.check)
      (H2 := Fixture.dump) (H3 := Sample.digits_only) Sample.env 3 None (Post_login " admin " "admin123") Sample.store
    = Some out
    /\ out_session out = Some 1.
Proof.
  eexists. split; [reflexivity|].
  destruct (session_changes_at_login_and_logout (H := Sample.safe_name)
              (H0 := Sample.first_ten) (H1 := Fixture.check) (H2 := Fixture.dump) (H3 := Sample.digits_only)
              Sample.env 3 None (Post_login " admin " "admin123") Sample.store _ eq_refl)
    as [Hsame|[[Hlogout _]|(username & password & row & _ & _ & _ & Hs)]];
    [reflexivity | discriminate Hlogout | reflexivity].
Defined.

(** ** Accounts *)

Section Accounts.
Context `{Passwords}.

Lemma field_unique {A B} (field : A -> B) (l : list A) x y :
  NoDup (map field l) -> x ∈ l -> y ∈ l -> field x = field y -> x = y.
Proof.
  induction l as [|z l IH]; [by intros _ ?%elem_of_nil|].
  cbn [map]. intros [Hz Hl]%NoDup_cons Hx Hy E.
  apply elem_of_cons in Hx as [->|Hx], Hy as [->|Hy]; [done| | |by apply IH].
  - destruct Hz. rewrite E. by apply list_elem_of_In, in_map, list_elem_of_In.
  - destruct Hz. rewrite <- E. by apply list_elem_of_In, in_map, list_elem_of_In.
Qed.

Lemma user_by_name_self d u :
  NoDup (map u_username (users d)) -> u ∈ users d -> user_by_name d (u_username u) = Some u.
Proof.
  intros Hk Hin.
  destruct (find_is_Some (fun v => String.eqb (u_username v) (u_username u)) (users d) u Hin
              (String.eqb_refl _)) as [v Hv].
  unfold user_by_name. rewrite Hv. f_equal.
  apply find_elem in Hv as [Hv E]. apply String.eqb_eq in E.
  by apply (field_unique u_username (users d)).
Qed.

Lemma login_accepts username password session w row :
  user_by_name (db w) (strip username) = Some row ->
  check_password_hash (u_password_hash row) password = true ->
  login (Some (username, password)) session w
  = outcome (Plain (Redirect ep_dashboard)) w [] (Some (u_id row)).
Proof. intros Hrow Hcheck. unfold login. by rewrite Hrow, Hcheck. Qed.

End Accounts.

(** X6. An account an administrator creates under a free name can log
    in: the new row is added after the others with a fresh id, the
    trimmed name and the role of the checkbox, and a login with the
    name and the password of the form opens a session for it, provided
    the hash library accepts the password for the hash it made. *)
Theorem created_user_can_log_in `{Passwords} (env : Env) (u : User) (f : UserForm)
    (session : option Z) (w : World) :
  u_is_admin u = true ->
  is_empty (strip (uf_username f)) = false ->
  is_empty (uf_password f) = false ->
  existsb (fun v => String.eqb (u_username v) (strip (uf_username f))) (users (db w)) = false ->
  check_password_hash (generate_password_hash env (uf_password f)) (uf_password f) = true ->
  let r := admin_create_user env (Some u) f w in
  let out := login (Some (uf_username f, uf_password f)) session (world r) in
  exists row,
    users (db (world r)) = (users (db w) ++ [row])%list
    /\ u_username row = strip (uf_username f)
    /\ u_is_admin row = bool_decide (uf_is_admin f = Some "on")
    /\ (u_id row ∉ map u_id (users (db w)))
    /\ out_session out = Some (u_id row)
    /\ out_reply out = Plain (Redirect ep_dashboard).
Proof.
  intros Hadmin Hname Hpw Hfree Hhash r out. subst out r.
  unfold admin_create_user, admin_required. rewrite admin_gate_admin by done.
  unfold guarded, create_user_view, insert_user. rewrite Hname, Hpw, Hfree. cbn [orb].
  match goal with |- context [(users (db w) ++ [?x])%list] => set (row := x) end.
  exists row. cbn [world reply set_db db users].
  split; [done|]. split; [done|]. split; [done|]. split; [apply fresh_key|].
  assert (List.find (fun v => String.eqb (u_username v) (strip (uf_username f))) (users (db w))
          = None) as Hnone.
  { destruct (List.find _ _) as [v|] eqn:E; [|done].
    apply find_elem in E as [Hv E]. apply existsb_eqb_false in Hfree. destruct Hfree.
    apply String.eqb_eq in E. rewrite <- E.
    by apply list_elem_of_In, in_map, list_elem_of_In. }
  erewrite login_accepts; [done| |exact Hhash].
  unfold user_by_name. cbn [db users set_db].
  apply find_app_new; [done | apply String.eqb_refl].
Qed.

Lemma created_user_can_log_in_witness :
  let r := admin_create_user Sample.env (Some Sample.admin) Fixture.user_form Sample.store in
  let out := login (H := Fixture.check) (Some (" eva ", "secret")) None (world r) in
  map u_username (users (db (world r))) = ["admin"; "ana"; "eva"]
  /\ out_session out = Some 3.
Proof.
  intros r out.
  destruct (created_user_can_log_in (H := Fixture.check) Sample.env Sample.admin
              Fixture.user_form None Sample.store) as (row & Husers & _ & _ & _ & Hs & _);
    [reflexivity..|].
  fold r in Husers. split; [reflexivity|].
  assert (u_id row = 3) as <-; [|exact Hs].
  vm_compute in Husers. by injection Husers as <-.
Defined.

(** X7. A logged-in user who supplies the current password and the new
    one twice gets the new one: exactly the hash of the own row
    changes, and a login under the own name with the new password then
    opens a session for the same account, provided the hash library
    accepts the new password for the hash it made.  With two different
    new passwords, or a wrong current one, nothing changes. *)
Theorem changed_password_logs_in `{Passwords} (env : Env) (session : option Z) (w : World)
    (u : User) (current new name : string) :
  current_user_of (db w) session = Some u ->
  NoDup (map u_username (users (db w))) ->
  check_password_hash (u_password_hash u) current = true ->
  check_password_hash (generate_password_hash env new) new = true ->
  strip name = u_username u ->
  let out := change_password env (Some (current, new, new)) session w in
  out_flashed out = [("Contraseña actualizada.", "success")]
  /\ Forall2 (same_account (u_id u)) (users (db w)) (users (db (out_world out)))
  /\ user_by_id (db (out_world out)) (u_id u)
     = Some (set_password (u_id u) (generate_password_hash env new) u)
  /\ out_session (login (Some (name, new)) None (out_world out)) = Some (u_id u)
  /\ (forall tried n1 n2,
        n1 <> n2 \/ check_password_hash (u_password_hash u) tried = false ->
        out_world (change_password env (Some (tried, n1, n2)) session w) = w).
Proof.
  intros Hu Hnames Hcurrent Hnew Hname out. subst out.
  pose proof (current_user_loaded _ _ _ Hu) as Hrow.
  pose proof (user_by_id_elem _ _ _ Hrow) as [Hin _].
  unfold change_password. rewrite Hu. cbn [login_gate].
  split; [|split; [|split; [|split]]].
  - by rewrite String.eqb_refl, Hrow, Hcurrent.
  - rewrite String.eqb_refl, Hrow, Hcurrent. cbn.
    apply Forall2_map_self. intros v. apply set_password_same_account.
  - rewrite String.eqb_refl, Hrow, Hcurrent. cbn. unfold user_by_id. cbn.
    rewrite find_map_test.
    + fold (user_by_id (db w) (u_id u)). by rewrite Hrow.
    + intros v. by destruct (set_password_fields (u_id u) (generate_password_hash env new) v)
        as [-> _].
  - rewrite String.eqb_refl, Hrow, Hcurrent. cbn [negb out_world outcome].
    erewrite login_accepts.
    + cbn. by destruct (set_password_fields (u_id u) (generate_password_hash env new) u)
        as [-> _].
    + rewrite Hname. unfold user_by_name. cbn [db set_db users set_users].
      rewrite find_map_test.
      * fold (user_by_name (db w) (u_username u)). by rewrite user_by_name_self.
      * intros v. by destruct (set_password_fields (u_id u) (generate_password_hash env new) v)
          as (_ & -> & _).
    + unfold set_password. by rewrite Z.eqb_refl.
  - intros tried n1 n2 [Hdiff|Hwrong].
    + apply String.eqb_neq in Hdiff. by rewrite Hdiff.
    + destruct (negb (String.eqb n1 n2)); [done|]. by rewrite Hrow, Hwrong.
Qed.

Lemma changed_password_logs_in_witness :
  let out := change_password (H := Fixture.check) Sample.env (Some ("ana", "x", "x")) (Some 2)
               Sample.store in
  out_session (login (H := Fixture.check) (Some ("ana ", "x")) None (out_world out)) = Some 2
  /\ out_world (change_password (H := Fixture.check) Sample.env (Some ("bob", "x", "x")) (Some 2)
                  Sample.store) = Sample.store.
Proof.
  intros out.
  destruct (changed_password_logs_in (H := Fixture.check) Sample.env (Some 2) Sample.store
              Sample.reader "ana" "x" "ana ") as (_ & _ & _ & Hlogin & Hrefused);
    [reflexivity | | reflexivity..|].
  { apply NoDup_ListNoDup. repeat constructor; simpl; intuition discriminate. }
  split; [exact Hlogin|]. apply Hrefused. right. reflexivity.
Defined.

(** ** Start-up *)

Section StartUp.

Lemma backfill_idem g p : backfill g (backfill g p) = backfill g p.
Proof.
  destruct p as [i fp fn dn de at_ by_ pj].
  destruct fp as [[|c s]|], fn as [fn|], pj as [j|]; reflexivity.
Qed.

Lemma insert_user_shape username hash d d' :
  insert_user username hash true d = Some d' ->
  existsb u_is_admin (users d') = true
  /\ users d `prefix_of` users d' /\ projects d' = projects d /\ photos d' = photos d.
Proof.
  unfold insert_user. destruct (existsb _ _); [discriminate|]. intros [= <-]. cbn.
  split; [by rewrite existsb_app; cbn; rewrite orb_true_r|].
  split; [by eexists | done].
Qed.

Lemma insert_project_shape env name slug description status d d' :
  insert_project env name slug description status d = Some d' ->
  users d' = users d /\ projects d `prefix_of` projects d' /\ photos d' = photos d.
Proof.
  unfold insert_project. destruct (existsb _ _); [discriminate|]. intros [= <-]. cbn.
  split; [done|]. split; [by eexists | done].
Qed.

(** What a start leaves: the tables after the two seeding steps, with
    the back-fill applied to the photos, and the directory made. *)
Lemma ensure_shape env w w' :
  ensure_admin_and_default_project env w = Some w' ->
  exists d g,
    existsb u_is_admin (users d) = true
    /\ project_by_slug d "general" = Some g
    /\ users (db w) `prefix_of` users d
    /\ projects (db w) `prefix_of` projects d
    /\ photos d = photos (db w)
    /\ w' = {| db := set_photos (map (backfill (pr_id g)) (photos d)) d;
               fs := mkdir "general" (fs w) |}.
Proof.
  unfold ensure_admin_and_default_project.
  destruct (if existsb u_is_admin (users (db w)) then Some (db w) else _) as [d1|] eqn:E1;
    [|discriminate]. cbn [mbind option_bind].
  assert (existsb u_is_admin (users d1) = true /\ users (db w) `prefix_of` users d1
          /\ projects d1 = projects (db w) /\ photos d1 = photos (db w))
    as (Ha1 & Hu1 & Hp1 & Hph1).
  { destruct (existsb u_is_admin (users (db w))) eqn:Ea.
    - injection E1 as <-. by repeat split.
    - by apply insert_user_shape in E1. }
  destruct (if slug_taken d1 "general" then Some d1 else _) as [d2|] eqn:E2;
    [|discriminate]. cbn [mbind option_bind].
  assert (users d2 = users d1 /\ projects d1 `prefix_of` projects d2 /\ photos d2 = photos d1)
    as (Hu2 & Hp2 & Hph2).
  { destruct (slug_taken d1 "general").
    - injection E2 as <-. by repeat split.
    - by apply insert_project_shape in E2. }
  destruct (project_by_slug d2 "general") as [g|] eqn:Eg; [|discriminate].
  cbn [mbind option_bind]. intros [= <-]. exists d2, g.
  split; [by rewrite Hu2|]. split; [done|]. split; [by rewrite Hu2|].
  split; [by rewrite <- Hp1|]. split; [by rewrite Hph2|]. done.
Qed.

Lemma mkdir_idem d f : mkdir d (mkdir d f) = mkdir d f.
Proof.
  unfold mkdir. destruct (locate d); [|done]. cbn. f_equal.
  by rewrite (assoc_L _), union_idemp_L.
Qed.

End StartUp.

(** X8. Starting the application again changes nothing: a store that a
    start has produced is the result of any further start on it. *)
Theorem startup_idempotent (env env' : Env) (w w' : World) :
  ensure_admin_and_default_project env w = Some w' ->
  ensure_admin_and_default_project env' w' = Some w'.
Proof.
  intros (d & g & Hadmin & Hgen & _ & _ & _ & ->)%ensure_shape.
  unfold ensure_admin_and_default_project. cbn [db fs users set_photos].
  rewrite Hadmin. cbn [mbind option_bind].
  assert (project_by_slug (set_photos (map (backfill (pr_id g)) (photos d)) d) "general"
          = Some g) as Hgen' by exact Hgen.
  unfold slug_taken. rewrite Hgen'. cbn [mbind option_bind]. rewrite Hgen'.
  cbn [mbind option_bind]. rewrite mkdir_idem. do 2 f_equal.
  unfold set_photos. cbn. f_equal.
  rewrite map_map. apply map_ext. intros p. apply backfill_idem.
Qed.

Lemma startup_idempotent_witness :
  exists w',
    ensure_admin_and_default_project Sample.env Fixture.legacy_store = Some w'
    /\ ensure_admin_and_default_project Sample.failing_env w' = Some w'
    /\ map ph_filepath (photos (db w')) = [Some "general/old.jpg"].
Proof.
  eexists. split; [reflexivity|]. split; [|reflexivity].
  apply (startup_idempotent Sample.env Sample.failing_env Fixture.legacy_store). reflexivity.
Defined.

(** X9. A start adds and repairs, and removes nothing: the users and
    the projects that were there stay, in their order; the photos
    keep their ids; afterwards an administrator is there, every photo
    has a project, and every photo with a file name has a path that is
    not empty.  No file is touched, and the directory [general] is
    there. *)
Theorem startup_repairs (env : Env) (w w' : World) :
  ensure_admin_and_default_project env w = Some w' ->
  users (db w) `prefix_of` users (db w')
  /\ projects (db w) `prefix_of` projects (db w')
  /\ map ph_id (photos (db w')) = map ph_id (photos (db w))
  /\ existsb u_is_admin (users (db w')) = true
  /\ (forall p, p ∈ photos (db w') ->
      ph_project_id p <> None
      /\ (ph_filename p <> None -> exists fp, ph_filepath p = Some fp /\ fp <> ""))
  /\ files (fs w') = files (fs w)
  /\ "general" ∈ dirs (fs w').
Proof.
  intros (d & g & Hadmin & Hgen & Hu & Hp & Hph & ->)%ensure_shape.
  rewrite mkdir_general.
  cbn [db fs users projects photos set_photos files dirs].
  split; [done|]. split; [done|]. split.
  { rewrite map_map, <- Hph. apply map_ext. intros p. apply backfill_fields. }
  split; [done|]. split; [|split; [done | apply elem_of_union_l, elem_of_singleton_2; done]].
  intros p' Hp'. apply list_elem_of_In, in_map_iff in Hp' as (p & <- & _).
  destruct p as [i fp fn dn de at_ by_ pj]. split.
  - by destruct pj.
  - cbn. destruct fn as [fn|]; [intros _ | done].
    destruct fp as [[|c s]|]; eexists; (split; [reflexivity | discriminate]).
Qed.

Lemma startup_repairs_witness :
  exists w',
    ensure_admin_and_default_project Sample.env Fixture.legacy_store = Some w'
    /\ map ph_project_id (photos (db w')) = [Some 1]
    /\ existsb u_is_admin (users (db w')) = true.
Proof.
  eexists. split; [reflexivity|].
  destruct (startup_repairs Sample.env Fixture.legacy_store _ eq_refl)
    as (_ & _ & _ & Hadmin & _).
  split; [reflexivity | exact Hadmin].
Defined.

(** ** Uploading, seen from the listing *)

Section UploadFacts.
Context `{Werkzeug} `{SQLite} `{!Builtins}.

(** The handler on a request that passes every check. *)
Lemma upload_accepts env u f w project_id proj name content :
  u_is_admin u = true ->
  is_empty (strip (up_project_id f)) = false ->
  project_by_text (db w) (strip (up_project_id f)) = Some proj ->
  py_int (strip (up_project_id f)) = Some project_id ->
  up_photo f = Some (name, content) ->
  is_empty name = false ->
  is_empty (strip (up_display_name f)) = false ->
  allowed_ext (extension name) = true ->
  exists k,
    let final_name :=
      stamped_name (base_or_stamp env (strip (up_display_name f)) 0).1 (clock env k)
        (extension name) in
    let filepath := pr_slug proj ++ "/" ++ final_name in
    upload env (Some u) (Some f) w
    = reply (Redirect ep_dashboard)
        {| db := insert_photo env filepath final_name (strip (up_display_name f))
                   (strip (up_description f)) (u_id u) project_id (db w);
           fs := save (pr_slug proj) final_name content (mkdir (pr_slug proj) (fs w)) |}
        [("Imagen subida correctamente.", "success")].
Proof.
  intros Hu Hpid Hproj Hint Hfile Hname Hdn Hext.
  unfold upload, upload_required. rewrite upload_gate_admin by done.
  unfold guarded, upload_view. rewrite Hpid, Hproj, Hfile, Hname, Hdn, Hext. cbn [negb].
  destruct (base_or_stamp env (strip (up_display_name f)) 0) as [base n].
  rewrite Hint. by exists n.
Qed.

Lemma strongly_sorted_head {A} (R : relation A) (l : list A) (x : A) :
  StronglySorted R l -> x ∈ l -> (forall y, y ∈ l -> y = x \/ ~ R y x) ->
  exists rest, l = x :: rest.
Proof.
  intros Hs Hx Hmax. destruct l as [|h t]; [by apply elem_of_nil in Hx|].
  apply StronglySorted_inv in Hs as [_ Hh].
  apply elem_of_cons in Hx as [->|Hx]; [by eexists|].
  destruct (Hmax h) as [->|Hnot]; [by left | by eexists|].
  destruct Hnot. rewrite Forall_forall in Hh. apply Hh. first [done | by apply list_elem_of_In].
Qed.

(** Where [file.save] writes, for a directory and a name inside the
    tree. *)
Lemma save_files d name content f kd kn :
  locate d = Some kd -> locate name = Some kn ->
  is_empty kd = false -> is_empty kn = false ->
  files (save d name content f) = <[kd ++ "/" ++ kn := content]> (files f)
  /\ dirs (save d name content f) = dirs f.
Proof. intros Hd Hn Hkd Hkn. unfold save. by rewrite Hd, Hn, Hkd, Hkn. Qed.

End UploadFacts.


(** The text [2.0] in the project field: SQLite finds the project 2,
    the file is saved, [int] raises, and no row is written. *)
Example upload_point_zero :
  let r := upload (H := Sample.safe_name) (H0 := Sample.first_ten) (H1 := Sample.digits_only)
             Sample.env (Some Sample.admin) (Some Fixture.upload_form_point_zero)
             Sample.store in
  response r = Server_error
  /\ db (world r) = db Sample.store
  /\ files (fs (world r)) !! "roof_a/ridge_1700000000.jpg" = Some "JPEG-3".
Proof. vm_compute. done. Qed.



(** ** Editing and deleting a photo *)

Section PhotoFacts.
Context `{Werkzeug} `{SQLite} `{!Builtins}.

Lemma edit_row_same_origin i dn de pj fp fn p : same_origin i p (edit_row i dn de pj fp fn p).
Proof.
  unfold same_origin, edit_row. destruct (ph_id p =? i) eqn:E; cbn; [|done].
  repeat split. intros Hne. lia.
Qed.

(** What a path holds after the move of a regular file. *)
Lemma replace_file_frame env src dst f f1 ks kd c p :
  locate src = Some ks -> locate dst = Some kd -> files f !! ks = Some c ->
  replace env src dst f = inr f1 ->
  dirs f1 = dirs f
  /\ (files f1 !! p = files f !! p
      \/ (p = ks /\ files f1 !! p = None)
      \/ (p = kd /\ files f1 !! p = Some c)).
Proof.
  intros Hks Hkd Hc Hmove.
  rewrite (replace_file env src dst f f1 ks kd c Hks Hkd Hc Hmove). cbn [files dirs].
  split; [done|].
  destruct (decide (p = kd)) as [->|Hdst]; [right; right; by rewrite lookup_insert_eq|].
  rewrite lookup_insert_ne by done.
  destruct (decide (p = ks)) as [->|Hne]; [right; left; by rewrite lookup_delete_eq|].
  left. by rewrite lookup_delete_ne.
Qed.

Lemma edit_plan_project env photo new_proj new_display_name new_project_id f :
  project_changed photo new_project_id = true ->
  name_changed photo new_display_name = false ->
  edit_plan env photo new_proj new_display_name new_project_id f
  = if negb (is_empty (get_photo_filepath photo))
       && path_exists env f (get_photo_filepath photo)
    then if path_exists env f (pr_slug new_proj ++ "/" ++ old_filename_of photo)
         then Move (pr_slug new_proj ++ "/"
                      ++ stamped_name (base_or_stamp env new_display_name 0).1
                           (clock env (base_or_stamp env new_display_name 0).2)
                           (kept_extension (old_filename_of photo)))
                (stamped_name (base_or_stamp env new_display_name 0).1
                   (clock env (base_or_stamp env new_display_name 0).2)
                   (kept_extension (old_filename_of photo)))
         else Move (pr_slug new_proj ++ "/" ++ old_filename_of photo) (old_filename_of photo)
    else Missing.
Proof.
  intros Hp Hn. unfold edit_plan. rewrite Hp, Hn.
  by destruct (base_or_stamp env new_display_name 0).
Qed.

(** The closing [UPDATE], by what [int] makes of the project field. *)
Lemma edit_commit_outcome photo_id dn de text fp fn f warnings w photo new_proj :
  photo_by_id (db w) photo_id = Some photo ->
  project_by_text (db w) text = Some new_proj ->
  let r := edit_commit photo_id dn de text fp fn f warnings w in
  fs (world r) = f
  /\ match py_int text with
     | Some j =>
         j = pr_id new_proj
         /\ photo_by_id (db (world r)) photo_id
            = Some (edited photo dn de (pr_id new_proj) fp fn)
         /\ response r = Redirect ep_dashboard
         /\ flashed r = (warnings ++ [("Foto actualizada.", "success")])%list
     | None => response r = Server_error /\ db (world r) = db w /\ flashed r = warnings
     end.
Proof.
  intros Hp Hproj r. subst r.
  destruct (py_int text) as [j|] eqn:Hj.
  - assert (j = pr_id new_proj) as Hid.
    { revert Hproj. unfold project_by_text.
      destruct (sql_integer text) as [i|] eqn:Hi; [|discriminate].
      cbn [mbind option_bind]. intros Hproj.
      pose proof (project_by_id_elem _ _ _ Hproj) as [_ E].
      rewrite <- (py_int_value text i j Hi Hj). done. }
    split; [unfold edit_commit; by rewrite Hj|].
    split; [done|]. split; [rewrite <- Hid; by apply edit_commit_row|].
    unfold edit_commit. by rewrite Hj.
  - unfold edit_commit. by rewrite Hj.
Qed.

End PhotoFacts.

(** X12. What editing a photo leaves alone, whatever the request and
    its outcome: the users and the projects, and every photo row but
    the one edited, which keeps its id, its upload time and its owner.
    The tree is as it was; or the directory of the target project is
    made sure of and nothing else is done; or, after that, the path
    recorded for the photo is moved to one destination.  In the last
    case, when that path names a regular file inside the tree, the
    directories stay and every file but the photo's own: its path is
    the only one that can lose its file, and the destination is the
    only one whose content can change, to the content of the photo's
    file. *)
Theorem edit_photo_frame `{Werkzeug} `{SQLite} `{!Builtins} (env : Env) (cu : option User)
    (photo_id : Z) (form : option EditForm) (w : World) :
  let r := edit_photo env cu photo_id form w in
  users (db (world r)) = users (db w)
  /\ projects (db (world r)) = projects (db w)
  /\ Forall2 (same_origin photo_id) (photos (db w)) (photos (db (world r)))
  /\ (fs (world r) = fs w
      \/ exists photo f new_proj,
           photo_by_id (db w) photo_id = Some photo
           /\ form = Some f
           /\ project_by_text (db w) (strip (ed_project_id f)) = Some new_proj
           /\ files (mkdir (pr_slug new_proj) (fs w)) = files (fs w)
           /\ dirs (fs w) ⊆ dirs (mkdir (pr_slug new_proj) (fs w))
           /\ (fs (world r) = mkdir (pr_slug new_proj) (fs w)
               \/ exists dst,
                    replace env (get_photo_filepath photo) dst (mkdir (pr_slug new_proj) (fs w))
                    = inr (fs (world r))
                    /\ forall ks kd c,
                         locate (get_photo_filepath photo) = Some ks ->
                         locate dst = Some kd ->
                         files (fs w) !! ks = Some c ->
                         dirs (fs (world r)) = dirs (mkdir (pr_slug new_proj) (fs w))
                         /\ forall p,
                              files (fs (world r)) !! p = files (fs w) !! p
                              \/ (p = ks /\ files (fs (world r)) !! p = None)
                              \/ (p = kd /\ files (fs (world r)) !! p = Some c))).
Proof.
  intros r. subst r.
  assert (forall w', w' = w ->
    users (db w') = users (db w) /\ projects (db w') = projects (db w)
    /\ Forall2 (same_origin photo_id) (photos (db w)) (photos (db w'))
    /\ (fs w' = fs w
        \/ exists photo f new_proj,
             photo_by_id (db w) photo_id = Some photo
             /\ form = Some f
             /\ project_by_text (db w) (strip (ed_project_id f)) = Some new_proj
             /\ files (mkdir (pr_slug new_proj) (fs w)) = files (fs w)
             /\ dirs (fs w) ⊆ dirs (mkdir (pr_slug new_proj) (fs w))
             /\ (fs w' = mkdir (pr_slug new_proj) (fs w)
                 \/ exists dst,
                      replace env (get_photo_filepath photo) dst (mkdir (pr_slug new_proj) (fs w))
                      = inr (fs w')
                      /\ forall ks kd c,
                           locate (get_photo_filepath photo) = Some ks ->
                           locate dst = Some kd ->
                           files (fs w) !! ks = Some c ->
                           dirs (fs w') = dirs (mkdir (pr_slug new_proj) (fs w))
                           /\ forall p,
                                files (fs w') !! p = files (fs w) !! p
                                \/ (p = ks /\ files (fs w') !! p = None)
                                \/ (p = kd /\ files (fs w') !! p = Some c)))) as Hsame.
  { intros w' ->. repeat split; [|by left].
    apply Forall2_same. by intros p. }
  unfold edit_photo, admin_required.
  destruct (admin_gate cu w) as [r|u] eqn:Hgate; unfold guarded.
  { apply Hsame. by apply admin_gate_refuses in Hgate as [? _]. }
  unfold edit_photo_view.
  destruct (photo_by_id (db w) photo_id) as [photo|] eqn:Hphoto; [|by apply Hsame].
  destruct form as [f|]; [|by apply Hsame].
  destruct (is_empty (strip (ed_display_name f))); [by apply Hsame|].
  destruct (is_empty (strip (ed_project_id f))); [by apply Hsame|].
  destruct (project_by_text (db w) (strip (ed_project_id f))) as [new_proj|] eqn:Hproj;
    [|by apply Hsame].
  assert (forall dn de fp fn f1 warnings,
    let r := edit_commit photo_id dn de (strip (ed_project_id f)) fp fn f1 warnings w in
    users (db (world r)) = users (db w)
    /\ projects (db (world r)) = projects (db w)
    /\ Forall2 (same_origin photo_id) (photos (db w)) (photos (db (world r)))
    /\ fs (world r) = f1)
    as Hcommit.
  { intros. subst r. unfold edit_commit.
    destruct (py_int (strip (ed_project_id f))) as [j|];
      cbn [world reply db fs users projects photos set_photos].
    - repeat split. apply Forall2_map_self. intros p. apply edit_row_same_origin.
    - repeat split. apply Forall2_same. by intros p. }
  destruct (edit_plan _ _ _ _ _ _) as [new_fp new_filename| |dst new_filename].
  - destruct (Hcommit (strip (ed_display_name f)) (strip (ed_description f)) new_fp new_filename
                (mkdir (pr_slug new_proj) (fs w)) []) as (Hu & Hpr & Hrows & Hfs).
    split; [done|]. split; [done|]. split; [done|]. right. exists photo, f, new_proj.
    repeat (split; [first [done | apply files_mkdir | apply dirs_mkdir]|]). by left.
  - destruct (Hcommit (strip (ed_display_name f)) (strip (ed_description f))
                (get_photo_filepath photo) (old_filename_of photo)
                (mkdir (pr_slug new_proj) (fs w))
                [("Aviso: no se encontró el archivo físico para mover/renombrar.", "error")])
      as (Hu & Hpr & Hrows & Hfs).
    split; [done|]. split; [done|]. split; [done|]. right. exists photo, f, new_proj.
    repeat (split; [first [done | apply files_mkdir | apply dirs_mkdir]|]). by left.
  - destruct (replace env (get_photo_filepath photo) dst _) as [e|f1] eqn:Hmove.
    + cbn [world reply set_fs db fs].
      split; [done|]. split; [done|]. split; [apply Forall2_same; by intros p|].
      right. exists photo, f, new_proj.
      repeat (split; [first [done | apply files_mkdir | apply dirs_mkdir]|]). by left.
    + destruct (Hcommit (strip (ed_display_name f)) (strip (ed_description f)) dst new_filename
                  f1 []) as (Hu & Hpr & Hrows & Hfs).
      split; [done|]. split; [done|]. split; [done|]. right. exists photo, f, new_proj.
      repeat (split; [first [done | apply files_mkdir | apply dirs_mkdir]|]).
      right. exists dst. rewrite Hfs. split; [done|].
      intros ks kd c Hks Hkd Hc. rewrite <- (files_mkdir (pr_slug new_proj)) in Hc.
      split.
      * by destruct (replace_file_frame env _ dst _ f1 ks kd c ks Hks Hkd Hc Hmove).
      * intros p. destruct (replace_file_frame env _ dst _ f1 ks kd c p Hks Hkd Hc Hmove)
          as [_ Hp]. by rewrite files_mkdir in Hp.
Qed.


(** The text [1.0] in the project field of an edit: the file is moved
    to the directory of project 1, [int] raises, and the row still
    records the old path. *)
Example edit_photo_point_zero :
  let r := edit_photo (H := Sample.safe_name) (H0 := Sample.first_ten)
             (H1 := Sample.digits_only) Sample.env (Some Sample.admin) 1
             (Some Fixture.move_form_point_zero) Sample.store in
  response r = Server_error
  /\ photo_by_id (db (world r)) 1 = Some Sample.panel
  /\ files (fs (world r)) !! "roof_a/panel_1.jpg" = None
  /\ files (fs (world r)) !! "general/panel_1.jpg" = Some "JPEG-1".
Proof. vm_compute. done. Qed.




(** ** The backup *)

(** X15. The backup of an administrator holds the database file and
    every file of the tree, each once: its entries have distinct
    names; an entry is the database under [backup/app.db] or a file at
    [p] of the tree, with its content, under [backup/uploads/p]; and
    the request changes neither the store nor the session. *)
Theorem backup_holds_database_and_files `{Storage} (u : User) (session : option Z) (w : World) :
  current_user_of (db w) session = Some u ->
  u_is_admin u = true ->
  exists entries,
    download_backup session w = outcome (Send_backup entries) w [] session
    /\ NoDup (map fst entries)
    /\ forall name content,
         (name, content) ∈ entries
         <-> (name = "backup/app.db" /\ content = db_file (db w))
             \/ exists p, name = "backup/uploads/" ++ p /\ files (fs w) !! p = Some content.
Proof.
  intros Hcu Hu. exists (backup_entries w). unfold download_backup.
  rewrite Hcu, admin_gate_admin by done. split; [done|].
  unfold backup_entries. cbn [map fst]. split.
  - apply NoDup_cons. split.
    + intros Hin. apply list_elem_of_In in Hin. rewrite map_map in Hin.
      apply in_map_iff in Hin as (e & E & _). cbn in E. discriminate.
    + rewrite map_map.
      change (map (fun e : string * string => ("backup/uploads/" ++ e.1, e.2).1)
                (map_to_list (files (fs w))))
        with (map (fun e : string * string => "backup/uploads/" ++ e.1)
                (map_to_list (files (fs w)))).
      rewrite <- (map_map fst (String.append "backup/uploads/")).
      apply (NoDup_fmap_2 (String.append "backup/uploads/")).
      apply (NoDup_fst_map_to_list (files (fs w))).
  - intros name content. rewrite elem_of_cons. split.
    + intros [[= -> ->]|Hin]; [by left|]. right.
      apply list_elem_of_In, in_map_iff in Hin as ([p c] & [= <- <-] & Hin).
      exists p. split; [done|]. by apply elem_of_map_to_list, list_elem_of_In.
    + intros [[-> ->]|(p & -> & Hp)]; [by left|]. right.
      apply list_elem_of_In, in_map_iff. exists (p, content). split; [done|].
      by apply list_elem_of_In, elem_of_map_to_list.
Qed.

Lemma backup_holds_database_and_files_witness :
  exists entries,
    download_backup (H := Fixture.dump) (Some 1) Sample.store
    = outcome (Send_backup entries) Sample.store [] (Some 1)
    /\ ("backup/uploads/roof_a/gutter.jpg", "JPEG-2") ∈ entries.
Proof.
  destruct (backup_holds_database_and_files (H := Fixture.dump) Sample.admin (Some 1)
              Sample.store eq_refl eq_refl) as (entries & Hout & _ & Hin).
  exists entries. split; [exact Hout|]. apply Hin. right. by exists "roof_a/gutter.jpg".
Defined.

(** ** Editing a project *)

Lemma renamed_same_place i name description status p :
  same_place i p (renamed i name description status p).
Proof.
  unfold same_place, renamed. destruct (pr_id p =? i) eqn:E; cbn; [|done].
  repeat split. intros Hne. lia.
Qed.

(** X16. Editing a project never moves it: whatever the request, the
    users, the photos and the tree stay as they are, every project row
    keeps its id, its slug and its creation time, and the rows of the
    other projects do not change at all.  A name another project has
    is refused, with the store unchanged.  So the paths recorded for
    the photos of a project stay under its directory when it is
    renamed. *)
Theorem edit_project_keeps_place (cu : option User) (project_id : Z)
    (form : option ProjectForm) (w : World) :
  let r := admin_edit_project cu project_id form w in
  users (db (world r)) = users (db w)
  /\ photos (db (world r)) = photos (db w)
  /\ fs (world r) = fs w
  /\ Forall2 (same_place project_id) (projects (db w)) (projects (db (world r)))
  /\ forall f other,
       form = Some f -> other ∈ projects (db w) -> pr_id other <> project_id ->
       pr_name other = strip (project_name f) ->
       world r = w.
Proof.
  intros r. subst r.
  assert (forall w', w' = w ->
    users (db w') = users (db w) /\ photos (db w') = photos (db w) /\ fs w' = fs w
    /\ Forall2 (same_place project_id) (projects (db w)) (projects (db w'))
    /\ forall (f : ProjectForm) (other : Project),
         form = Some f -> other ∈ projects (db w) -> pr_id other <> project_id ->
         pr_name other = strip (project_name f) -> w' = w) as Hsame.
  { intros w' ->. split; [done|]. split; [done|]. split; [done|].
    split; [apply Forall2_same; by intros p | done]. }
  unfold admin_edit_project, admin_required.
  destruct (admin_gate cu w) as [r|u] eqn:Hgate; unfold guarded.
  { apply Hsame. by apply admin_gate_refuses in Hgate as [? _]. }
  unfold edit_project_view.
  destruct (project_by_id (db w) project_id) as [project|]; [|by apply Hsame].
  destruct form as [f|]; [|by apply Hsame].
  destruct (is_empty (strip (project_name f))); [by apply Hsame|].
  unfold rename_project.
  destruct (existsb _ _) eqn:Hused; [by apply Hsame|].
  cbn [world reply set_db db fs set_projects users photos projects].
  split; [done|]. split; [done|]. split; [done|]. split.
  { apply Forall2_map_self. intros p.
    apply (renamed_same_place project_id (strip (project_name f))
             (strip (project_description f)) (status_of f) p). }
  intros f' other [= <-] Hother Hid Hname. exfalso.
  assert (existsb (fun p => String.eqb (pr_name p) (strip (project_name f))
                            && negb (pr_id p =? project_id)) (projects (db w)) = true) as E.
  { apply existsb_exists. exists other. split; [by apply list_elem_of_In|].
    rewrite Hname, String.eqb_refl. cbn. by apply negb_true_iff, Z.eqb_neq. }
  congruence.
Qed.

(** ** The slugs of the projects *)

Section SafeSlugs.
Context `{Werkzeug} `{SQLite} `{Passwords} `{Storage} `{!Builtins}.

Lemma slugify_safe name : slug_safe (slugify name).
Proof.
  unfold slug_safe, slugify.
  pose proof (Forall_slug_char_filter
                (Text.sub_space_runs false (Text.lower (Text.strip (Text.of_string name))))) as Hall.
  fold (slug_normal (Text.of_string name)) in Hall.
  destruct (slug_normal (Text.of_string name)) as [|c n] eqn:E.
  - split; [done | repeat constructor].
  - split; [done|]. rewrite of_to_string. by apply Forall_take.
Qed.

Lemma suffixed_safe base i : slug_safe base -> slug_safe (suffixed base i).
Proof.
  intros [Hne Hall]. unfold suffixed. split.
  - destruct base; [done | discriminate].
  - rewrite !of_string_app, !Forall_app. split; [done|]. split; [repeat constructor|].
    apply pretty_Z_slug.
Qed.

Lemma free_slug_safe fuel d base slug i s :
  slug_safe base -> slug_safe slug -> free_slug fuel d base slug i = Some s -> slug_safe s.
Proof.
  intros Hbase. revert slug i. induction fuel as [|fuel IH]; intros slug i Hslug; [discriminate|].
  cbn [free_slug]. destruct (slug_taken d slug); [|by intros [= <-]].
  apply IH. by apply suffixed_safe.
Qed.

Lemma insert_project_safe env name slug description status d d' :
  safe_slugs d -> slug_safe slug ->
  insert_project env name slug description status d = Some d' -> safe_slugs d'.
Proof.
  intros Hd Hslug. unfold insert_project. destruct (existsb _ _); [discriminate|].
  intros [= <-]. unfold safe_slugs. cbn [projects].
  apply Forall_app. split; [exact Hd|]. by constructor.
Qed.

Lemma create_project_view_safe env fuel f w r :
  safe_slugs (db w) -> create_project_view env fuel f w = Some r -> safe_slugs (db (world r)).
Proof.
  intros Hw. unfold create_project_view.
  destruct (is_empty _); [by intros [= <-]|].
  destruct (free_slug _ _ _ _ _) as [slug|] eqn:Hfree; [|discriminate].
  apply free_slug_safe in Hfree; [|apply slugify_safe..].
  destruct (insert_project _ _ _ _ _ _) as [d|] eqn:E; intros [= <-]; [|done].
  by apply insert_project_safe in E.
Qed.

Lemma edit_project_view_safe project_id form cu w :
  safe_slugs (db w) -> safe_slugs (db (world (edit_project_view project_id form cu w))).
Proof.
  intros Hw. unfold edit_project_view.
  destruct (project_by_id (db w) project_id) as [project|]; [|done].
  destruct form as [f|]; [|done].
  destruct (is_empty _); [done|]. unfold rename_project.
  destruct (existsb _ _); [done|].
  unfold safe_slugs. cbn [world reply set_db db set_projects projects].
  apply Forall_forall. intros p' Hp'.
  apply list_elem_of_In, in_map_iff in Hp' as (p & <- & Hp).
  unfold safe_slugs in Hw. rewrite Forall_forall in Hw.
  specialize (Hw p ltac:(by apply list_elem_of_In)).
  by destruct (pr_id p =? project_id).
Qed.

Lemma delete_project_view_safe env project_id cu w :
  safe_slugs (db w) -> safe_slugs (db (world (delete_project_view env project_id cu w))).
Proof.
  intros Hw. unfold delete_project_view.
  destruct (project_by_id (db w) project_id) as [proj|]; [|done].
  destruct (String.eqb (pr_slug proj) "general"); [done|].
  destruct (project_by_slug (db w) "general") as [general|]; [|done].
  unfold safe_slugs. cbn [world reply set_db db set_projects projects].
  rewrite relocate_all_projects. cbn [l_world set_fs db].
  apply Forall_forall. intros p Hp. apply list_elem_of_In, filter_In in Hp as [Hp _].
  unfold safe_slugs in Hw. rewrite Forall_forall in Hw. by apply Hw, list_elem_of_In.
Qed.

Lemma create_user_view_projects env f cu w :
  projects (db (world (create_user_view env f cu w))) = projects (db w).
Proof.
  unfold create_user_view. destruct (is_empty _ || is_empty _); [done|].
  unfold insert_user. by destruct (existsb _ _).
Qed.

Lemma delete_user_view_projects user_id cu w :
  projects (db (world (delete_user_view user_id cu w))) = projects (db w).
Proof.
  unfold delete_user_view. destruct (u_id cu =? user_id); [done|].
  destruct (user_by_id (db w) user_id) as [target|]; [|done].
  by destruct (u_is_admin target && _).
Qed.

Lemma upload_view_projects env form cu w :
  projects (db (world (upload_view env form cu w))) = projects (db w).
Proof.
  unfold upload_view. destruct form as [f|]; [|done].
  destruct (is_empty (strip (up_project_id f))); [done|].
  destruct (project_by_text (db w) (strip (up_project_id f))) as [proj|]; [|done].
  destruct (up_photo f) as [[original_name content]|]; [|done].
  destruct (is_empty original_name); [done|].
  destruct (is_empty (strip (up_display_name f))); [done|].
  destruct (negb (allowed_ext (extension original_name))); [done|].
  destruct (base_or_stamp env (strip (up_display_name f)) 0).
  by destruct (py_int (strip (up_project_id f))).
Qed.

Lemma edit_photo_view_projects env photo_id form cu w :
  projects (db (world (edit_photo_view env photo_id form cu w))) = projects (db w).
Proof.
  unfold edit_photo_view.
  destruct (photo_by_id (db w) photo_id) as [photo|]; [|done].
  destruct form as [f|]; [|done].
  destruct (is_empty (strip (ed_display_name f))); [done|].
  destruct (is_empty (strip (ed_project_id f))); [done|].
  destruct (project_by_text (db w) (strip (ed_project_id f))) as [new_proj|]; [|done].
  assert (forall fp fn f1 warnings,
            projects (db (world (edit_commit photo_id (strip (ed_display_name f))
                                   (strip (ed_description f)) (strip (ed_project_id f))
                                   fp fn f1 warnings w))) = projects (db w)) as Hcommit.
  { intros. unfold edit_commit. by destruct (py_int (strip (ed_project_id f))). }
  destruct (edit_plan _ _ _ _ _ _) as [new_fp new_filename| |dst new_filename];
    [apply Hcommit..|].
  destruct (replace _ _ _ _); [done | apply Hcommit].
Qed.

Lemma delete_photo_view_projects env photo_id cu w :
  projects (db (world (delete_photo_view env photo_id cu w))) = projects (db w).
Proof. unfold delete_photo_view. by destruct (photo_by_id (db w) photo_id). Qed.

Lemma change_password_projects env form session w :
  projects (db (out_world (change_password env form session w))) = projects (db w).
Proof.
  unfold change_password.
  destruct (login_gate _ w) as [r|u] eqn:Hgate.
  { by apply login_gate_refuses in Hgate as <-. }
  destruct form as [[[current_pw new_pw] new_pw2]|]; [|done].
  destruct (negb (String.eqb new_pw new_pw2)); [done|].
  destruct (user_by_id (db w) (u_id u)) as [row|]; [|done].
  by destruct (negb (check_password_hash _ _)).
Qed.

Lemma serve_safe env fuel session req w out :
  safe_slugs (db w) -> serve env fuel session req w = Some out ->
  safe_slugs (db (out_world out)).
Proof.
  intros Hw. set (P := fun w' => safe_slugs (db w')).
  assert (forall w', projects (db w') = projects (db w) -> P w') as Hsame.
  { intros w' E. unfold P, safe_slugs. by rewrite E. }
  destruct req; cbn [serve]; try (intros [= <-]).
  - unfold home. by destruct (current_user_of _ _).
  - done.
  - unfold login. destruct (user_by_name _ _) as [row|]; [|done].
    by destruct (negb (check_password_hash _ _)).
  - unfold logout. destruct (login_gate _ w) as [r|u] eqn:Hgate; [|done].
    apply login_gate_refuses in Hgate as <-. done.
  - apply Hsame, change_password_projects.
  - apply Hsame, change_password_projects.
  - unfold admin_panel. destruct (admin_gate _ w) as [r|u] eqn:Hgate; [|done].
    apply admin_gate_refuses in Hgate as [<- _]. done.
  - apply (admin_required_keeps P); [done|]. intros. apply Hsame, create_user_view_projects.
  - apply (admin_required_keeps P); [done|]. intros. apply Hsame, delete_user_view_projects.
  - unfold admin_create_project.
    destruct (admin_gate _ w) as [r|u] eqn:Hgate.
    + intros [= <-]. apply admin_gate_refuses in Hgate as [<- _]. done.
    + destruct (create_project_view env fuel f w) as [r|] eqn:E; [|discriminate].
      intros [= <-]. by apply create_project_view_safe in E.
  - apply (admin_required_keeps P); [done|]. intros. by apply edit_project_view_safe.
  - apply (admin_required_keeps P); [done|]. intros. by apply delete_project_view_safe.
  - unfold download_backup. destruct (admin_gate _ w) as [r|u] eqn:Hgate; [|done].
    apply admin_gate_refuses in Hgate as [<- _]. done.
  - unfold dashboard, login_required.
    destruct (login_gate _ w) as [r|u] eqn:Hgate; [|done].
    apply login_gate_refuses in Hgate as <-. done.
  - apply (upload_required_keeps P); [done|]. intros. apply Hsame, upload_view_projects.
  - apply (admin_required_keeps P); [done|]. intros. apply Hsame, edit_photo_view_projects.
  - apply (admin_required_keeps P); [done|]. intros. apply Hsame, delete_photo_view_projects.
  - unfold uploaded_file. destruct (login_gate _ w) as [r|u] eqn:Hgate; [|done].
    apply login_gate_refuses in Hgate as <-. done.
Qed.

Lemma ensure_safe env w w' :
  safe_slugs (db w) -> ensure_admin_and_default_project env w = Some w' -> safe_slugs (db w').
Proof.
  intros Hw Hs. destruct (ensure_projects env w w' Hs) as (g & _ & Hg & Hold & Hnew).
  unfold safe_slugs. destruct (slug_taken (db w) "general").
  - by rewrite Hold.
  - destruct Hnew as [_ ->]; [done|]. apply Forall_app. split; [exact Hw|].
    constructor; [|done]. rewrite Hg. split; [done | repeat constructor].
Qed.

End SafeSlugs.

(** X17. The directory of a project is one safe component of a path:
    from tables whose slugs are not empty and hold only lower-case
    letters, digits, [_] and [-], in every store the application
    reaches every project has such a slug, and so one without [/] and
    without [.], whatever names, requests and restarts came in
    between. *)
Theorem project_slugs_stay_safe `{Werkzeug} `{SQLite} `{Passwords} `{Storage} `{!Builtins} (w0 w : World) :
  safe_slugs (db w0) ->
  reached w0 w ->
  forall p, p ∈ projects (db w) ->
    pr_slug p <> ""
    /\ Forall (fun c => Text.slug_char c = true) (Text.of_string (pr_slug p))
    /\ ("/"%char ∉ Text.of_string (pr_slug p))
    /\ ("."%char ∉ Text.of_string (pr_slug p)).
Proof.
  intros Hstart Hr.
  assert (safe_slugs (db w)) as Hsafe.
  { induction Hr as [env w Hs|env fuel session req w out _ IH Hs|env w w' _ IH Hs].
    - by apply (ensure_safe env w0).
    - by apply (serve_safe env fuel session req w).
    - by apply (ensure_safe env w). }
  intros p Hp. unfold safe_slugs in Hsafe. rewrite Forall_forall in Hsafe.
  destruct (Hsafe p Hp) as [Hne Hall]. split; [done|]. split; [done|].
  rewrite Forall_forall in Hall. split; intros Hin; by apply Hall in Hin.
Qed.

Lemma project_slugs_stay_safe_witness :
  exists w,
    reached (H := Sample.safe_name) (H0 := Sample.first_ten) (H1 := Fixture.check)
      (H2 := Fixture.dump) (H3 := Sample.digits_only) Sample.blank w
    /\ map pr_slug (projects (db w)) = ["general"; "roof_a"]
    /\ forall p, p ∈ projects (db w) -> "/"%char ∉ Text.of_string (pr_slug p).
Proof.
  destruct (ensure_first_start Sample.env Sample.blank eq_refl eq_refl) as [w1 Hw1].
  pose proof (reached_start (H := Sample.safe_name) (H0 := Sample.first_ten) (H1 := Fixture.check)
                (H2 := Fixture.dump) (H3 := Sample.digits_only) Sample.blank Sample.env w1 Hw1) as Hr1.
  destruct (serve (H := Sample.safe_name) (H0 := Sample.first_ten) (H1 := Fixture.check)
              (H2 := Fixture.dump) (H3 := Sample.digits_only) Sample.env 3 (Some 1)
              (Post_create_project (Sample.project_form "Roof A!")) w1)
    as [out|] eqn:Hserve; [|by injection Hw1 as <-].
  exists (out_world out).
  assert (reached (H := Sample.safe_name) (H0 := Sample.first_ten) (H1 := Fixture.check)
            (H2 := Fixture.dump) (H3 := Sample.digits_only) Sample.blank (out_world out)) as Hr2
    by (by eapply reached_serve).
  split; [exact Hr2|]. split.
  - injection Hw1 as <-. injection Hserve as <-. reflexivity.
  - intros p Hp.
    apply (project_slugs_stay_safe (H := Sample.safe_name) (H0 := Sample.first_ten)
             (H1 := Fixture.check) (H2 := Fixture.dump) (H3 := Sample.digits_only) Sample.blank (out_world out));
      [by constructor | exact Hr2 | exact Hp].
Defined.

(** ** The path helper and the back-fill *)

Section PathHelper.

Lemma strip_after_general fn c r :
  Text.of_string fn = c :: r -> Text.isspace c = false ->
  strip ("general/" ++ fn) = "general/" ++ strip fn
  /\ is_empty (strip fn) = false.
Proof.
  intros Hfn Hc. unfold strip. rewrite of_string_app, Hfn.
  unfold Text.strip, Text.strip_by.
  change (Text.of_string "general/" ++ c :: r)%list
    with ("g" :: "e" :: "n" :: "e" :: "r" :: "a" :: "l" :: "/" :: c :: r)%char.
  rewrite !lstrip_by_id by done.
  rewrite !rstrip_by_cons by done. split; reflexivity.
Qed.

End PathHelper.

(** X18. The back-fill of start-up writes down the path the handlers
    already looked at: for a row whose file name, if it has one, does
    not start with whitespace, [get_photo_filepath] gives the same
    path after the back-fill as before it. *)
Theorem backfill_keeps_photo_path (general_id : Z) (p : Photo) :
  (forall fn, ph_filename p = Some fn ->
     exists c r, Text.of_string fn = c :: r /\ Text.isspace c = false) ->
  get_photo_filepath (backfill general_id p) = get_photo_filepath p.
Proof.
  intros Hfn. unfold get_photo_filepath, backfill. cbn [ph_filepath ph_filename].
  destruct (ph_filename p) as [fn|] eqn:Efn.
  - destruct (Hfn fn eq_refl) as (c & r & Hchars & Hc).
    destruct (strip_after_general fn c r Hchars Hc) as [Hstrip Hne].
    destruct (ph_filepath p) as [[|a fp]|] eqn:Efp; [|done|].
    + cbn [or_empty]. rewrite Hstrip.
      change (strip "") with "". cbn [is_empty negb]. rewrite Hne. cbn [negb].
      by destruct (strip fn).
    + cbn [or_empty]. rewrite Hstrip.
      change (strip "") with "". cbn [is_empty negb]. rewrite Hne. cbn [negb].
      by destruct (strip fn).
  - by destruct (ph_filepath p) as [[|a fp]|].
Qed.

Lemma backfill_keeps_photo_path_witness :
  get_photo_filepath (backfill 1 Fixture.legacy) = "general/old.jpg"
  /\ get_photo_filepath Fixture.legacy = "general/old.jpg".
Proof.
  assert (get_photo_filepath (backfill 1 Fixture.legacy) = get_photo_filepath Fixture.legacy)
    as E.
  { apply (backfill_keeps_photo_path 1 Fixture.legacy).
    intros fn [= <-]. by exists "o"%char, (Text.of_string "ld.jpg"). }
  split; [rewrite E|]; reflexivity.
Defined.

(** ** The two tests of a file name *)

Section FileNames.
Import Text.

Lemma name_plain l :
  forallb (fun c => negb (is_char "/" c)) l = true -> Paths.name l = l \/ Paths.name l = [].
Proof.
  intros Hl. unfold Paths.name. rewrite split_by_none by done. cbn [List.filter].
  destruct (negb (is_nil l || Paths.is_dot l)); cbn; auto.
Qed.

End FileNames.

(** X19. The helper [allowed_file] accepts every file name without [/]
    that the extension test of [upload] accepts. *)
Theorem allowed_file_accepts_uploads (filename : string) :
  forallb (fun c => negb (Text.is_char "/" c)) (Text.of_string filename) = true ->
  allowed_ext (extension filename) = true ->
  allowed_file filename = true.
Proof.
  intros Hplain. unfold extension, allowed_file, Paths.suffix.
  destruct (name_plain _ Hplain) as [->| ->]; [|done].
  destruct (Text.after_last "." (Text.of_string filename)) as [t|] eqn:E; [|done].
  destruct (_ && _); [|done].
  apply after_last_free in E.
  unfold Text.lower. cbn [map]. unfold Text.lstrip_char. cbn [Text.lstrip_by].
  change (Text.is_char "." (Text.lower_char ".")) with true. cbv iota.
  destruct t as [|c t]; [done|]. cbn [forallb] in E. apply andb_true_iff in E as [Hc _].
  cbn [map]. rewrite lstrip_by_id; [done|].
  rewrite lower_char_dot. by apply negb_true_iff.
Qed.

Lemma allowed_file_accepts_uploads_witness : allowed_file "IMG_0001.JPG" = true.
Proof. by apply allowed_file_accepts_uploads. Defined.

(** The converse fails: a name that is all extension passes
    [allowed_file] and not the test of [upload]. *)
Example allowed_file_hidden_name :
  allowed_file ".png" = true /\ allowed_ext (extension ".png") = false.
Proof. split; reflexivity. Qed.
